(** * Document intelligence: change detection and compliance checking

    A shallow embedding of
      - [ml/src/document_intelligence/change_detector.py]   (class [ChangeDetector])
      - [ml/src/document_intelligence/compliance_checker.py] (class [ComplianceChecker])
    together with the properties of their reports.

    Conventions of the embedding.
      - A Python [str] is a Rocq [string]; each [ascii] stands for one code
        point below 256.
      - A Python [float] is an exact rational ([Q]); rounding to binary64,
        infinities and NaN are not represented.
      - A [for] loop over a list is a [fold_left] (or a [Fixpoint]) over its
        accumulators, in the order the loop visits the elements.
      - A call that may raise returns a [result]; [Raise] carries the
        exception.
      - [difflib], [pdf2image] and the image pipeline of [PIL], [numpy] and
        [cv2] are variables of a [Section]; [str] methods, [re],
        [datetime.strptime] and [float] are defined for the patterns and
        formats the code uses them with. *)

From Stdlib Require Import ZArith QArith Qround Qabs Lqa String Ascii List Lia Permutation.
From stdpp Require Import gmap strings list fin_maps pretty.


(** ** Python runtime: characters and strings *)

Module Py.

Definition code (c : ascii) : N := N_of_ascii c.

Definition in_range (lo hi : N) (c : ascii) : bool :=
  ((lo <=? code c) && (code c <=? hi))%N.

(** [str.isspace] on one character, also the class [\s] of [re]. *)
Definition isspace (c : ascii) : bool :=
  in_range 9 13 c || in_range 28 32 c || (code c =? 133)%N || (code c =? 160)%N.

(** the class [\d] of [re] *)
Definition isdigit (c : ascii) : bool := in_range 48 57 c.

(** [a-zA-Z] *)
Definition isalpha (c : ascii) : bool := in_range 65 90 c || in_range 97 122 c.

Definition lower_char (c : ascii) : ascii :=
  if in_range 65 90 c || (in_range 192 222 c && negb (code c =? 215)%N)
  then ascii_of_N (code c + 32)
  else c.

(** [s.lower()] *)
Fixpoint str_lower (s : string) : string :=
  match s with
  | EmptyString => EmptyString
  | String c s' => String (lower_char c) (str_lower s')
  end.

(** [s.startswith(p)] *)
Definition str_startswith (p s : string) : bool := String.prefix p s.

(** [sub in s] *)
Fixpoint str_in (sub s : string) : bool :=
  String.prefix sub s ||
  match s with
  | EmptyString => false
  | String _ s' => str_in sub s'
  end.

(** [s[n:]] *)
Fixpoint str_drop (n : nat) (s : string) : string :=
  match n, s with
  | O, _ => s
  | S _, EmptyString => EmptyString
  | S n', String _ s' => str_drop n' s'
  end.

(** [s[:n]] *)
Fixpoint str_take (n : nat) (s : string) : string :=
  match n, s with
  | O, _ => EmptyString
  | S _, EmptyString => EmptyString
  | S n', String c s' => String c (str_take n' s')
  end.

Fixpoint str_lstrip (s : string) : string :=
  match s with
  | EmptyString => EmptyString
  | String c s' => if isspace c then str_lstrip s' else s
  end.

Fixpoint str_rstrip (s : string) : string :=
  match s with
  | EmptyString => EmptyString
  | String c s' =>
      match str_rstrip s' with
      | EmptyString => if isspace c then EmptyString else String c EmptyString
      | t => String c t
      end
  end.

(** [s.strip()] *)
Definition str_strip (s : string) : string := str_rstrip (str_lstrip s).

(** [s.replace(a, b)] for one-character [a] and [b] *)
Fixpoint str_replace (a b : ascii) (s : string) : string :=
  match s with
  | EmptyString => EmptyString
  | String c s' => String (if Ascii.eqb c a then b else c) (str_replace a b s')
  end.

(** [sep.join(l)] *)
Definition str_join (sep : string) (l : list string) : string := String.concat sep l.

(** [s.split(sep)] for a one-character separator: never returns [[]]. *)
Fixpoint str_split_aux (sep : ascii) (cur : string) (s : string) : list string :=
  match s with
  | EmptyString => [cur]
  | String c s' =>
      if Ascii.eqb c sep then cur :: str_split_aux sep EmptyString s'
      else str_split_aux sep (cur +:+ String c EmptyString) s'
  end.

Definition str_split (sep : ascii) (s : string) : list string :=
  str_split_aux sep EmptyString s.

(** the characters of [s], as [for c in s] yields them *)
Fixpoint str_chars (s : string) : list string :=
  match s with
  | EmptyString => []
  | String c s' => String c EmptyString :: str_chars s'
  end.

(** Line boundaries of [str.splitlines]: LF, VT, FF, CR, FS, GS, RS, NEL
    (and CR LF as one boundary). *)
Definition is_linebreak (c : ascii) : bool :=
  in_range 10 13 c || in_range 28 30 c || (code c =? 133)%N.

Fixpoint splitlines_aux (keepends : bool) (cur : string) (s : string) : list string :=
  match s with
  | EmptyString =>
      match cur with EmptyString => [] | _ => [cur] end
  | String c s' =>
      if is_linebreak c then
        match s' with
        | String c' s'' =>
            if (code c =? 13)%N && (code c' =? 10)%N then
              (if keepends then cur +:+ String c (String c' EmptyString) else cur)
                :: splitlines_aux keepends EmptyString s''
            else
              (if keepends then cur +:+ String c EmptyString else cur)
                :: splitlines_aux keepends EmptyString s'
        | EmptyString =>
            [if keepends then cur +:+ String c EmptyString else cur]
        end
      else splitlines_aux keepends (cur +:+ String c EmptyString) s'
  end.

(** [s.splitlines(keepends)] *)
Definition str_splitlines (keepends : bool) (s : string) : list string :=
  splitlines_aux keepends EmptyString s.

(** [l.remove(x)]: drops the first element equal to [x]. *)
Fixpoint list_remove (x : string) (l : list string) : list string :=
  match l with
  | [] => []
  | y :: l' => if decide (x = y) then l' else y :: list_remove x l'
  end.

(** *** Floats as rationals *)

Definition Qltb (a b : Q) : bool := negb (Qle_bool b a).

(** [round(q, ndigits)]: to the nearest multiple of [10^-ndigits], ties to
    the even one. *)
Definition round (q : Q) (ndigits : nat) : Q :=
  let scale := (10 ^ Z.of_nat ndigits)%Z in
  let x := (q * inject_Z scale)%Q in
  let f := Qfloor x in
  let r := (x - inject_Z f)%Q in
  let n := if Qltb r (1 # 2) then f
           else if Qltb (1 # 2) r then (f + 1)%Z
           else if Z.even f then f else (f + 1)%Z in
  Qred (inject_Z n / inject_Z scale).

(** *** Exceptions *)

(** An exception: the name of its class and [str(e)]. *)
Inductive exn := Exception (name : string) (message : string).

Definition exn_str (e : exn) : string :=
  match e with Exception _ message => message end.

Definition TypeError (message : string) : exn := Exception "TypeError" message.

(** The outcome of a call that may raise. *)
Inductive result (A : Type) :=
| Ok (a : A)
| Raise (e : exn).

Arguments Ok {A} a.
Arguments Raise {A} e.

#[global] Instance result_ret : MRet result := fun A a => Ok a.

#[global] Instance result_bind : MBind result := fun A B f r =>
  match r with
  | Ok a => f a
  | Raise e => Raise e
  end.

End Py.

(** ** [change_detector.py] *)

Module ChangeDetector.
Import Py.

Fixpoint enumerate_from {A : Type} (i : nat) (l : list A) : list (nat * A) :=
  match l with
  | [] => []
  | x :: l' => (i, x) :: enumerate_from (S i) l'
  end.

(** [enumerate(l)] *)
Definition enumerate {A : Type} (l : list A) : list (nat * A) := enumerate_from 0 l.

Inductive Significance := CRITICAL | HIGH | MEDIUM | LOW.

(** An entry of [modifications]: the dict with keys ['old'], ['new'] and
    ['similarity']. *)
Record Modification := {
  old : string;
  new : string;
  similarity : Q
}.

(** [self.critical_keywords] *)
Definition critical_keywords : list string :=
  [ "price"; "amount"; "date"; "deadline"; "payment";
    "signature"; "contract"; "agreement"; "terms";
    "conditions"; "buyer"; "seller"; "property";
    "loan"; "closing"; "earnest"; "deposit" ].

Definition _contains_critical_keyword (text : string) : bool :=
  let text_lower := str_lower text in
  existsb (fun keyword => str_in keyword text_lower) critical_keywords.

Definition _determine_significance
    (additions deletions : list string) (modifications : list Modification)
    : Significance :=
  let critical_changes := 0 in
  let critical_changes :=
    fold_left (fun n addition =>
                 if _contains_critical_keyword addition then n + 1 else n)
              additions critical_changes in
  let critical_changes :=
    fold_left (fun n deletion =>
                 if _contains_critical_keyword deletion then n + 1 else n)
              deletions critical_changes in
  let critical_changes :=
    fold_left (fun n modif =>
                 if _contains_critical_keyword (old modif)
                    || _contains_critical_keyword (new modif)
                 then n + 1 else n)
              modifications critical_changes in
  let total_changes := length additions + length deletions + length modifications in
  if (3 <=? critical_changes)%nat then CRITICAL
  else if (1 <=? critical_changes)%nat then HIGH
  else if (20 <? total_changes)%nat then MEDIUM
  else LOW.

(** The result of [detect_text_changes]. The keys ['changes_summary'],
    ['text_diff'] and ['critical_changes'] are renderings of the three lists
    below and are left out. *)
Record TextChanges := {
  additions : list string;
  deletions : list string;
  modifications : list Modification;
  change_percentage : Q;
  significance : Significance
}.

Section Difflib.

(** [difflib.Differ().compare(a, b)]: the delta, one string per line, each
    starting with the two-character tag ["- "], ["+ "], ["  "] or ["? "]. *)
Variable compare : list string -> list string -> list string.

(** [difflib.SequenceMatcher(None, a, b).ratio()] *)
Variable ratio : string -> string -> Q.

Definition _calculate_similarity (str1 str2 : string) : Q := ratio str1 str2.

(** One iteration of [for j, addition in enumerate(additions)]; the state is
    [(best_match, best_similarity)]. *)
Definition best_step (deletion : string) (used_additions : gset nat)
    (st : option nat * Q) (ja : nat * string) : option nat * Q :=
  let '(best_match, best_similarity) := st in
  let '(j, addition) := ja in
  if decide (j ∈ used_additions) then st
  else
    let similarity := _calculate_similarity deletion addition in
    if Qltb (6 # 10) similarity && Qltb best_similarity similarity
    then (Some j, similarity)
    else st.

Definition best_match_for (deletion : string) (used_additions : gset nat)
    (additions : list string) : option nat * Q :=
  fold_left (best_step deletion used_additions) (enumerate additions) (None, 0%Q).

(** One iteration of [for i, deletion in enumerate(deletions)]; the state is
    [(modifications, used_deletions, used_additions)]. The index
    [best_match] is always within [additions]. *)
Definition pair_step (additions : list string)
    (st : list Modification * gset nat * gset nat) (id : nat * string)
    : list Modification * gset nat * gset nat :=
  let '(modifications, used_deletions, used_additions) := st in
  let '(i, deletion) := id in
  match best_match_for deletion used_additions additions with
  | (Some best_match, best_similarity) =>
      match additions !! best_match with
      | Some addition =>
          (modifications ++
             [ {| old := deletion;
                  new := addition;
                  similarity := round best_similarity 3 |} ],
           {[ i ]} ∪ used_deletions,
           {[ best_match ]} ∪ used_additions)
      | None => st
      end
  | (None, _) => st
  end.

Definition _detect_modifications (deletions additions : list string)
    : list Modification :=
  (fold_left (pair_step additions) (enumerate deletions) ([], ∅, ∅)).1.1.

(** The loop over [diff]; the state is [(additions, deletions)]. Lines
    tagged ["? "] or ["  "] are passed over. *)
Definition parse_step (st : list string * list string) (line : string)
    : list string * list string :=
  let '(additions, deletions) := st in
  if str_startswith "+ " line
  then (additions ++ [str_strip (str_drop 2 line)], deletions)
  else if str_startswith "- " line
  then (additions, deletions ++ [str_strip (str_drop 2 line)])
  else st.

Definition parse_diff (diff : list string) : list string * list string :=
  fold_left parse_step diff ([], []).

(** The raw [(additions, deletions)] of a pair of texts, before pairing. *)
Definition raw_changes (old_text new_text : string) : list string * list string :=
  parse_diff (compare (str_splitlines true old_text) (str_splitlines true new_text)).

(** One iteration of [for mod in modifications]; the state is
    [(deletions, additions)]. *)
Definition remove_matched (st : list string * list string) (modif : Modification)
    : list string * list string :=
  let '(deletions, additions) := st in
  (if decide (old modif ∈ deletions)
   then list_remove (old modif) deletions else deletions,
   if decide (new modif ∈ additions)
   then list_remove (new modif) additions else additions).

Definition detect_text_changes (old_text new_text : string) : TextChanges :=
  let '(additions, deletions) := raw_changes old_text new_text in
  let modifications := _detect_modifications deletions additions in
  let '(deletions, additions) :=
    fold_left remove_matched modifications (deletions, additions) in
  let total_lines := length (str_splitlines false new_text) in
  let changed_lines := length additions + length deletions + length modifications in
  let change_percentage :=
    if (0 <? total_lines)%nat
    then (inject_Z (Z.of_nat changed_lines) / inject_Z (Z.of_nat total_lines) * 100)%Q
    else 0%Q in
  {| additions := additions;
     deletions := deletions;
     modifications := modifications;
     change_percentage := round change_percentage 2;
     significance := _determine_significance additions deletions modifications |}.

(** *** The pairing, as the specification words it *)

(** [additions[j] = a] is still unmatched, no unmatched addition is more
    similar to [d], and every earlier unmatched addition is strictly less
    similar to [d]. *)
Definition best_unmatched (d : string) (additions : list string)
    (used : gset nat) (j : nat) (a : string) : Prop :=
  additions !! j = Some a ∧ (j ∉ used) ∧
  (∀ k b, additions !! k = Some b → k ∉ used → (ratio d b <= ratio d a)%Q) ∧
  (∀ k b, additions !! k = Some b → k ∉ used → k < j → (ratio d b < ratio d a)%Q).

(** [pairing additions used ds ms]: taking the deletions [ds] in order, with
    the additions at the indices [used] already matched, yields the
    modifications [ms]. *)
Inductive pairing (additions : list string)
    : gset nat -> list string -> list Modification -> Prop :=
| pairing_done used :
    pairing additions used [] []
| pairing_pair used d ds j a ms :
    best_unmatched d additions used j a ->
    ((6 # 10) < ratio d a)%Q ->
    pairing additions ({[ j ]} ∪ used) ds ms ->
    pairing additions used (d :: ds)
      ({| old := d; new := a; similarity := round (ratio d a) 3 |} :: ms)
| pairing_skip used d ds ms :
    (∀ k b, additions !! k = Some b → k ∉ used → (ratio d b <= (6 # 10))%Q) ->
    pairing additions used ds ms ->
    pairing additions used (d :: ds) ms.

(** What the inner loop has established once it has gone through the
    additions [seen]. *)
Definition best_invariant (d : string) (used : gset nat) (seen : list string)
    (st : option nat * Q) : Prop :=
  match st with
  | (Some j, s) =>
      ∃ a, best_unmatched d seen used j a ∧ s = ratio d a ∧ ((6 # 10) < s)%Q
  | (None, s) =>
      s = 0%Q ∧
      ∀ k b, seen !! k = Some b → k ∉ used → (ratio d b <= (6 # 10))%Q
  end.

(** The additions at the indices from [i] on that are not in [used]. *)
Fixpoint unmatched_from (i : nat) (used : gset nat) (additions : list string)
    : list string :=
  match additions with
  | [] => []
  | a :: rest =>
      if decide (i ∈ used) then unmatched_from (S i) used rest
      else a :: unmatched_from (S i) used rest
  end.

End Difflib.

(** *** The significance tiers, as the specification words them *)

(** [line] contains [term], ignoring case. *)
Definition contains_ignoring_case (term line : string) : Prop :=
  ∃ pre post, str_lower line = pre +:+ str_lower term +:+ post.

Definition is_critical (line : string) : Prop :=
  ∃ term, term ∈ critical_keywords ∧ contains_ignoring_case term line.

(** A modification counts once if either side is critical. *)
Definition critical_occurrences
    (additions deletions : list string) (modifications : list Modification) : nat :=
  length (List.filter _contains_critical_keyword additions) +
  length (List.filter _contains_critical_keyword deletions) +
  length (List.filter
            (fun m => _contains_critical_keyword (old m)
                      || _contains_critical_keyword (new m))
            modifications).

(** The percentage as the specification gives it. *)
Definition stated_change_percentage (r : TextChanges) (new_text : string) : Q :=
  (100 * inject_Z (Z.of_nat (length (additions r) + length (deletions r)
                             + length (modifications r)))
   / inject_Z (Z.of_nat (Nat.max 1 (length (str_splitlines false new_text)))))%Q.

(** *** A small differ and matcher for the examples

    [lines_compare] and [lcs_ratio] stand in for [difflib] in the closed
    examples: a longest-common-subsequence delta in the line format of
    [Differ.compare] (without ["? "] hint lines), and twice the length of a
    longest common subsequence over the total length. On the examples of this
    file they return what [difflib] returns. *)

Fixpoint lines_compare (a b : list string) {struct a} : list string :=
  let fix inner (b : list string) {struct b} : list string :=
    match a, b with
    | [], _ => map (fun y => "+ " +:+ y) b
    | _, [] => map (fun x => "- " +:+ x) a
    | x :: a', y :: b' =>
        if decide (x = y) then ("  " +:+ x) :: lines_compare a' b'
        else
          let d1 := ("- " +:+ x) :: lines_compare a' b in
          let d2 := ("+ " +:+ y) :: inner b' in
          if (length d1 <=? length d2)%nat then d1 else d2
    end in
  inner b.

(** One row of the longest-common-subsequence table: [prev] is the row of
    the previous character of [a], [diag] and [left] its neighbours. *)
Fixpoint lcs_row (x : ascii) (b : list ascii) (prev : list nat) (diag left : nat)
    : list nat :=
  match b, prev with
  | y :: b', up :: prev' =>
      let v := if Ascii.eqb x y then S diag else Nat.max up left in
      v :: lcs_row x b' prev' up v
  | _, _ => []
  end.

Definition lcs_length (a b : string) : nat :=
  let b' := list_ascii_of_string b in
  List.last
    (fold_left (fun prev x => lcs_row x b' prev 0 0)
               (list_ascii_of_string a) (repeat 0 (length b')))
    0.

Definition lcs_ratio (a b : string) : Q :=
  let total := String.length a + String.length b in
  if (total =? 0)%nat then 1%Q
  else Qred (inject_Z (Z.of_nat (2 * lcs_length a b)) / inject_Z (Z.of_nat total)).

(** Two texts for the examples: two lines, and the same two lines followed
    by a third. *)
Definition newline : string := String "010" EmptyString.

Definition example_two_lines : string :=
  "first" +:+ newline +:+ "second" +:+ newline.

Definition example_three_lines : string :=
  "first" +:+ newline +:+ "second" +:+ newline +:+ "third".

(** *** The renderings of the three lists *)

(** [not l] for a list *)
Definition is_nil_list {A : Type} (l : list A) : bool :=
  match l with [] => true | _ => false end.

(** [self._extract_critical_keywords(text)] *)
Definition _extract_critical_keywords (text : string) : list string :=
  let text_lower := str_lower text in
  List.filter (fun keyword => str_in keyword text_lower) critical_keywords.

(** An entry of ['critical_changes'], by its ['type']. The keywords of a
    modification come out of [list(set(...))], in no particular order: they
    are kept as a set. *)
Inductive CriticalChange :=
| CriticalAddition (content : string) (keywords : list string)
| CriticalDeletion (content : string) (keywords : list string)
| CriticalModification (old_content new_content : string) (keywords : gset string).

Definition _identify_critical_changes
    (additions deletions : list string) (modifications : list Modification)
    : list CriticalChange :=
  let critical := [] in
  let critical :=
    fold_left (fun critical add =>
                 if _contains_critical_keyword add
                 then critical ++ [CriticalAddition add (_extract_critical_keywords add)]
                 else critical)
              additions critical in
  let critical :=
    fold_left (fun critical delete =>
                 if _contains_critical_keyword delete
                 then critical
                        ++ [CriticalDeletion delete (_extract_critical_keywords delete)]
                 else critical)
              deletions critical in
  fold_left (fun critical modif =>
               if _contains_critical_keyword (old modif)
                  || _contains_critical_keyword (new modif)
               then critical
                      ++ [CriticalModification (old modif) (new modif)
                            (list_to_set (_extract_critical_keywords (old modif)
                                          ++ _extract_critical_keywords (new modif)))]
               else critical)
            modifications critical.

(** The entries the three loops of [_identify_critical_changes] append. *)
Definition addition_entry (add : string) : CriticalChange :=
  CriticalAddition add (_extract_critical_keywords add).

Definition deletion_entry (delete : string) : CriticalChange :=
  CriticalDeletion delete (_extract_critical_keywords delete).

Definition modification_entry (modif : Modification) : CriticalChange :=
  CriticalModification (old modif) (new modif)
    (list_to_set (_extract_critical_keywords (old modif)
                  ++ _extract_critical_keywords (new modif))).

Definition _generate_changes_summary
    (additions deletions : list string) (modifications : list Modification)
    : string :=
  let parts := [] in
  let parts :=
    if is_nil_list additions then parts
    else parts ++ [pretty (length additions) +:+ " addition(s)"] in
  let parts :=
    if is_nil_list deletions then parts
    else parts ++ [pretty (length deletions) +:+ " deletion(s)"] in
  let parts :=
    if is_nil_list modifications then parts
    else parts ++ [pretty (length modifications) +:+ " modification(s)"] in
  if is_nil_list parts then "No changes detected"
  else
    let summary := "Document updated with " +:+ str_join ", " parts +:+ "." in
    let critical_items := [] in
    let critical_items :=
      fold_left (fun items add =>
                   if _contains_critical_keyword add
                   then items ++ ["Added: " +:+ str_take 50 add +:+ "..."]
                   else items)
                (take 3 additions) critical_items in
    let critical_items :=
      fold_left (fun items delete =>
                   if _contains_critical_keyword delete
                   then items ++ ["Removed: " +:+ str_take 50 delete +:+ "..."]
                   else items)
                (take 3 deletions) critical_items in
    if is_nil_list critical_items then summary
    else summary +:+ " Critical changes: " +:+ str_join "; " critical_items.

Definition _format_diff
    (additions deletions : list string) (modifications : list Modification)
    : string :=
  let diff_lines := [] in
  let diff_lines :=
    if is_nil_list additions then diff_lines
    else (diff_lines ++ ["+ ADDITIONS:"]
            ++ map (fun add => "  + " +:+ add) additions) ++ [""] in
  let diff_lines :=
    if is_nil_list deletions then diff_lines
    else (diff_lines ++ ["- DELETIONS:"]
            ++ map (fun delete => "  - " +:+ delete) deletions) ++ [""] in
  let diff_lines :=
    if is_nil_list modifications then diff_lines
    else diff_lines ++ ["~ MODIFICATIONS:"]
           ++ flat_map (fun modif => ["  OLD: " +:+ old modif;
                                      "  NEW: " +:+ new modif;
                                      ""])
                       modifications in
  str_join newline diff_lines.

(** The tiers in rising order. *)
Definition tier_rank (s : Significance) : nat :=
  match s with
  | LOW => 0
  | MEDIUM => 1
  | HIGH => 2
  | CRITICAL => 3
  end.

(** *** [detect_visual_changes] *)

Module Visual.

(** The ['changes'] dict of one page. *)
Record PageChanges := {
  page_number : nat;
  change_count : nat;
  change_percentage : Q;
  significant : bool
}.

(** The dict returned on success. [average_change_percentage] is [None]
    where [np.mean] of no page is NaN. *)
Record VisualChanges := {
  visual_diff_url : option string;
  page_count : nat;
  total_changes : nat;
  average_change_percentage : option Q;
  page_changes : list PageChanges
}.

(** The returned dict: [{'success': False, 'error': ...}] or the dict with
    ['success': True]. *)
Inductive VisualReport :=
| Failure (error : string)
| Success (changes : VisualChanges).

Inductive Level := INFO | WARNING | ERROR.

(** What [logger] has been given, oldest first. *)
Definition Log : Type := list (Level * string).

(** [np.mean(l)] *)
Definition np_mean (l : list Q) : option Q :=
  match l with
  | [] => None
  | _ => Some (fold_left Qplus l 0%Q / inject_Z (Z.of_nat (length l)))%Q
  end.

Section Imaging.

(** A decoded page, a [PIL.Image]. *)
Variable Image : Type.

(** [PDF_AVAILABLE]: whether [pdf2image] could be imported. *)
Variable PDF_AVAILABLE : bool.

(** [pdf2image.convert_from_path(path, dpi=150)] *)
Variable convert_from_path : string -> result (list Image).

(** [self._compare_images(old_img, new_img, page_number)], a pipeline of
    [numpy] and [cv2] calls: the highlighted image and the ['changes'] of the
    page. *)
Variable _compare_images : Image -> Image -> nat -> result (Image * PageChanges).

(** [highlighted_images[0].save(output_path, save_all=True,
    append_images=highlighted_images[1:], resolution=150.0)] *)
Variable save : list Image -> string -> result unit.

(** [for i in range(min(len(old_images), len(new_images)))]: pages [i] of
    both documents, as long as both have one; the result is
    [(highlighted_images, page_changes)]. *)
Fixpoint compare_pages (i : nat) (old_images new_images : list Image)
    : result (list Image * list PageChanges) :=
  match old_images, new_images with
  | old_img :: old_rest, new_img :: new_rest =>
      page_result ← _compare_images old_img new_img (i + 1);
      rest ← compare_pages (S i) old_rest new_rest;
      mret (page_result.1 :: rest.1, page_result.2 :: rest.2)
  | _, _ => mret ([], [])
  end.

(** The statements of the [try] block after the page-count test. *)
Definition report_pages (old_images new_images : list Image)
    (output_path : option string) (log : Log) : Log * result VisualChanges :=
  match compare_pages 0 old_images new_images with
  | Raise e => (log, Raise e)
  | Ok (highlighted_images, page_changes) =>
      let saved : Log * result (option string) :=
        match output_path, highlighted_images with
        | Some path, _ :: _ =>
            if decide (path = EmptyString) then (log, Ok None)
            else
              match save highlighted_images path with
              | Ok _ => (log ++ [(INFO, "Visual diff saved to " +:+ path)],
                         Ok (Some path))
              | Raise e => (log, Raise e)
              end
        | _, _ => (log, Ok None)
        end in
      match saved with
      | (log, Raise e) => (log, Raise e)
      | (log, Ok visual_diff_url) =>
          let total_changes := fold_left Nat.add (map change_count page_changes) 0 in
          let avg_change_percentage := np_mean (map change_percentage page_changes) in
          (log,
           Ok {| visual_diff_url := visual_diff_url;
                 page_count := length highlighted_images;
                 total_changes := total_changes;
                 average_change_percentage :=
                   (fun q => round q 2) <$> avg_change_percentage;
                 page_changes := page_changes |})
      end
  end.

(** The [try] block. *)
Definition try_detect (old_pdf_path new_pdf_path : string)
    (output_path : option string) : Log * result VisualChanges :=
  let log := [(INFO, "Converting PDFs to images for comparison")] in
  match convert_from_path old_pdf_path with
  | Raise e => (log, Raise e)
  | Ok old_images =>
      match convert_from_path new_pdf_path with
      | Raise e => (log, Raise e)
      | Ok new_images =>
          let log :=
            if decide (length old_images ≠ length new_images)
            then log ++ [(WARNING,
                          "Page count mismatch: " +:+ pretty (length old_images)
                          +:+ " vs " +:+ pretty (length new_images))]
            else log in
          report_pages old_images new_images output_path log
      end
  end.

(** [detect_visual_changes]: what was logged, and the returned dict. *)
Definition detect_visual_changes (old_pdf_path new_pdf_path : string)
    (output_path : option string) : Log * VisualReport :=
  if negb PDF_AVAILABLE then
    ([(ERROR, "pdf2image not available for visual diff")],
     Failure "PDF processing not available")
  else
    match try_detect old_pdf_path new_pdf_path output_path with
    | (log, Ok changes) => (log, Success changes)
    | (log, Raise e) =>
        (log ++ [(ERROR, "Visual change detection failed: " +:+ exn_str e)],
         Failure (exn_str e))
    end.

End Imaging.

(** The claim that the report tells a page-count mismatch: some reading of
    the returned dict is true exactly when the two documents differ in their
    number of pages. *)
Definition mismatch_in_report (Image : Type)
    (convert_from_path : string -> result (list Image))
    (detect : string -> string -> option string -> Log * VisualReport) : Prop :=
  exists warning : VisualReport -> bool,
    forall old_pdf_path new_pdf_path output_path old_images new_images,
      convert_from_path old_pdf_path = Ok old_images ->
      convert_from_path new_pdf_path = Ok new_images ->
      (warning (detect old_pdf_path new_pdf_path output_path).2 = true
       <-> length old_images <> length new_images).

(** *** Pages for the examples

    In the closed examples a page is a number, a document is found under its
    path, two pages differ in one region when their numbers differ, and
    nothing is written out. *)

Definition example_convert (path : string) : result (list nat) :=
  if decide (path = "old.pdf") then Ok [1; 2]
  else if decide (path = "new.pdf") then Ok [1; 7; 3]
  else if decide (path = "new_short.pdf") then Ok [1; 7]
  else Raise (Exception "PDFPageCountError" "Unable to get page count.").

Definition example_compare (old_img new_img : nat) (page_number : nat)
    : result (nat * PageChanges) :=
  let changed := negb (old_img =? new_img)%nat in
  Ok (new_img,
      {| page_number := page_number;
         change_count := if changed then 1 else 0;
         change_percentage := if changed then 12%Q else 0%Q;
         significant := changed |}).

Definition example_save (images : list nat) (path : string) : result unit := Ok tt.

Definition example_detect : string -> string -> option string -> Log * VisualReport :=
  detect_visual_changes nat true example_convert example_compare example_save.

(** As [example_compare], but page 7 cannot be decoded. *)
Definition example_compare_failing (old_img new_img : nat) (page_number : nat)
    : result (nat * PageChanges) :=
  if (new_img =? 7)%nat
  then Raise (Exception "error" "OpenCV: bad image")
  else example_compare old_img new_img page_number.

End Visual.

End ChangeDetector.
(** ** [compliance_checker.py] *)

Module ComplianceChecker.
Import Py.

(** *** Values of the extracted data *)

(** A naive [datetime.datetime]. *)
Record datetime := {
  year : Z;
  month : Z;
  day : Z;
  hour : Z;
  minute : Z;
  second : Z;
  microsecond : Z
}.

(** The values a field of [extracted_data] may hold. A dict is the list of
    its items, with string keys, each key once. *)
#[warnings="-register-all"] Inductive value :=
| VNone
| VBool (b : bool)
| VInt (n : Z)
| VFloat (q : Q)
| VStr (s : string)
| VList (l : list value)
| VDict (d : list (string * value))
| VDatetime (t : datetime).

Fixpoint lookup_key (d : list (string * value)) (k : string) : option value :=
  match d with
  | [] => None
  | (k', v) :: d' => if decide (k = k') then Some v else lookup_key d' k
  end.

(** [d.get(k)] *)
Definition get (d : list (string * value)) (k : string) : value :=
  default VNone (lookup_key d k).

(** [d.get(k, dflt)] *)
Definition get_default (d : list (string * value)) (k : string) (dflt : value) : value :=
  default dflt (lookup_key d k).

(** [bool(v)] *)
Definition truthy (v : value) : bool :=
  match v with
  | VNone => false
  | VBool b => b
  | VInt n => negb (n =? 0)%Z
  | VFloat q => negb (Qeq_bool q 0)
  | VStr s => negb (String.eqb s EmptyString)
  | VList l => match l with [] => false | _ => true end
  | VDict d => match d with [] => false | _ => true end
  | VDatetime _ => true
  end.

(** [a or b] *)
Definition py_or (a b : value) : value := if truthy a then a else b.

(** [bool(x)] for an [Optional[float]] *)
Definition truthy_amount (x : option Q) : bool :=
  match x with
  | None => false
  | Some q => negb (Qeq_bool q 0)
  end.

(** *** Dates *)

Definition is_leap (y : Z) : bool :=
  ((y mod 4 =? 0) && (negb (y mod 100 =? 0) || (y mod 400 =? 0)))%Z.

Definition days_in_month (y m : Z) : Z :=
  if (m =? 2)%Z then (if is_leap y then 29 else 28)%Z
  else if ((m =? 4) || (m =? 6) || (m =? 9) || (m =? 11))%Z then 30%Z
  else 31%Z.

(** Days of the year before the first of month [m]. *)
Definition days_before_month (y m : Z) : Z :=
  fold_left Z.add (map (days_in_month y) (map Z.of_nat (seq 1 (Z.to_nat (m - 1))))) 0%Z.

Definition days_before_year (y : Z) : Z :=
  let y' := (y - 1)%Z in
  (y' * 365 + y' / 4 - y' / 100 + y' / 400)%Z.

(** [t.toordinal()] *)
Definition toordinal (t : datetime) : Z :=
  (days_before_year (year t) + days_before_month (year t) (month t) + day t)%Z.

(** Microseconds since the start of day 0. *)
Definition to_microseconds (t : datetime) : Z :=
  ((((toordinal t * 24 + hour t) * 60 + minute t) * 60 + second t) * 1000000
   + microsecond t)%Z.

(** [a < b], [a > b] and [a >= b] on datetimes *)
Definition dt_lt (a b : datetime) : bool := (to_microseconds a <? to_microseconds b)%Z.
Definition dt_gt (a b : datetime) : bool := dt_lt b a.
Definition dt_ge (a b : datetime) : bool := negb (dt_lt a b).

(** [(a - b).days]: whole days, rounded down. *)
Definition days_between (a b : datetime) : Z :=
  ((to_microseconds a - to_microseconds b) / 86400000000)%Z.

(** *** [datetime.strptime]

    A format is a list of directives. [strptime] turns it into a regular
    expression, compiled with [IGNORECASE], and takes the first match that
    backtracking finds; the match has to cover the whole string. *)

Inductive directive :=
| DirY | Dirm | Dird | DirH | DirM | DirS
| DirLit (c : ascii)
| DirSpace.

(** One alternative of a directive's regular expression: one character class
    per character. *)
Definition is_char (c : ascii) : ascii -> bool := fun c' => Ascii.eqb c' c.

Definition char_range (lo hi : ascii) : ascii -> bool :=
  fun c => in_range (code lo) (code hi) c.

Definition alternatives (d : directive) : list (list (ascii -> bool)) :=
  match d with
  | DirY => [ [isdigit; isdigit; isdigit; isdigit] ]
  | Dirm => [ [is_char "1"; char_range "0" "2"];
              [is_char "0"; char_range "1" "9"];
              [char_range "1" "9"] ]
  | Dird => [ [is_char "3"; char_range "0" "1"];
              [char_range "1" "2"; isdigit];
              [is_char "0"; char_range "1" "9"];
              [char_range "1" "9"];
              [is_char " "; char_range "1" "9"] ]
  | DirH => [ [is_char "2"; char_range "0" "3"];
              [char_range "0" "1"; isdigit];
              [isdigit] ]
  | DirM => [ [char_range "0" "5"; isdigit];
              [isdigit] ]
  | DirS => [ [is_char "6"; char_range "0" "1"];
              [char_range "0" "5"; isdigit];
              [isdigit] ]
  | DirLit c => [ [fun c' => Ascii.eqb (lower_char c') (lower_char c)] ]
  | DirSpace => []
  end.

(** Matches the classes against the start of [s]: the matched text and the
    rest. *)
Fixpoint match_classes (classes : list (ascii -> bool)) (s : string)
    : option (string * string) :=
  match classes with
  | [] => Some (EmptyString, s)
  | p :: classes' =>
      match s with
      | String c s' =>
          if p c then
            match match_classes classes' s' with
            | Some (text, rest) => Some (String c text, rest)
            | None => None
            end
          else None
      | EmptyString => None
      end
  end.

(** [int(text)] for a text of digits, possibly after a space. *)
Definition int_of_digits (text : string) : Z :=
  fold_left (fun n c => if isdigit c then (n * 10 + Z.of_N (code c - 48))%Z else n)
            (list_ascii_of_string text) 0%Z.

(** The groups of a match. *)
Record groups := {
  gY : Z; gm : Z; gd : Z; gH : Z; gM : Z; gS : Z
}.

Definition set_group (d : directive) (v : Z) (g : groups) : groups :=
  match d with
  | DirY => {| gY := v; gm := gm g; gd := gd g; gH := gH g; gM := gM g; gS := gS g |}
  | Dirm => {| gY := gY g; gm := v; gd := gd g; gH := gH g; gM := gM g; gS := gS g |}
  | Dird => {| gY := gY g; gm := gm g; gd := v; gH := gH g; gM := gM g; gS := gS g |}
  | DirH => {| gY := gY g; gm := gm g; gd := gd g; gH := v; gM := gM g; gS := gS g |}
  | DirM => {| gY := gY g; gm := gm g; gd := gd g; gH := gH g; gM := v; gS := gS g |}
  | DirS => {| gY := gY g; gm := gm g; gd := gd g; gH := gH g; gM := gM g; gS := v |}
  | _ => g
  end.

(** The ways [\s+] can match at the start of [s], longest first: the rests
    of [s] after each. *)
Fixpoint space_rests (s : string) : list string :=
  match s with
  | String c s' => if isspace c then space_rests s' ++ [s'] else []
  | EmptyString => []
  end.

(** The first match of the format at the start of [s], in the order in which
    backtracking tries the alternatives: its groups and the unmatched rest. *)
Fixpoint match_format (fmt : list directive) (s : string) (g : groups)
    : option (groups * string) :=
  match fmt with
  | [] => Some (g, s)
  | d :: fmt' =>
      let continue_with (acc : option (groups * string)) (g' : groups) (rest : string) :=
        match acc with
        | Some r => Some r
        | None => match_format fmt' rest g'
        end in
      match d with
      | DirSpace =>
          fold_left (fun acc rest => continue_with acc g rest) (space_rests s) None
      | _ =>
          fold_left
            (fun acc classes =>
               match acc with
               | Some r => Some r
               | None =>
                   match match_classes classes s with
                   | Some (text, rest) =>
                       match_format fmt' rest (set_group d (int_of_digits text) g)
                   | None => None
                   end
               end)
            (alternatives d) None
      end
  end.

(** [datetime.strptime(s, fmt)]; [None] where it raises [ValueError]. *)
Definition strptime (s : string) (fmt : list directive) : option datetime :=
  match match_format fmt s
          {| gY := 1900; gm := 1; gd := 1; gH := 0; gM := 0; gS := 0 |} with
  | Some (g, EmptyString) =>
      if ((1 <=? gY g) && (gd g <=? days_in_month (gY g) (gm g)) && (gS g <=? 59))%Z
      then Some {| year := gY g; month := gm g; day := gd g;
                   hour := gH g; minute := gM g; second := gS g;
                   microsecond := 0 |}
      else None
  | _ => None
  end.

(** The five formats of [_parse_date]:
    ['%Y-%m-%d'], ['%m/%d/%Y'], ['%d/%m/%Y'], ['%Y-%m-%dT%H:%M:%S'] and
    ['%Y-%m-%d %H:%M:%S']. *)
Definition formats : list (list directive) :=
  [ [DirY; DirLit "-"; Dirm; DirLit "-"; Dird];
    [Dirm; DirLit "/"; Dird; DirLit "/"; DirY];
    [Dird; DirLit "/"; Dirm; DirLit "/"; DirY];
    [DirY; DirLit "-"; Dirm; DirLit "-"; Dird; DirLit "T";
     DirH; DirLit ":"; DirM; DirLit ":"; DirS];
    [DirY; DirLit "-"; Dirm; DirLit "-"; Dird; DirSpace;
     DirH; DirLit ":"; DirM; DirLit ":"; DirS] ].

Definition _parse_date (date_value : value) : option datetime :=
  match date_value with
  | VDatetime t => Some t
  | VStr s =>
      fold_left (fun found fmt =>
                   match found with
                   | Some t => Some t
                   | None => strptime s fmt
                   end)
                formats None
  | _ => None
  end.


(** *** Amounts *)

(** Reads [digit (["_"] digit)*] at the start of [s]: the digits and the
    rest. *)
Fixpoint read_digitpart (s : string) : string * string :=
  match s with
  | String c s' =>
      if isdigit c then
        let more :=
          match s' with
          | String u t =>
              match t with
              | String c2 _ =>
                  if Ascii.eqb u "_" && isdigit c2 then read_digitpart t
                  else read_digitpart s'
              | EmptyString => read_digitpart s'
              end
          | EmptyString => (EmptyString, EmptyString)
          end in
        (String c more.1, more.2)
      else (EmptyString, s)
  | EmptyString => (EmptyString, EmptyString)
  end.

(** An optional sign at the start of [s]: whether it is ["-"], and the
    rest. *)
Definition read_sign (s : string) : bool * string :=
  match s with
  | String c s' =>
      if Ascii.eqb c "-" then (true, s')
      else if Ascii.eqb c "+" then (false, s')
      else (false, s)
  | EmptyString => (false, s)
  end.

(** [m * 10^e] *)
Definition scale10 (m e : Z) : Q :=
  if (0 <=? e)%Z then inject_Z (m * 10 ^ e)
  else Qred (Qmake m (Z.to_pos (10 ^ (- e)))).

(** [float(s)] for a string; [None] where it raises [ValueError]. The
    literals of infinities and NaN, which [float] accepts, give [None]
    here. *)
Definition float_of_str (s : string) : option Q :=
  let '(negative, s) := read_sign (str_strip s) in
  let '(int_digits, s) := read_digitpart s in
  let '(frac_digits, s) :=
    match s with
    | String c s' => if Ascii.eqb c "." then read_digitpart s' else (EmptyString, s)
    | EmptyString => (EmptyString, s)
    end in
  if String.eqb int_digits EmptyString && String.eqb frac_digits EmptyString
  then None
  else
    let mantissa := int_of_digits (int_digits +:+ frac_digits) in
    let mantissa := if negative then (- mantissa)%Z else mantissa in
    let shift := (- Z.of_nat (String.length frac_digits))%Z in
    match s with
    | EmptyString => Some (scale10 mantissa shift)
    | String c s' =>
        if Ascii.eqb c "e" || Ascii.eqb c "E" then
          let '(exp_negative, s') := read_sign s' in
          let '(exp_digits, rest) := read_digitpart s' in
          if String.eqb exp_digits EmptyString || negb (String.eqb rest EmptyString)
          then None
          else
            let e := int_of_digits exp_digits in
            Some (scale10 mantissa (shift + (if exp_negative then - e else e)))
        else None
    end.

(** [re.sub('[...]', '', s)]: [s] without the characters of the class. *)
Fixpoint re_sub_class (cls : ascii -> bool) (s : string) : string :=
  match s with
  | EmptyString => EmptyString
  | String c s' => if cls c then re_sub_class cls s' else String c (re_sub_class cls s')
  end.

Definition _parse_amount (amount_value : value) : option Q :=
  match amount_value with
  | VBool b => Some (if b then 1 else 0)%Q
  | VInt n => Some (inject_Z n)
  | VFloat q => Some q
  | VStr s =>
      let cleaned := re_sub_class (fun c => Ascii.eqb c "$" || Ascii.eqb c ",") s in
      float_of_str cleaned
  | _ => None
  end.

(** *** Regular expressions of the format checks *)

(** A pattern is a sequence of atoms: a character class repeated between
    [lo] and [hi] times (greedy), or [$]. *)
Inductive atom :=
| Rep (cls : ascii -> bool) (lo : nat) (hi : option nat)
| Eol.

Fixpoint match_rep (cls : ascii -> bool) (lo : nat) (hi : option nat)
    (k : string -> bool) (s : string) {struct s} : bool :=
  let stop := match lo with O => k s | S _ => false end in
  match s with
  | String c s' =>
      if cls c && match hi with Some O => false | _ => true end
      then match_rep cls (Nat.pred lo) (Nat.pred <$> hi) k s' || stop
      else stop
  | EmptyString => stop
  end.

(** [re.match(pattern, s)] as a truth value. The match starts at the start
    of [s], which is all that a leading [^] asks; [$] holds at the end of [s]
    and before a newline that ends [s]. *)
Fixpoint re_match (pattern : list atom) (s : string) : bool :=
  match pattern with
  | [] => true
  | Rep cls lo hi :: rest => match_rep cls lo hi (re_match rest) s
  | Eol :: rest =>
      (String.eqb s EmptyString || String.eqb s (String "010" EmptyString))
      && re_match rest s
  end.

Definition one (c : ascii) : atom := Rep (is_char c) 1 (Some 1).

(** [^[a-zA-Z0-9._%+-]+@[a-zA-Z0-9.-]+\.[a-zA-Z]{2,}$] *)
Definition _is_valid_email (email : string) : bool :=
  let local_part c :=
    isalpha c || isdigit c || is_char "." c || is_char "_" c || is_char "%" c
    || is_char "+" c || is_char "-" c in
  let domain c := isalpha c || isdigit c || is_char "." c || is_char "-" c in
  re_match [Rep local_part 1 None; one "@"; Rep domain 1 None; one ".";
            Rep isalpha 2 None; Eol] email.

(** [re.sub(r'[-\s\(\)\.]', '', phone)], then [^\d{10,11}$] *)
Definition _is_valid_phone (phone : string) : bool :=
  let cleaned :=
    re_sub_class (fun c => is_char "-" c || isspace c || is_char "(" c
                           || is_char ")" c || is_char "." c) phone in
  re_match [Rep isdigit 10 (Some 11); Eol] cleaned.

(** [re.sub(r'-', '', ssn)], then [^\d{9}$] *)
Definition _is_valid_ssn (ssn : string) : bool :=
  let cleaned := re_sub_class (is_char "-") ssn in
  re_match [Rep isdigit 9 (Some 9); Eol] cleaned.

(** *** Formatting numbers *)

(** The digits of [n] in groups of three, separated by commas. *)
Definition group_thousands (digits : string) : string :=
  let n := String.length digits in
  let head := n mod 3 in
  let fix groups (k : nat) (s : string) : list string :=
    match k with
    | O => []
    | S k' => str_take 3 s :: groups k' (str_drop 3 s)
    end in
  str_join ","
    ((if (head =? 0)%nat then [] else [str_take head digits])
       ++ groups (n / 3) (str_drop head digits)).

(** [format(q, '.<digits>f')], and with [comma] [format(q, ',.<digits>f')]. *)
Definition format_fixed (comma : bool) (digits : nat) (q : Q) : string :=
  let scale := (10 ^ Z.of_nat digits)%Z in
  let n := Qfloor (round (Qabs q) digits * inject_Z scale) in
  let int_part := pretty (Z.to_N (n / scale)) in
  let frac := pretty (Z.to_N (n mod scale)) in
  let padding := String.concat "" (replicate (digits - String.length frac) "0") in
  (if Qltb q 0 then "-" else "")
    +:+ (if comma then group_thousands int_part else int_part)
    +:+ (if (digits =? 0)%nat then "" else "." +:+ padding +:+ frac).


(** *** Rules and reports *)

(** [self.rules], as [_load_default_rules] builds it: for each category the
    dict of its rule lists. *)
Definition rules : gmap string (gmap string (list string)) :=
  list_to_map
    [ ("SETTLEMENT_STATEMENT",
       list_to_map
         [ ("required_fields",
            ["buyer_name"; "seller_name"; "property_address";
             "sale_price"; "closing_date"; "loan_amount"]);
           ("required_signatures", ["buyer"; "seller"; "closing_agent"]);
           ("date_checks",
            ["closing_date_in_future"; "contract_date_before_closing"]);
           ("amount_checks", ["loan_amount_less_than_price"; "fees_reasonable"]);
           ("format_checks", ["email_format"; "phone_format"]) ]);
      ("PURCHASE_AGREEMENT",
       list_to_map
         [ ("required_fields",
            ["buyer_name"; "seller_name"; "property_address";
             "purchase_price"; "earnest_money"; "closing_date";
             "inspection_period"]);
           ("required_signatures", ["buyer"; "seller"]);
           ("required_clauses",
            ["contingencies"; "inspection_period"; "financing_terms"]);
           ("date_checks", ["closing_date_reasonable"; "inspection_period_valid"]);
           ("amount_checks",
            ["earnest_money_reasonable"; "purchase_price_positive"]) ]);
      ("LOAN_APPLICATION",
       list_to_map
         [ ("required_fields",
            ["applicant_name"; "ssn"; "loan_amount";
             "property_address"; "employment_info"; "income"]);
           ("required_signatures", ["applicant"]);
           ("date_checks", ["application_date_valid"]);
           ("amount_checks", ["loan_amount_positive"; "income_sufficient"]);
           ("format_checks", ["ssn_format"; "email_format"; "phone_format"]) ]);
      ("TITLE_INSURANCE",
       list_to_map
         [ ("required_fields",
            ["property_address"; "owner_name"; "policy_number";
             "coverage_amount"; "effective_date"]);
           ("required_signatures", ["insurer"; "owner"]);
           ("date_checks", ["effective_date_valid"]);
           ("amount_checks", ["coverage_amount_reasonable"]) ]);
      ("DEED",
       list_to_map
         [ ("required_fields",
            ["grantor_name"; "grantee_name"; "property_description";
             "consideration_amount"; "execution_date"]);
           ("required_signatures", ["grantor"; "notary"]);
           ("required_clauses", ["legal_description"]);
           ("date_checks", ["execution_date_valid"]);
           ("format_checks", ["legal_description_format"]) ]) ].

Inductive CheckType :=
| REQUIRED_FIELD | SIGNATURE | CLAUSE_CHECK | DATE_CHECK | AMOUNT_CHECK | FORMAT_CHECK.

Inductive Status := PASS | WARNING | FAIL.

Inductive Severity := CRITICAL | HIGH | MEDIUM | LOW.

Inductive OverallStatus :=
| COMPLIANT | NEEDS_REVIEW | PARTIALLY_COMPLIANT | NON_COMPLIANT.

#[global] Instance CheckType_eq_dec : EqDecision CheckType.
Proof. solve_decision. Defined.

#[global] Instance Status_eq_dec : EqDecision Status.
Proof. solve_decision. Defined.

(** The dict a check returns. [details] is the list under the key
    ['missing_fields'], ['missing_signatures'], ['missing_clauses'] or
    ['issues'], whichever the check has. *)
Record Check := {
  check_name : string;
  check_type : CheckType;
  status : Status;
  details : list string;
  message : string;
  severity : option Severity
}.

(** The dict [check_compliance] returns. *)
Record ComplianceReport := {
  overall_status : OverallStatus;
  checks : list Check;
  critical_issues : nat;
  warnings : nat;
  suggestions : nat;
  missing_signatures : list string;
  missing_fields : list string;
  date_inconsistencies : list string;
  format_issues : list string;
  requires_review : bool
}.

(** *** The checks *)

(** The loop of [_get_nested_value] over the keys. *)
Fixpoint get_nested (v : value) (keys : list string) : value :=
  match keys with
  | [] => v
  | k :: keys' =>
      match v with
      | VDict d => get_nested (get d k) keys'
      | _ => VNone
      end
  end.

Definition _get_nested_value (data : list (string * value)) (key : string) : value :=
  get_nested (VDict data) (str_split "." key).

(** [value is None or (isinstance(value, str) and not value.strip())] *)
Definition is_blank (v : value) : bool :=
  match v with
  | VNone => true
  | VStr s => String.eqb (str_strip s) EmptyString
  | _ => false
  end.

Definition is_nil {A : Type} (l : list A) : bool :=
  match l with [] => true | _ => false end.

Definition _check_required_fields (required : list string)
    (data : list (string * value)) : Check :=
  let missing :=
    fold_left (fun missing field =>
                 let v := _get_nested_value data field in
                 if is_blank v then missing ++ [field] else missing)
              required [] in
  {| check_name := "Required Fields";
     check_type := REQUIRED_FIELD;
     status := if is_nil missing then PASS else FAIL;
     details := missing;
     message :=
       if is_nil missing then "All required fields present"
       else "Missing " +:+ pretty (length missing) +:+ " required fields: "
            +:+ str_join ", " missing;
     severity := if is_nil missing then None else Some CRITICAL |}.

(** [req == v] for a string [req] *)
Definition str_equals (req : string) (v : value) : bool :=
  match v with
  | VStr s => String.eqb req s
  | _ => false
  end.

Definition _check_signatures (required : list string) (signatures : value) : Check :=
  let signature_types :=
    match signatures with
    | VList l =>
        flat_map (fun sig =>
                    match sig with
                    | VDict d => [py_or (get d "type") (get d "signer_role")]
                    | _ => []
                    end) l
    | _ => []
    end in
  let missing :=
    List.filter (fun req => negb (existsb (str_equals req) signature_types)) required in
  {| check_name := "Signatures";
     check_type := SIGNATURE;
     status := if is_nil missing then PASS else FAIL;
     details := missing;
     message :=
       if is_nil missing then "All signatures present"
       else "Missing " +:+ pretty (length missing) +:+ " required signatures: "
            +:+ str_join ", " missing;
     severity := if is_nil missing then None else Some CRITICAL |}.

(** The name of the type of a value, for the messages of [TypeError]. *)
Definition type_name (v : value) : string :=
  match v with
  | VNone => "NoneType"
  | VBool _ => "bool"
  | VInt _ => "int"
  | VFloat _ => "float"
  | VStr _ => "str"
  | VList _ => "list"
  | VDict _ => "dict"
  | VDatetime _ => "datetime.datetime"
  end.

(** The items of [for x in v]; a string yields its characters and a dict
    its keys. *)
Definition iterate (v : value) : result (list value) :=
  match v with
  | VList l => Ok l
  | VStr s => Ok (map VStr (str_chars s))
  | VDict d => Ok (map (fun kv => VStr kv.1) d)
  | _ => Raise (TypeError ("'" +:+ type_name v +:+ "' object is not iterable"))
  end.

(** [' '.join(clauses)] *)
Definition join_clauses (clauses : value) : result string :=
  match iterate clauses with
  | Raise _ => Raise (TypeError "can only join an iterable")
  | Ok items =>
      strs ← fold_left
                (fun acc item =>
                   strs ← acc;
                   match item with
                   | VStr s => Ok (strs ++ [s])
                   | _ => Raise (TypeError
                                   ("sequence item " +:+ pretty (length strs)
                                    +:+ ": expected str instance, "
                                    +:+ type_name item +:+ " found"))
                   end)
                items (Ok []);
      mret (str_join " " strs)
  end.

Definition _check_required_clauses (required : list string) (clauses : value)
    : result Check :=
  joined ← join_clauses clauses;
  let clause_text := str_lower joined in
  let missing :=
    fold_left (fun missing clause =>
                 if negb (str_in (str_replace "_" " " (str_lower clause)) clause_text)
                 then missing ++ [clause] else missing)
              required [] in
  mret {| check_name := "Required Clauses";
          check_type := CLAUSE_CHECK;
          status := if is_nil missing then PASS else FAIL;
          details := missing;
          message :=
            if is_nil missing then "All required clauses present"
            else "Missing " +:+ pretty (length missing) +:+ " required clauses: "
                 +:+ str_join ", " missing;
          severity := if is_nil missing then None else Some HIGH |}.

(** One iteration of [for check in checks] of [_check_dates]. [now] is what
    [datetime.now()] returns during the call. *)
Definition date_step (now : datetime) (data : list (string * value))
    (issues : list string) (check : string) : list string :=
  if String.eqb check "closing_date_in_future" then
    match _parse_date (get data "closing_date") with
    | Some closing_date =>
        if dt_lt closing_date now
        then issues ++ ["Closing date is in the past"] else issues
    | None => issues
    end
  else if String.eqb check "contract_date_before_closing" then
    match _parse_date (get data "contract_date"),
          _parse_date (get data "closing_date") with
    | Some contract_date, Some closing_date =>
        if dt_ge contract_date closing_date
        then issues ++ ["Contract date must be before closing date"] else issues
    | _, _ => issues
    end
  else if String.eqb check "closing_date_reasonable" then
    match _parse_date (get data "closing_date") with
    | Some closing_date =>
        let days_until_closing := days_between closing_date now in
        if (days_until_closing <? 0)%Z
        then issues ++ ["Closing date is in the past"]
        else if (180 <? days_until_closing)%Z
        then issues ++ ["Closing date is more than 6 months away"]
        else issues
    | None => issues
    end
  else if String.eqb check "inspection_period_valid" then
    match _parse_date (get data "inspection_deadline"),
          _parse_date (get data "contract_date") with
    | Some inspection_deadline, Some contract_date =>
        let days := days_between inspection_deadline contract_date in
        if (days <? 1)%Z
        then issues ++ ["Inspection period is too short (< 1 day)"]
        else if (30 <? days)%Z
        then issues ++ ["Inspection period is unusually long (> 30 days)"]
        else issues
    | _, _ => issues
    end
  else if String.eqb check "application_date_valid" then
    match _parse_date (get data "application_date") with
    | Some app_date =>
        if dt_gt app_date now
        then issues ++ ["Application date is in the future"] else issues
    | None => issues
    end
  else if String.eqb check "effective_date_valid" then
    match _parse_date (get data "effective_date") with
    | Some effective_date =>
        let days_diff := Z.abs (days_between effective_date now) in
        if (90 <? days_diff)%Z
        then issues ++ ["Effective date is more than 90 days from today"]
        else issues
    | None => issues
    end
  else if String.eqb check "execution_date_valid" then
    match _parse_date (get data "execution_date") with
    | Some exec_date =>
        if dt_gt exec_date now
        then issues ++ ["Execution date is in the future"] else issues
    | None => issues
    end
  else issues.

Definition _check_dates (now : datetime) (checks : list string)
    (data : list (string * value)) : Check :=
  let issues := fold_left (date_step now data) checks [] in
  {| check_name := "Date Consistency";
     check_type := DATE_CHECK;
     status := if is_nil issues then PASS
               else if (length issues =? 1)%nat then WARNING else FAIL;
     details := issues;
     message := if is_nil issues then "All dates are consistent"
                else str_join "; " issues;
     severity := if (1 <? length issues)%nat then Some HIGH
                 else if is_nil issues then None else Some MEDIUM |}.


(** The value of an [Optional[float]] that is truthy: a float other than
    zero. *)
Definition nonzero (x : option Q) : option Q :=
  match x with
  | Some q => if Qeq_bool q 0 then None else Some q
  | None => None
  end.

(** One step of the sum over the fees: [total] so far, and whether it is
    still the [int] 0 the sum starts from. *)
Definition fee_step (acc : result (Q * bool)) (f : value) : result (Q * bool) :=
  '(total, is_int) ← acc;
  match f with
  | VDict d =>
      match _parse_amount (get_default d "amount" (VInt 0)) with
      | Some amount => Ok ((total + amount)%Q, false)
      | None =>
          Raise (TypeError
                   ("unsupported operand type(s) for +: '"
                    +:+ (if is_int : bool then "int" else "float")
                    +:+ "' and 'NoneType'"))
      end
  | _ => Ok (total, is_int)
  end.

(** [sum(self._parse_amount(f.get('amount', 0)) for f in fees
         if isinstance(f, dict))] *)
Definition total_of_fees (fees : value) : result Q :=
  items ← iterate fees;
  '(total, _) ← fold_left fee_step items (Ok (0%Q, true));
  mret total.

(** One iteration of [for check in checks] of [_check_amounts]. *)
Definition amount_step (data : list (string * value))
    (issues : list string) (check : string) : result (list string) :=
  if String.eqb check "loan_amount_less_than_price" then
    let loan_amount := _parse_amount (get data "loan_amount") in
    let sale_price :=
      _parse_amount (py_or (get data "sale_price") (get data "purchase_price")) in
    match nonzero loan_amount, nonzero sale_price with
    | Some loan_amount, Some sale_price =>
        if Qltb sale_price loan_amount
        then Ok (issues ++
                   ["Loan amount ($" +:+ format_fixed true 2 loan_amount
                    +:+ ") exceeds sale price ($"
                    +:+ format_fixed true 2 sale_price +:+ ")"])
        else Ok issues
    | _, _ => Ok issues
    end
  else if String.eqb check "fees_reasonable" then
    total_fees ← total_of_fees (get_default data "fees" (VList []));
    let sale_price := _parse_amount (get data "sale_price") in
    match nonzero sale_price with
    | Some sale_price =>
        if Qltb (sale_price * (1 # 10)) total_fees
        then Ok (issues ++
                   ["Total fees ($" +:+ format_fixed true 2 total_fees
                    +:+ ") exceed 10% of sale price"])
        else Ok issues
    | None => Ok issues
    end
  else if String.eqb check "earnest_money_reasonable" then
    let earnest := _parse_amount (get data "earnest_money") in
    let purchase_price := _parse_amount (get data "purchase_price") in
    match nonzero earnest, nonzero purchase_price with
    | Some earnest, Some purchase_price =>
        let percentage := ((earnest / purchase_price) * 100)%Q in
        if Qltb percentage (5 # 10)
        then Ok (issues ++
                   ["Earnest money (" +:+ format_fixed false 1 percentage
                    +:+ "%) is very low (< 0.5%)"])
        else if Qltb 10 percentage
        then Ok (issues ++
                   ["Earnest money (" +:+ format_fixed false 1 percentage
                    +:+ "%) is very high (> 10%)"])
        else Ok issues
    | _, _ => Ok issues
    end
  else if String.eqb check "purchase_price_positive" then
    let price := _parse_amount (get data "purchase_price") in
    match nonzero price with
    | Some price =>
        if Qle_bool price 0
        then Ok (issues ++ ["Purchase price must be positive"])
        else Ok issues
    | None => Ok issues
    end
  else if String.eqb check "loan_amount_positive" then
    let loan := _parse_amount (get data "loan_amount") in
    match nonzero loan with
    | Some loan =>
        if Qle_bool loan 0
        then Ok (issues ++ ["Loan amount must be positive"])
        else Ok issues
    | None => Ok issues
    end
  else if String.eqb check "income_sufficient" then
    let income := _parse_amount (get data "income") in
    let loan_amount := _parse_amount (get data "loan_amount") in
    match nonzero income, nonzero loan_amount with
    | Some income, Some loan_amount =>
        let estimated_payment := (loan_amount * (5 # 1000))%Q in
        let monthly_income :=
          if Qltb 100000 income then (income / 12)%Q else income in
        if Qltb (monthly_income * (43 # 100)) estimated_payment
        then Ok (issues ++ ["Debt-to-income ratio may be too high (> 43%)"])
        else Ok issues
    | _, _ => Ok issues
    end
  else if String.eqb check "coverage_amount_reasonable" then
    let coverage := _parse_amount (get data "coverage_amount") in
    let property_value :=
      _parse_amount (py_or (get data "property_value") (get data "purchase_price")) in
    match nonzero coverage, nonzero property_value with
    | Some coverage, Some property_value =>
        if Qltb coverage property_value
        then Ok (issues ++
                   ["Coverage amount ($" +:+ format_fixed true 2 coverage
                    +:+ ") is less than property value ($"
                    +:+ format_fixed true 2 property_value +:+ ")"])
        else Ok issues
    | _, _ => Ok issues
    end
  else Ok issues.

Definition _check_amounts (checks : list string) (data : list (string * value))
    : result Check :=
  issues ← fold_left (fun acc check => issues ← acc; amount_step data issues check)
                     checks (Ok []);
  mret {| check_name := "Amount Validation";
          check_type := AMOUNT_CHECK;
          status := if is_nil issues then PASS else WARNING;
          details := issues;
          message := if is_nil issues then "All amounts are reasonable"
                     else str_join "; " issues;
          severity := if is_nil issues then None else Some MEDIUM |}.

(** The string a regular expression is given; any other value raises. *)
Definition as_string (v : value) : result string :=
  match v with
  | VStr s => Ok s
  | _ => Raise (TypeError ("expected string or bytes-like object, got '"
                           +:+ type_name v +:+ "'"))
  end.

(** [len(v)] *)
Definition len (v : value) : result nat :=
  match v with
  | VStr s => Ok (String.length s)
  | VList l => Ok (length l)
  | VDict d => Ok (length d)
  | _ => Raise (TypeError ("object of type '" +:+ type_name v +:+ "' has no len()"))
  end.

(** One iteration of [for check in checks] of [_check_format]. *)
Definition format_step (data : list (string * value))
    (issues : list string) (check : string) : result (list string) :=
  if String.eqb check "email_format" then
    let email := py_or (get data "email") (get data "applicant_email") in
    if truthy email then
      text ← as_string email;
      if negb (_is_valid_email text)
      then Ok (issues ++ ["Invalid email format: " +:+ text])
      else Ok issues
    else Ok issues
  else if String.eqb check "phone_format" then
    let phone := py_or (get data "phone") (get data "applicant_phone") in
    if truthy phone then
      text ← as_string phone;
      if negb (_is_valid_phone text)
      then Ok (issues ++ ["Invalid phone format: " +:+ text])
      else Ok issues
    else Ok issues
  else if String.eqb check "ssn_format" then
    let ssn := get data "ssn" in
    if truthy ssn then
      text ← as_string ssn;
      if negb (_is_valid_ssn text)
      then Ok (issues ++ ["Invalid SSN format"])
      else Ok issues
    else Ok issues
  else if String.eqb check "legal_description_format" then
    let legal_desc := get data "legal_description" in
    if truthy legal_desc then
      n ← len legal_desc;
      if (n <? 20)%nat
      then Ok (issues ++ ["Legal description appears incomplete"])
      else Ok issues
    else Ok issues
  else Ok issues.

Definition _check_format (checks : list string) (data : list (string * value))
    : result Check :=
  issues ← fold_left (fun acc check => issues ← acc; format_step data issues check)
                     checks (Ok []);
  mret {| check_name := "Format Validation";
          check_type := FORMAT_CHECK;
          status := if is_nil issues then PASS else WARNING;
          details := issues;
          message := if is_nil issues then "All formats are valid"
                     else str_join "; " issues;
          severity := if is_nil issues then None else Some LOW |}.

(** *** [check_compliance]

    [now] is the time of the call. The argument [transaction_type] is not
    used by the code and is left out; so is what goes to [logger]. *)
Definition check_compliance (now : datetime) (category : string)
    (extracted_data : list (string * value)) : result ComplianceReport :=
  let rules := default ∅ (rules !! category) in
  let checks := [] in
  let critical_issues := 0 in
  let warnings := 0 in
  let suggestions := 0 in
  (* required fields *)
  let field_check :=
    _check_required_fields (default [] (rules !! "required_fields")) extracted_data in
  let checks := checks ++ [field_check] in
  let critical_issues :=
    if decide (status field_check = FAIL) then critical_issues + 1
    else critical_issues in
  let warnings :=
    if decide (status field_check = FAIL) then warnings
    else if decide (status field_check = WARNING) then warnings + 1
    else warnings in
  (* signatures *)
  let signature_check :=
    _check_signatures (default [] (rules !! "required_signatures"))
                      (get_default extracted_data "signatures" (VList [])) in
  let checks := checks ++ [signature_check] in
  let critical_issues :=
    if decide (status signature_check = FAIL) then critical_issues + 1
    else critical_issues in
  (* required clauses *)
  '(checks, critical_issues) ←
    match rules !! "required_clauses" with
    | Some required_clauses =>
        clause_check ←
          _check_required_clauses required_clauses
            (get_default extracted_data "clauses" (VList []));
        mret (checks ++ [clause_check],
              if decide (status clause_check = FAIL) then critical_issues + 1
              else critical_issues)
    | None => mret (checks, critical_issues)
    end;
  (* dates *)
  let date_check :=
    _check_dates now (default [] (rules !! "date_checks")) extracted_data in
  let checks := checks ++ [date_check] in
  let critical_issues :=
    if decide (status date_check = FAIL) then critical_issues + 1
    else critical_issues in
  let warnings :=
    if decide (status date_check = FAIL) then warnings
    else if decide (status date_check = WARNING) then warnings + 1
    else warnings in
  (* amounts *)
  amount_check ←
    _check_amounts (default [] (rules !! "amount_checks")) extracted_data;
  let checks := checks ++ [amount_check] in
  let warnings :=
    if decide (status amount_check = WARNING) then warnings + 1 else warnings in
  (* format *)
  format_check ←
    _check_format (default [] (rules !! "format_checks")) extracted_data;
  let checks := checks ++ [format_check] in
  let suggestions :=
    if decide (status format_check = WARNING) then suggestions + 1
    else suggestions in
  let overall_status :=
    if (0 <? critical_issues)%nat then NON_COMPLIANT
    else if (2 <? warnings)%nat then PARTIALLY_COMPLIANT
    else if (0 <? warnings)%nat then NEEDS_REVIEW
    else COMPLIANT in
  mret {| overall_status := overall_status;
          checks := checks;
          critical_issues := critical_issues;
          warnings := warnings;
          suggestions := suggestions;
          missing_signatures := details signature_check;
          missing_fields := details field_check;
          date_inconsistencies := details date_check;
          format_issues := details format_check;
          requires_review := (0 <? critical_issues)%nat || (2 <? warnings)%nat |}.


(** *** The aggregation, as stated and as computed *)

(** How many of the checks of the given types have the given status. *)
Definition count_status (types : list CheckType) (st : Status) (cs : list Check)
    : nat :=
  length (List.filter
            (fun c => bool_decide (check_type c ∈ types)
                      && bool_decide (status c = st))
            cs).

Definition status_for (critical_issues warnings : nat) : OverallStatus :=
  if (0 <? critical_issues)%nat then NON_COMPLIANT
  else if (2 <? warnings)%nat then PARTIALLY_COMPLIANT
  else if (0 <? warnings)%nat then NEEDS_REVIEW
  else COMPLIANT.

(** The aggregation as the specification states it: the failures of the
    field, signature and clause checks are critical, and every issue of the
    format check is a suggestion. *)
Definition stated_aggregation (r : ComplianceReport) : Prop :=
  critical_issues r
    = count_status [REQUIRED_FIELD; SIGNATURE; CLAUSE_CHECK] FAIL (checks r) /\
  warnings r = count_status [DATE_CHECK; AMOUNT_CHECK] WARNING (checks r) /\
  suggestions r = length (format_issues r) /\
  overall_status r = status_for (critical_issues r) (warnings r) /\
  (requires_review r = true <-> 0 < critical_issues r \/ 2 < warnings r).

(** The aggregation as the code computes it: a failed date check is
    critical too, and a format check with issues is one suggestion. *)
Definition computed_aggregation (r : ComplianceReport) : Prop :=
  critical_issues r
    = count_status [REQUIRED_FIELD; SIGNATURE; CLAUSE_CHECK; DATE_CHECK] FAIL
        (checks r) /\
  warnings r = count_status [DATE_CHECK; AMOUNT_CHECK] WARNING (checks r) /\
  suggestions r = count_status [FORMAT_CHECK] WARNING (checks r) /\
  overall_status r = status_for (critical_issues r) (warnings r) /\
  (requires_review r = true <-> 0 < critical_issues r \/ 2 < warnings r).

(** 1 if the check has the status, else 0. *)
Definition bump (c : Check) (st : Status) : nat :=
  if decide (status c = st) then 1 else 0.

(** The six kinds of check, in the order of the specification. *)
Definition six_kinds : list CheckType :=
  [REQUIRED_FIELD; SIGNATURE; CLAUSE_CHECK; DATE_CHECK; AMOUNT_CHECK; FORMAT_CHECK].

(** The kinds of check the code runs for a set of rules. *)
Definition kinds_run (rule_set : gmap string (list string)) : list CheckType :=
  [REQUIRED_FIELD; SIGNATURE]
    ++ match rule_set !! "required_clauses" with
       | Some _ => [CLAUSE_CHECK]
       | None => []
       end
    ++ [DATE_CHECK; AMOUNT_CHECK; FORMAT_CHECK].

(** *** Data the checks can read

    The checks raise [TypeError] on data of other types than these: the
    clauses are strings, every fee that is a dict has an amount that parses,
    the contact fields are strings or empty, and the legal description has a
    length or is empty. *)

Definition is_string (v : value) : bool :=
  match v with VStr _ => true | _ => false end.

Definition joinable (clauses : value) : bool :=
  match clauses with
  | VList l => forallb is_string l
  | VStr _ | VDict _ => true
  | _ => false
  end.

Definition fee_parses (f : value) : bool :=
  match f with
  | VDict d =>
      match _parse_amount (get_default d "amount" (VInt 0)) with
      | Some _ => true
      | None => false
      end
  | _ => true
  end.

Definition summable (fees : value) : bool :=
  match fees with
  | VList l => forallb fee_parses l
  | VStr _ | VDict _ => true
  | _ => false
  end.

Definition text_or_empty (v : value) : bool := negb (truthy v) || is_string v.

Definition sized_or_empty (v : value) : bool :=
  negb (truthy v)
  || match v with VStr _ | VList _ | VDict _ => true | _ => false end.

Definition readable (data : list (string * value)) : bool :=
  joinable (get_default data "clauses" (VList []))
  && summable (get_default data "fees" (VList []))
  && text_or_empty (py_or (get data "email") (get data "applicant_email"))
  && text_or_empty (py_or (get data "phone") (get data "applicant_phone"))
  && text_or_empty (get data "ssn")
  && sized_or_empty (get data "legal_description").

(** *** Data for the examples *)

Definition example_now : datetime :=
  {| year := 2024; month := 6; day := 1;
     hour := 12; minute := 0; second := 0; microsecond := 0 |}.

(** A purchase agreement with every required field, signature and clause,
    whose closing date has passed and whose inspection deadline is the
    contract date. *)
Definition example_late_agreement : list (string * value) :=
  [ ("buyer_name", VStr "John Doe");
    ("seller_name", VStr "Jane Smith");
    ("property_address", VStr "123 Main St");
    ("purchase_price", VStr "$450,000.00");
    ("earnest_money", VStr "5000");
    ("closing_date", VStr "2024-05-01");
    ("inspection_period", VStr "14 days");
    ("contract_date", VStr "2024-04-01");
    ("inspection_deadline", VStr "04/01/2024");
    ("clauses", VList [VStr "Contingencies: none";
                       VStr "Inspection period of 14 days";
                       VStr "Financing terms: cash"]);
    ("signatures", VList [VDict [("type", VStr "buyer"); ("date", VStr "2024-04-01")];
                          VDict [("signer_role", VStr "seller")]]) ].

(** A settlement statement whose e-mail address and phone number are both
    malformed. *)
Definition example_bad_contacts : list (string * value) :=
  [ ("buyer_name", VStr "John Doe");
    ("email", VStr "invalid.email");
    ("phone", VStr "12345") ].

(** A purchase agreement whose price is zero, and a loan application whose
    amount is zero. *)
Definition example_zero_price : list (string * value) :=
  [ ("purchase_price", VStr "$0.00"); ("earnest_money", VInt 5000) ].

Definition example_zero_loan : list (string * value) :=
  [ ("loan_amount", VInt 0); ("income", VFloat 5000) ].

(** *** Who has signed *)

(** Some dict of the list [signatures] gives [role] as its ['type'] or,
    where that is missing or empty, as its ['signer_role']. *)
Definition signed_as (role : string) (signatures : value) : Prop :=
  exists l d, signatures = VList l /\ VDict d ∈ l /\
              py_or (get d "type") (get d "signer_role") = VStr role.

(** *** Data the checks of a set of rules can read

    [readable], check by check: only the checks that the rules name read
    the data. *)
Definition readable_for (rule_set : gmap string (list string))
    (data : list (string * value)) : bool :=
  let amount_checks := default [] (rule_set !! "amount_checks") in
  let format_checks := default [] (rule_set !! "format_checks") in
  match rule_set !! "required_clauses" with
  | Some _ => joinable (get_default data "clauses" (VList []))
  | None => true
  end
  && (negb (bool_decide ("fees_reasonable" ∈ amount_checks))
      || summable (get_default data "fees" (VList [])))
  && (negb (bool_decide ("email_format" ∈ format_checks))
      || text_or_empty (py_or (get data "email") (get data "applicant_email")))
  && (negb (bool_decide ("phone_format" ∈ format_checks))
      || text_or_empty (py_or (get data "phone") (get data "applicant_phone")))
  && (negb (bool_decide ("ssn_format" ∈ format_checks))
      || text_or_empty (get data "ssn"))
  && (negb (bool_decide ("legal_description_format" ∈ format_checks))
      || sized_or_empty (get data "legal_description")).

(** What one amount check and one format check need to read. *)
Definition amount_reads (data : list (string * value)) (check : string) : bool :=
  negb (String.eqb check "fees_reasonable")
  || summable (get_default data "fees" (VList [])).

Definition format_reads (data : list (string * value)) (check : string) : bool :=
  (negb (String.eqb check "email_format")
   || text_or_empty (py_or (get data "email") (get data "applicant_email")))
  && (negb (String.eqb check "phone_format")
      || text_or_empty (py_or (get data "phone") (get data "applicant_phone")))
  && (negb (String.eqb check "ssn_format") || text_or_empty (get data "ssn"))
  && (negb (String.eqb check "legal_description_format")
      || sized_or_empty (get data "legal_description")).

(** *** Strings of one class, and dates written out *)

(** Every character of [s] is in the class. *)
Fixpoint all_chars (cls : ascii -> bool) (s : string) : bool :=
  match s with
  | EmptyString => true
  | String c s' => cls c && all_chars cls s'
  end.

(** A key without a dot. *)
Definition no_dot (key : string) : bool :=
  all_chars (fun c => negb (Ascii.eqb c ".")) key.

(** What [$] lets follow: nothing, or one line feed. *)
Definition ends_line (tail : string) : Prop :=
  tail = EmptyString \/ tail = ChangeDetector.newline.

(** The classes [[a-zA-Z0-9._%+-]] and [[a-zA-Z0-9.-]] of [_is_valid_email]. *)
Definition email_local_char (c : ascii) : bool :=
  isalpha c || isdigit c || is_char "." c || is_char "_" c || is_char "%" c
  || is_char "+" c || is_char "-" c.

Definition email_domain_char (c : ascii) : bool :=
  isalpha c || isdigit c || is_char "." c || is_char "-" c.

(** The characters removed before a phone number is matched. *)
Definition phone_separator (c : ascii) : bool :=
  is_char "-" c || isspace c || is_char "(" c || is_char ")" c || is_char "." c.

(** The groups [strptime] starts from. *)
Definition no_groups : groups :=
  {| gY := 1900; gm := 1; gd := 1; gH := 0; gM := 0; gS := 0 |}.

(** The digit [n], for [0 <= n <= 9]. *)
Definition digit_char (n : Z) : ascii := ascii_of_N (48 + Z.to_N n).

(** ['%0<width>d' % n] for [0 <= n < 10^width] *)
Fixpoint zero_padded (width : nat) (n : Z) : string :=
  match width with
  | O => EmptyString
  | S w => String (digit_char ((n / 10 ^ Z.of_nat w) mod 10)) (zero_padded w n)
  end.

(** ['%04d-%02d-%02d' % (y, m, d)], the ISO form of a date *)
Definition iso_format (y m d : Z) : string :=
  zero_padded 4 y +:+ "-" +:+ zero_padded 2 m +:+ "-" +:+ zero_padded 2 d.

(** ['%02d/%02d/%04d' % (a, b, y)] *)
Definition slash_format (a b y : Z) : string :=
  zero_padded 2 a +:+ "/" +:+ zero_padded 2 b +:+ "/" +:+ zero_padded 4 y.

(** The date at midnight. *)
Definition midnight (y m d : Z) : datetime :=
  {| year := y; month := m; day := d;
     hour := 0; minute := 0; second := 0; microsecond := 0 |}.

End ComplianceChecker.

(** ** [intelligence_router.py] *)

Module IntelligenceRouter.
Import Py ComplianceChecker.

(** What an endpoint answers: the body of a 200, or the [detail] of the
    [HTTPException] it raises with status 500. *)
Inductive response (A : Type) :=
| HTTP_200 (body : A)
| HTTP_500 (detail : string).

Arguments HTTP_200 {A} body.
Arguments HTTP_500 {A} detail.

(** [POST /compliance]: the request's [category] and [data] go to
    [check_compliance] as they are; the report becomes the response, field by
    field; any exception becomes a 500. *)
Definition check_compliance (now : datetime) (category : string)
    (data : list (string * value)) : response ComplianceReport :=
  match ComplianceChecker.check_compliance now category data with
  | Ok result => HTTP_200 result
  | Raise e => HTTP_500 ("Compliance check failed: " +:+ exn_str e)
  end.

End IntelligenceRouter.

(** * Properties *)

(** ** Strings and rationals *)

Module PyFacts.
Import Py.

Lemma Qltb_lt (a b : Q) : Qltb a b = true <-> (a < b)%Q.
Proof.
  unfold Qltb. rewrite negb_true_iff.
  split.
  - intros H. apply Qnot_le_lt. intros Hle.
    apply Qle_bool_iff in Hle. congruence.
  - intros H. destruct (Qle_bool b a) eqn:E; [|reflexivity].
    apply Qle_bool_iff in E. lra.
Qed.

Lemma Qltb_ge (a b : Q) : Qltb a b = false <-> (b <= a)%Q.
Proof.
  unfold Qltb. rewrite negb_false_iff. apply Qle_bool_iff.
Qed.

Lemma append_cons (c : ascii) (s t : string) :
  String c s +:+ t = String c (s +:+ t).
Proof. reflexivity. Qed.

Lemma prefix_app (p s : string) :
  String.prefix p s = true <-> exists post, s = p +:+ post.
Proof.
  revert s. induction p as [|c p IH]; intros s; simpl.
  - destruct s; split; eauto.
  - destruct s as [|c' s]; simpl.
    + split; [discriminate|]. intros [post H]. discriminate.
    + destruct (ascii_dec c c') as [->|Hne].
      * rewrite IH. split; intros [post H]; exists post;
          rewrite ?append_cons in *; congruence.
      * split; [discriminate|]. intros [post H].
        rewrite append_cons in H. congruence.
Qed.

Lemma str_in_nil (sub : string) : str_in sub EmptyString = String.prefix sub EmptyString.
Proof. unfold str_in. apply orb_false_r. Qed.

Lemma str_in_cons (sub : string) (c : ascii) (s : string) :
  str_in sub (String c s) = String.prefix sub (String c s) || str_in sub s.
Proof. reflexivity. Qed.

(** [sub in s] holds exactly when [s] is [pre + sub + post]. *)
Lemma str_in_app (sub s : string) :
  str_in sub s = true <-> exists pre post, s = pre +:+ sub +:+ post.
Proof.
  induction s as [|c s IH].
  - rewrite str_in_nil, prefix_app. split.
    + intros [post H]. exists EmptyString, post. exact H.
    + intros [pre [post H]]. destruct pre; [eauto|].
      rewrite append_cons in H. discriminate.
  - rewrite str_in_cons, orb_true_iff, prefix_app, IH. split.
    + intros [[post H]|[pre [post H]]].
      * exists EmptyString, post. exact H.
      * exists (String c pre), post. rewrite append_cons. congruence.
    + intros [pre [post H]]. destruct pre as [|c' pre].
      * left. eauto.
      * right. rewrite append_cons in H. exists pre, post. congruence.
Qed.

Lemma list_remove_perm (x : string) (l : list string) :
  x ∈ l -> l ≡ₚ x :: list_remove x l.
Proof.
  induction l as [|y l IH]; intros Hin.
  - inversion Hin.
  - simpl. destruct (decide (x = y)) as [->|Hne]; [reflexivity|].
    apply elem_of_cons in Hin as [?|Hin]; [congruence|].
    rewrite (IH Hin) at 1. apply Permutation_swap.
Qed.

Lemma list_remove_sublist (x : string) (l : list string) :
  list_remove x l `sublist_of` l.
Proof.
  induction l as [|y l IH]; simpl; [constructor|].
  destruct (decide (x = y)).
  - by apply sublist_cons.
  - by apply sublist_skip.
Qed.

End PyFacts.

(** ** [detect_text_changes] *)

Module ChangeDetectorFacts.
Import Py PyFacts ChangeDetector.

Lemma enumerate_from_app {A : Type} (i : nat) (l l' : list A) :
  enumerate_from i (l ++ l') =
  enumerate_from i l ++ enumerate_from (i + length l) l'.
Proof.
  revert i. induction l as [|x l IH]; intros i; simpl.
  - f_equal. lia.
  - rewrite IH, Nat.add_succ_r. reflexivity.
Qed.

Section DifflibFacts.

Variable compare : list string -> list string -> list string.
Variable ratio : string -> string -> Q.

(** *** The inner loop picks the best unmatched addition *)

Lemma lookup_snoc_inv (l : list string) (x : string) (k : nat) (b : string) :
  (l ++ [x]) !! k = Some b ->
  l !! k = Some b \/ (k = length l /\ b = x).
Proof.
  intros H. destruct (decide (k < length l)) as [Hlt|Hge].
  - left. by rewrite lookup_app_l in H.
  - right. rewrite lookup_app_r in H by lia.
    destruct (k - length l) as [|n] eqn:E; simpl in H; [|by destruct n].
    split; [lia|congruence].
Qed.

Lemma best_unmatched_snoc d seen used j a x :
  best_unmatched ratio d seen used j a ->
  (length seen ∈ used \/ (ratio d x <= ratio d a)%Q) ->
  best_unmatched ratio d (seen ++ [x]) used j a.
Proof.
  intros (Hj & Hused & Hmax & Hfirst) Hx.
  assert (j < length seen) by (by eapply lookup_lt_Some).
  split; [by rewrite lookup_app_l|]. split; [done|]. split.
  - intros k b Hk Hk'. apply lookup_snoc_inv in Hk as [Hk|[-> ->]].
    + by eapply Hmax.
    + by destruct Hx.
  - intros k b Hk Hk' Hlt. apply lookup_snoc_inv in Hk as [Hk|[-> ->]].
    + by eapply Hfirst.
    + lia.
Qed.

Lemma best_step_invariant d used seen x st :
  best_invariant ratio d used seen st ->
  best_invariant ratio d used (seen ++ [x])
    (best_step ratio d used st (length seen, x)).
Proof.
  intros Hinv. destruct st as [best_match best_similarity].
  unfold best_step. destruct (decide (length seen ∈ used)) as [Hin|Hnin].
  - destruct best_match as [j|]; simpl in *.
    + destruct Hinv as (a & Hbest & Hs & Hthr). exists a.
      split; [|done]. apply best_unmatched_snoc; [done|by left].
    + destruct Hinv as [Hs Hall]. split; [done|].
      intros k b Hk Hk'. apply lookup_snoc_inv in Hk as [Hk|[-> ->]]; [eauto|done].
  - unfold _calculate_similarity.
    destruct (Qltb (6 # 10) (ratio d x)) eqn:Ethr;
      destruct (Qltb best_similarity (ratio d x)) eqn:Ebest; simpl;
      rewrite ?Qltb_lt, ?Qltb_ge in *.
    + (* a new best match *)
      exists x. split; [|done].
      assert (Hprev : ∀ k b, seen !! k = Some b → k ∉ used →
                             (ratio d b < ratio d x)%Q).
      { intros k b Hk Hk'. destruct best_match as [j|]; simpl in Hinv.
        - destruct Hinv as (a & (_ & _ & Hmax & _) & -> & _).
          specialize (Hmax k b Hk Hk'). lra.
        - destruct Hinv as [_ Hall]. specialize (Hall k b Hk Hk'). lra. }
      split; [by rewrite lookup_app_r, Nat.sub_diag by lia|].
      split; [done|]. split.
      * intros k b Hk Hk'. apply lookup_snoc_inv in Hk as [Hk|[-> ->]].
        -- apply Qlt_le_weak. eauto.
        -- apply Qle_refl.
      * intros k b Hk Hk' Hlt. apply lookup_snoc_inv in Hk as [Hk|[-> ->]].
        -- eauto.
        -- lia.
    + (* above the threshold, but not above the best so far *)
      destruct best_match as [j|]; simpl in *.
      * destruct Hinv as (a & Hbest & -> & Hthr). exists a.
        split; [|done]. apply best_unmatched_snoc; [done|right; lra].
      * destruct Hinv as [-> _]. lra.
    + destruct best_match as [j|]; simpl in *.
      * destruct Hinv as (a & Hbest & -> & Hthr). lra.
      * destruct Hinv as [-> Hall]. split; [done|].
        intros k b Hk Hk'. apply lookup_snoc_inv in Hk as [Hk|[-> ->]]; eauto.
    + destruct best_match as [j|]; simpl in *.
      * destruct Hinv as (a & Hbest & -> & Hthr). exists a.
        split; [|done]. apply best_unmatched_snoc; [done|right; lra].
      * destruct Hinv as [-> Hall]. split; [done|].
        intros k b Hk Hk'. apply lookup_snoc_inv in Hk as [Hk|[-> ->]]; eauto.
Qed.

Lemma best_match_for_invariant d used additions :
  best_invariant ratio d used additions (best_match_for ratio d used additions).
Proof.
  unfold best_match_for, enumerate.
  induction additions as [|x seen IH] using rev_ind.
  - simpl. split; [done|]. intros k b Hk. by rewrite lookup_nil in Hk.
  - rewrite enumerate_from_app, fold_left_app. simpl.
    by apply best_step_invariant.
Qed.


(** *** The outer loop follows the specification's pairing *)

Lemma pair_loop_pairing additions ds i ms0 ud ua :
  exists ms,
    (fold_left (pair_step ratio additions) (enumerate_from i ds) (ms0, ud, ua)).1.1
      = ms0 ++ ms
    /\ pairing ratio additions ua ds ms.
Proof.
  revert i ms0 ud ua. induction ds as [|d ds IH]; intros i ms0 ud ua; simpl.
  - exists []. split; [by rewrite app_nil_r|constructor].
  - pose proof (best_match_for_invariant d ua additions) as Hinv.
    destruct (best_match_for ratio d ua additions) as [[j|] s]; simpl in Hinv.
    + destruct Hinv as (a & Hbest & -> & Hthr).
      pose proof Hbest as (Hj & _). rewrite Hj.
      set (m := {| old := d; new := a; similarity := round (ratio d a) 3 |}).
      destruct (IH (S i) (ms0 ++ [m]) ({[i]} ∪ ud) ({[j]} ∪ ua))
        as (ms & Heq & Hp).
      exists (m :: ms).
      split; [rewrite Heq, <- app_assoc; reflexivity|].
      by apply (pairing_pair ratio additions ua d ds j a ms).
    + destruct Hinv as [_ Hall].
      destruct (IH (S i) ms0 ud ua) as (ms & Heq & Hp). exists ms.
      split; [exact Heq|]. by apply pairing_skip.
Qed.

Lemma detect_modifications_pairing deletions additions :
  pairing ratio additions ∅ deletions
    (_detect_modifications ratio deletions additions).
Proof.
  unfold _detect_modifications, enumerate.
  destruct (pair_loop_pairing additions deletions 0 [] ∅ ∅) as (ms & -> & Hp).
  exact Hp.
Qed.

Lemma pairing_threshold additions used ds ms :
  pairing ratio additions used ds ms ->
  Forall (fun m => ((6 # 10) < ratio (old m) (new m))%Q) ms.
Proof. induction 1; auto. Qed.

Lemma pairing_olds additions used ds ms :
  pairing ratio additions used ds ms -> map old ms `sublist_of` ds.
Proof.
  induction 1; simpl.
  - constructor.
  - by apply sublist_skip.
  - by apply sublist_cons.
Qed.

Lemma unmatched_from_ext i used used' additions :
  (forall k, i <= k -> k ∈ used <-> k ∈ used') ->
  unmatched_from i used additions = unmatched_from i used' additions.
Proof.
  revert i. induction additions as [|a rest IH]; intros i Hext; simpl; [done|].
  rewrite (IH (S i)) by (intros k Hk; apply Hext; lia).
  destruct (decide (i ∈ used)) as [Hi|Hi], (decide (i ∈ used')) as [Hi'|Hi'];
    try done; exfalso; apply (Hext i) in Hi || apply (Hext i) in Hi'; auto.
Qed.

Lemma unmatched_from_empty i additions : unmatched_from i ∅ additions = additions.
Proof.
  revert i. induction additions as [|a rest IH]; intros i; simpl; [done|].
  destruct (decide (i ∈ (∅ : gset nat))) as [Hi|_]; [set_solver|]. by rewrite IH.
Qed.

(** Matching the addition at index [i + j] takes exactly that addition out
    of the unmatched ones. *)
Lemma unmatched_from_pick i j used additions a :
  additions !! j = Some a -> i + j ∉ used ->
  unmatched_from i used additions
    ≡ₚ a :: unmatched_from i ({[ i + j ]} ∪ used) additions.
Proof.
  revert i j. induction additions as [|x rest IH]; intros i j Hj Hnin.
  - by rewrite lookup_nil in Hj.
  - destruct j as [|j]; simpl in *.
    + rewrite Nat.add_0_r in *. injection Hj as ->.
      destruct (decide (i ∈ used)) as [|_]; [done|].
      destruct (decide (i ∈ {[i]} ∪ used)) as [_|]; [|set_solver].
      rewrite (unmatched_from_ext (S i) used ({[i]} ∪ used)); [done|].
      intros k Hk. set_unfold. split; [auto|]. intros [?|?]; [lia|done].
    + replace (i + S j) with (S i + j) in * by lia.
      specialize (IH (S i) j Hj Hnin).
      destruct (decide (i ∈ used)) as [Hi|Hi];
        destruct (decide (i ∈ {[S i + j]} ∪ used)) as [Hi'|Hi'].
      * exact IH.
      * exfalso. apply Hi'. set_solver.
      * exfalso. apply elem_of_union in Hi' as [Hi'|Hi']; [|done].
        apply elem_of_singleton in Hi'. lia.
      * rewrite IH. apply Permutation_swap.
Qed.

Lemma pairing_news additions used ds ms :
  pairing ratio additions used ds ms ->
  map new ms ⊆+ unmatched_from 0 used additions.
Proof.
  induction 1 as [used|used d ds j a ms (Hj & Hnin & _) _ _ IH|]; simpl.
  - apply submseteq_nil_l.
  - rewrite (unmatched_from_pick 0 j used additions a Hj Hnin).
    by apply submseteq_skip.
  - done.
Qed.

(** *** Removing the matched lines *)

Lemma remove_matched_loop ms ds adds :
  map old ms ⊆+ ds -> map new ms ⊆+ adds ->
  let st := fold_left remove_matched ms (ds, adds) in
  ds ≡ₚ st.1 ++ map old ms /\ adds ≡ₚ st.2 ++ map new ms.
Proof.
  revert ds adds. induction ms as [|m ms IH]; intros ds adds Hd Ha; simpl.
  - by rewrite !app_nil_r.
  - assert (Hind : old m ∈ ds).
    { eapply elem_of_submseteq; [|exact Hd]. simpl. left. }
    assert (Hina : new m ∈ adds).
    { eapply elem_of_submseteq; [|exact Ha]. simpl. left. }
    destruct (decide (old m ∈ ds)) as [_|]; [|done].
    destruct (decide (new m ∈ adds)) as [_|]; [|done].
    pose proof (list_remove_perm _ _ Hind) as Hpd.
    pose proof (list_remove_perm _ _ Hina) as Hpa.
    simpl in Hd, Ha. rewrite Hpd in Hd. rewrite Hpa in Ha.
    apply (submseteq_app_inv_l _ _ [old m]) in Hd.
    apply (submseteq_app_inv_l _ _ [new m]) in Ha.
    destruct (IH _ _ Hd Ha) as [IHd IHa]. split.
    + rewrite Hpd at 1. rewrite IHd at 1. by rewrite Permutation_middle.
    + rewrite Hpa at 1. rewrite IHa at 1. by rewrite Permutation_middle.
Qed.


(** The lines that remain keep their order. *)
Lemma remove_matched_sublist ms ds adds :
  let st := fold_left remove_matched ms (ds, adds) in
  st.1 `sublist_of` ds /\ st.2 `sublist_of` adds.
Proof.
  revert ds adds. induction ms as [|m ms IH]; intros ds adds; simpl; [done|].
  destruct (decide (old m ∈ ds)), (decide (new m ∈ adds));
    match goal with
    | |- context [fold_left remove_matched ms (?d, ?a)] =>
        destruct (IH d a) as [Hd Ha]
    end;
    split; (etrans; [eassumption|]); done || apply list_remove_sublist.
Qed.

(** *** The pairing of [_detect_modifications] *)

Lemma detect_modifications_single d a :
  _detect_modifications ratio [d] [a] =
  if Qltb (6 # 10) (ratio d a)
  then [ {| old := d; new := a; similarity := round (ratio d a) 3 |} ]
  else [].
Proof.
  unfold _detect_modifications, enumerate, best_match_for, enumerate. simpl.
  unfold best_match_for, enumerate. simpl.
  destruct (decide (0 ∈ (∅ : gset nat))) as [Hin|_]; [set_solver|].
  unfold _calculate_similarity.
  destruct (Qltb (6 # 10) (ratio d a)) eqn:Ethr; simpl; [|reflexivity].
  assert (Hpos : Qltb 0 (ratio d a) = true).
  { apply Qltb_lt. apply Qltb_lt in Ethr. lra. }
  rewrite Hpos. reflexivity.
Qed.

(** C3. Taking the deletions in order, [_detect_modifications] pairs a
    deletion with the still unmatched addition of highest similarity, the
    earliest one among equally similar additions, and only when that
    similarity is strictly above 0.6; otherwise, when no unmatched addition is
    more than 0.6 similar, the deletion stays unpaired. Every pair it returns
    is more than 0.6 similar; a deletion and an addition whose similarity is
    exactly 0.6 are not paired, and a deletion and an addition whose
    similarity is 0.95 are. *)
Theorem modification_pairing (deletions additions : list string) :
  pairing ratio additions ∅ deletions
    (_detect_modifications ratio deletions additions) /\
  (forall m, m ∈ _detect_modifications ratio deletions additions ->
             ((6 # 10) < ratio (old m) (new m))%Q) /\
  (forall d a, (ratio d a == 6 # 10)%Q ->
               _detect_modifications ratio [d] [a] = []) /\
  (forall d a, (ratio d a == 95 # 100)%Q ->
               _detect_modifications ratio [d] [a] =
               [ {| old := d; new := a; similarity := round (ratio d a) 3 |} ]).
Proof.
  split; [apply detect_modifications_pairing|]. split; [|split].
  - intros m Hm.
    pose proof (pairing_threshold _ _ _ _
                  (detect_modifications_pairing deletions additions)) as Hall.
    rewrite Forall_forall in Hall. by apply Hall.
  - intros d a Heq. rewrite detect_modifications_single.
    destruct (Qltb (6 # 10) (ratio d a)) eqn:E; [|reflexivity].
    apply Qltb_lt in E. rewrite Heq in E. lra.
  - intros d a Heq. rewrite detect_modifications_single.
    destruct (Qltb (6 # 10) (ratio d a)) eqn:E; [reflexivity|].
    apply Qltb_ge in E. rewrite Heq in E. lra.
Qed.

(** *** The lists of [detect_text_changes] *)

(** C8. In the result of [detect_text_changes] every occurrence of a raw
    deletion is either still in [deletions] or the old side of exactly one
    modification, and every occurrence of a raw addition is either still in
    [additions] or the new side of exactly one modification: the matched
    lines have been removed from the raw lists, and the lines that remain
    keep the order of the raw lists. *)
Theorem matched_lines_removed (old_text new_text : string) :
  let r := detect_text_changes compare ratio old_text new_text in
  let raw := raw_changes compare old_text new_text in
  raw.2 ≡ₚ deletions r ++ map old (modifications r) /\
  raw.1 ≡ₚ additions r ++ map new (modifications r) /\
  deletions r `sublist_of` raw.2 /\
  additions r `sublist_of` raw.1.
Proof.
  unfold detect_text_changes.
  destruct (raw_changes compare old_text new_text) as [adds dels] eqn:Eraw.
  pose proof (detect_modifications_pairing dels adds) as Hp.
  pose proof (pairing_olds _ _ _ _ Hp) as Hold.
  pose proof (pairing_news _ _ _ _ Hp) as Hnew.
  rewrite unmatched_from_empty in Hnew.
  apply sublist_submseteq in Hold.
  destruct (remove_matched_loop _ _ _ Hold Hnew) as [Hd Ha].
  destruct (remove_matched_sublist (_detect_modifications ratio dels adds) dels adds)
    as [Hsd Hsa].
  destruct (fold_left remove_matched (_detect_modifications ratio dels adds)
              (dels, adds)) as [dels' adds'].
  auto.
Qed.

(** Every modification stands for one raw deletion and one raw addition. *)
Lemma changed_lines_count (old_text new_text : string) :
  let r := detect_text_changes compare ratio old_text new_text in
  let raw := raw_changes compare old_text new_text in
  length (additions r) + length (deletions r) + 2 * length (modifications r)
  = length raw.1 + length raw.2.
Proof.
  unfold detect_text_changes.
  destruct (raw_changes compare old_text new_text) as [adds dels] eqn:Eraw.
  pose proof (detect_modifications_pairing dels adds) as Hp.
  pose proof (pairing_news _ _ _ _ Hp) as Hnew.
  rewrite unmatched_from_empty in Hnew.
  pose proof (sublist_submseteq _ _ (pairing_olds _ _ _ _ Hp)) as Hold.
  destruct (remove_matched_loop _ _ _ Hold Hnew) as [Hd Ha].
  destruct (fold_left remove_matched (_detect_modifications ratio dels adds)
              (dels, adds)) as [dels' adds'].
  simpl in *. apply Permutation_length in Hd, Ha.
  rewrite length_app, length_map in Hd, Ha. lia.
Qed.


End DifflibFacts.

Lemma count_loop {A : Type} (p : A -> bool) (l : list A) (n : nat) :
  fold_left (fun n x => if p x then n + 1 else n) l n
  = n + length (List.filter p l).
Proof.
  revert n. induction l as [|x l IH]; intros n; simpl; [lia|].
  rewrite IH. destruct (p x); simpl; lia.
Qed.

Lemma critical_keywords_lower :
  Forall (fun keyword => str_lower keyword = keyword) critical_keywords.
Proof. repeat constructor. Qed.

Lemma contains_critical_keyword_spec (line : string) :
  _contains_critical_keyword line = true <-> is_critical line.
Proof.
  unfold _contains_critical_keyword, is_critical, contains_ignoring_case.
  rewrite existsb_exists. split.
  - intros (keyword & Hin & Hsub). exists keyword.
    split; [by apply list_elem_of_In|].
    pose proof critical_keywords_lower as Hlow.
    rewrite Forall_forall in Hlow.
    rewrite (Hlow keyword) by (by apply list_elem_of_In).
    by apply str_in_app.
  - intros (term & Hin & Hsub). exists term.
    split; [by apply list_elem_of_In|].
    pose proof critical_keywords_lower as Hlow.
    rewrite Forall_forall in Hlow.
    destruct Hsub as (pre & post & Hsub). rewrite (Hlow term Hin) in Hsub.
    by apply str_in_app; eauto.
Qed.

(** C5. A line is critical exactly when its lower-cased text contains one of
    the critical keywords. With [critical] the number of critical additions,
    critical deletions and modifications with a critical side, the tier is
    CRITICAL when [critical >= 3], HIGH when [critical >= 1], else MEDIUM when
    more than 20 lines changed, else LOW. *)
Theorem determine_significance_tiers
    (additions deletions : list string) (modifications : list Modification) :
  let critical := critical_occurrences additions deletions modifications in
  let total := length additions + length deletions + length modifications in
  let tier := _determine_significance additions deletions modifications in
  (forall line, _contains_critical_keyword line = true <-> is_critical line) /\
  (3 <= critical -> tier = CRITICAL) /\
  (1 <= critical < 3 -> tier = HIGH) /\
  (critical = 0 -> 20 < total -> tier = MEDIUM) /\
  (critical = 0 -> total <= 20 -> tier = LOW).
Proof.
  intros critical total tier.
  split; [apply contains_critical_keyword_spec|].
  assert (Htier : tier =
                  if (3 <=? critical)%nat then CRITICAL
                  else if (1 <=? critical)%nat then HIGH
                  else if (20 <? total)%nat then MEDIUM else LOW).
  { unfold tier, _determine_significance.
    rewrite (count_loop (fun m => _contains_critical_keyword (old m)
                                  || _contains_critical_keyword (new m))).
    rewrite !(count_loop _contains_critical_keyword). reflexivity. }
  rewrite Htier. repeat split.
  - intros H. apply Nat.leb_le in H. by rewrite H.
  - intros [H1 H3]. apply Nat.leb_le in H1. apply Nat.leb_gt in H3.
    by rewrite H3, H1.
  - intros -> H. apply Nat.ltb_lt in H. by rewrite H.
  - intros -> H. apply Nat.ltb_ge in H. by rewrite H.
Qed.


(** *** Examples *)

Lemma modification_pairing_witness :
  (lcs_ratio "abcde" "abcxy" == 6 # 10)%Q /\
  _detect_modifications lcs_ratio ["abcde"] ["abcxy"] = [] /\
  (lcs_ratio "abcdefghijklmnopqrst" "abcdefghijklmnopqrsX" == 95 # 100)%Q /\
  _detect_modifications lcs_ratio
    ["abcdefghijklmnopqrst"] ["abcdefghijklmnopqrsX"]
  = [ {| old := "abcdefghijklmnopqrst";
         new := "abcdefghijklmnopqrsX";
         similarity := 19 # 20 |} ] /\
  Forall (fun m => ((6 # 10) < lcs_ratio (old m) (new m))%Q)
    (_detect_modifications lcs_ratio
       ["Closing Date: Jan 15"; "abcde"] ["abcxy"; "Closing Date: Jan 16"]).
Proof.
  assert (H6 : (lcs_ratio "abcde" "abcxy" == 6 # 10)%Q) by (vm_compute; reflexivity).
  assert (H95 : (lcs_ratio "abcdefghijklmnopqrst" "abcdefghijklmnopqrsX"
                 == 95 # 100)%Q) by (vm_compute; reflexivity).
  split; [exact H6|]. split.
  { exact (proj1 (proj2 (proj2 (modification_pairing lcs_ratio [] []))) _ _ H6). }
  split; [exact H95|]. split.
  { rewrite (proj2 (proj2 (proj2 (modification_pairing lcs_ratio [] []))) _ _ H95).
    vm_compute. reflexivity. }
  apply Forall_forall. intros m Hm.
  exact (proj1 (proj2 (modification_pairing lcs_ratio _ _)) m Hm).
Defined.



Lemma determine_significance_tiers_witness :
  _determine_significance
    ["Purchase Price: $500,000"] ["Closing Date: Jan 15"]
    [ {| old := "Terms"; new := "New Terms"; similarity := 0.714 |} ] = CRITICAL /\
  _determine_significance ["Purchase Price: $500,000"] [] [] = HIGH /\
  _determine_significance (replicate 21 "The font is now bold.") [] [] = MEDIUM /\
  _determine_significance ["The font is now bold."] [] [] = LOW.
Proof.
  split; [|split; [|split]].
  - apply (proj1 (proj2 (determine_significance_tiers _ _ _))). vm_compute. lia.
  - apply (proj1 (proj2 (proj2 (determine_significance_tiers _ _ _)))).
    vm_compute. lia.
  - apply (proj1 (proj2 (proj2 (proj2 (determine_significance_tiers _ _ _)))));
      vm_compute; (reflexivity || lia).
  - apply (proj2 (proj2 (proj2 (proj2 (determine_significance_tiers _ _ _)))));
      vm_compute; (reflexivity || lia).
Defined.

End ChangeDetectorFacts.

(** ** [detect_visual_changes] *)

Module VisualFacts.
Import Py ChangeDetector.Visual.

Section ImagingFacts.

Variable Image : Type.
Variable PDF_AVAILABLE : bool.
Variable convert_from_path : string -> result (list Image).
Variable _compare_images : Image -> Image -> nat -> result (Image * PageChanges).
Variable save : list Image -> string -> result unit.

Local Abbreviation compare_pages := (compare_pages Image _compare_images).
Local Abbreviation report_pages := (report_pages Image _compare_images save).
Local Abbreviation detect_visual_changes :=
  (detect_visual_changes Image PDF_AVAILABLE convert_from_path _compare_images save).

(** The loop stops with the shorter document. *)
Lemma compare_pages_overlap i old_images new_images :
  let n := Nat.min (length old_images) (length new_images) in
  compare_pages i old_images new_images
  = compare_pages i (take n old_images) (take n new_images).
Proof.
  revert i new_images.
  induction old_images as [|o olds IH]; intros i [|nw news]; simpl; try reflexivity.
  by rewrite (IH (S i) news).
Qed.

Lemma compare_pages_length i old_images new_images hs cs :
  compare_pages i old_images new_images = Ok (hs, cs) ->
  length hs = Nat.min (length old_images) (length new_images) /\
  length cs = Nat.min (length old_images) (length new_images).
Proof.
  revert i new_images hs cs.
  induction old_images as [|o olds IH]; intros i [|nw news] hs cs; simpl;
    try (intros [= <- <-]; done).
  destruct (_compare_images o nw (i + 1)) as [[h c]|e]; simpl; [|discriminate].
  destruct (compare_pages (S i) olds news) as [[hs' cs']|e] eqn:E; simpl;
    [|discriminate].
  intros [= <- <-]. simpl. destruct (IH _ _ _ _ E) as [-> ->]. done.
Qed.

Lemma compare_pages_succeeds i old_images new_images :
  (forall k o nw, old_images !! k = Some o -> new_images !! k = Some nw ->
                  exists res, _compare_images o nw (i + k + 1) = Ok res) ->
  exists res, compare_pages i old_images new_images = Ok res.
Proof.
  revert i new_images.
  induction old_images as [|o olds IH]; intros i [|nw news] Hall; simpl; eauto.
  destruct (Hall 0 o nw eq_refl eq_refl) as [res Hres].
  rewrite Nat.add_0_r in Hres. rewrite Hres. simpl.
  destruct (IH (S i) news) as [rest Hrest].
  { intros k o' nw' Ho Hn. destruct (Hall (S k) o' nw' Ho Hn) as [r Hr].
    exists r. by replace (S i + k + 1) with (i + S k + 1) by lia. }
  rewrite Hrest. simpl. eauto.
Qed.

Lemma report_pages_overlap old_images new_images output_path log :
  let n := Nat.min (length old_images) (length new_images) in
  report_pages old_images new_images output_path log
  = report_pages (take n old_images) (take n new_images) output_path log.
Proof.
  intros n. unfold ChangeDetector.Visual.report_pages.
  by rewrite (compare_pages_overlap 0 old_images new_images).
Qed.

Lemma report_pages_count old_images new_images output_path log log' changes :
  report_pages old_images new_images output_path log = (log', Ok changes) ->
  page_count changes = Nat.min (length old_images) (length new_images) /\
  length (page_changes changes) = Nat.min (length old_images) (length new_images).
Proof.
  unfold ChangeDetector.Visual.report_pages.
  destruct (compare_pages 0 old_images new_images) as [[hs cs]|e] eqn:E;
    [|discriminate].
  destruct (compare_pages_length _ _ _ _ _ E) as [Hh Hc].
  destruct output_path as [path|], hs as [|h hs];
    try case_decide; try destruct (save _ _);
    intros [= <- <-]; simpl; auto.
Qed.

Lemma report_pages_succeeds old_images new_images output_path log :
  (forall k o nw, old_images !! k = Some o -> new_images !! k = Some nw ->
                  exists res, _compare_images o nw (k + 1) = Ok res) ->
  (forall images path, exists u, save images path = Ok u) ->
  exists log' changes,
    report_pages old_images new_images output_path log = (log', Ok changes).
Proof.
  intros Hcmp Hsave. unfold ChangeDetector.Visual.report_pages.
  destruct (compare_pages_succeeds 0 old_images new_images Hcmp) as [[hs cs] ->].
  destruct output_path as [path|], hs as [|h hs]; try case_decide; eauto.
  destruct (Hsave (h :: hs) path) as [u ->]. eauto.
Qed.

(** C7, as the code does it. When the two documents differ in their number
    of pages, and the library calls on the overlapping pages raise nothing,
    [detect_visual_changes] returns a success dict: it has compared the pages
    the two documents share, [page_count] and the length of [page_changes]
    are the smaller number of pages, and the dict is the one the two prefixes
    of that length give. The mismatch goes to the log as a warning; the dict
    has no entry for it. *)
Theorem page_count_mismatch_logged
    old_pdf_path new_pdf_path output_path old_images new_images :
  PDF_AVAILABLE = true ->
  convert_from_path old_pdf_path = Ok old_images ->
  convert_from_path new_pdf_path = Ok new_images ->
  length old_images <> length new_images ->
  (forall k o nw, old_images !! k = Some o -> new_images !! k = Some nw ->
                  exists res, _compare_images o nw (k + 1) = Ok res) ->
  (forall images path, exists u, save images path = Ok u) ->
  let n := Nat.min (length old_images) (length new_images) in
  let out := detect_visual_changes old_pdf_path new_pdf_path output_path in
  (WARNING, "Page count mismatch: " +:+ pretty (length old_images)
            +:+ " vs " +:+ pretty (length new_images)) ∈ out.1 /\
  exists changes,
    out.2 = Success changes /\
    page_count changes = n /\
    length (page_changes changes) = n /\
    forall log,
      (report_pages (take n old_images) (take n new_images) output_path log).2
      = Ok changes.
Proof.
  intros Havail Hold Hnew Hne Hcmp Hsave n out.
  unfold out, ChangeDetector.Visual.detect_visual_changes, try_detect.
  rewrite Havail, Hold, Hnew. simpl.
  destruct (decide (length old_images ≠ length new_images)) as [_|]; [|done].
  match goal with
  | |- context [ChangeDetector.Visual.report_pages _ _ _ _ _ _ ?l] => set (log0 := l)
  end.
  assert (Hw : (WARNING, "Page count mismatch: " +:+ pretty (length old_images)
                         +:+ " vs " +:+ pretty (length new_images)) ∈ log0)
    by (unfold log0; apply list_elem_of_further, list_elem_of_here).
  clearbody log0.
  destruct (report_pages_succeeds old_images new_images output_path log0 Hcmp Hsave)
    as (log' & changes & Hrep).
  rewrite Hrep. simpl.
  destruct (report_pages_count _ _ _ _ _ _ Hrep) as [Hcount Hlen].
  split.
  - (* the warning stays in the log *)
    assert (Hsub : forall x, x ∈ log0 -> x ∈ log').
    { revert Hrep. unfold ChangeDetector.Visual.report_pages.
      destruct (compare_pages 0 old_images new_images) as [[hs cs]|e]; [|discriminate].
      destruct output_path as [path|], hs as [|h hs];
        try case_decide; try destruct (save _ _);
        intros [= <- _] x Hx; try done.
      apply elem_of_app. by left. }
    by apply Hsub.
  - exists changes. split; [reflexivity|]. split; [exact Hcount|].
    split; [exact Hlen|]. intros log. subst n.
    rewrite <- (report_pages_overlap old_images new_images output_path log).
    revert Hrep. unfold ChangeDetector.Visual.report_pages.
    destruct (compare_pages 0 old_images new_images) as [[hs cs]|e]; [|discriminate].
    destruct output_path as [path|], hs as [|h hs];
      try case_decide; try destruct (save _ _);
      intros [= _ <-]; reflexivity.
Qed.

End ImagingFacts.


(** *** Examples *)

(** No reading of the returned dict tells a page-count mismatch: a document
    of two pages compared with one of three pages, and with one of two
    pages, gives the same dict. *)
Lemma mismatch_in_report_counterexample :
  example_convert "old.pdf" = Ok [1; 2] /\
  example_convert "new.pdf" = Ok [1; 7; 3] /\
  example_convert "new_short.pdf" = Ok [1; 7] /\
  (example_detect "old.pdf" "new.pdf" None).2
    = (example_detect "old.pdf" "new_short.pdf" None).2 /\
  ~ mismatch_in_report nat example_convert example_detect.
Proof.
  split; [reflexivity|]. split; [reflexivity|]. split; [reflexivity|].
  assert (Hsame : (example_detect "old.pdf" "new.pdf" None).2
                  = (example_detect "old.pdf" "new_short.pdf" None).2)
    by (vm_compute; reflexivity).
  split; [exact Hsame|].
  intros [warning Hwarning].
  pose proof (Hwarning "old.pdf" "new.pdf" None [1; 2] [1; 7; 3]
                eq_refl eq_refl) as Hlong.
  pose proof (Hwarning "old.pdf" "new_short.pdf" None [1; 2] [1; 7]
                eq_refl eq_refl) as Hshort.
  rewrite Hsame in Hlong. simpl in Hlong, Hshort.
  destruct Hlong as [_ Hlong]. destruct Hshort as [Hshort _].
  apply Hshort; [apply Hlong; discriminate|reflexivity].
Qed.

Lemma page_count_mismatch_logged_witness :
  (WARNING, "Page count mismatch: 2 vs 3") ∈ (example_detect "old.pdf" "new.pdf" None).1 /\
  exists changes,
    (example_detect "old.pdf" "new.pdf" None).2 = Success changes /\
    page_count changes = 2 /\
    length (page_changes changes) = 2.
Proof.
  destruct (page_count_mismatch_logged nat true example_convert example_compare
              example_save "old.pdf" "new.pdf" None [1; 2] [1; 7; 3])
    as (Hlog & changes & Hout & Hcount & Hlen & _).
  - reflexivity.
  - reflexivity.
  - reflexivity.
  - simpl. discriminate.
  - intros k o nw _ _. eexists. reflexivity.
  - intros images path. exists tt. reflexivity.
  - split; [exact Hlog|]. exists changes. auto.
Defined.

End VisualFacts.

(** ** [check_compliance] *)

Module ComplianceCheckerFacts.
Import Py ComplianceChecker.

(** *** The shape of each check *)

Lemma bind_ok {A B : Type} (r : result A) (f : A -> result B) (b : B) :
  r ≫= f = Ok b -> exists a, r = Ok a /\ f a = Ok b.
Proof. destruct r as [a|e]; [eauto|discriminate]. Qed.

Lemma check_required_fields_shape required data :
  let c := _check_required_fields required data in
  check_type c = REQUIRED_FIELD /\ (status c = PASS \/ status c = FAIL).
Proof.
  unfold _check_required_fields. simpl.
  destruct (is_nil _); auto.
Qed.

Lemma check_signatures_shape required signatures :
  let c := _check_signatures required signatures in
  check_type c = SIGNATURE /\ (status c = PASS \/ status c = FAIL).
Proof.
  unfold _check_signatures. simpl.
  destruct (is_nil _); auto.
Qed.

Lemma check_required_clauses_shape required clauses c :
  _check_required_clauses required clauses = Ok c ->
  check_type c = CLAUSE_CHECK /\ (status c = PASS \/ status c = FAIL).
Proof.
  unfold _check_required_clauses. intros H.
  apply bind_ok in H as (joined & _ & H). injection H as <-. simpl.
  destruct (is_nil _); auto.
Qed.

Lemma check_dates_shape now checks data :
  check_type (_check_dates now checks data) = DATE_CHECK.
Proof. reflexivity. Qed.

Lemma check_amounts_shape checks data c :
  _check_amounts checks data = Ok c ->
  check_type c = AMOUNT_CHECK /\ (status c = PASS \/ status c = WARNING) /\
  (status c = PASS <-> details c = []).
Proof.
  unfold _check_amounts. intros H.
  apply bind_ok in H as (issues & _ & H). injection H as <-. simpl.
  destruct issues; simpl; intuition congruence.
Qed.

Lemma check_format_shape checks data c :
  _check_format checks data = Ok c ->
  check_type c = FORMAT_CHECK /\ (status c = PASS \/ status c = WARNING) /\
  (status c = PASS <-> details c = []).
Proof.
  unfold _check_format. intros H.
  apply bind_ok in H as (issues & _ & H). injection H as <-. simpl.
  destruct issues; simpl; intuition congruence.
Qed.

(** *** What [check_compliance] assembles *)

Lemma check_compliance_inv now category data r :
  check_compliance now category data = Ok r ->
  let rule_set := default ∅ (rules !! category) in
  exists field_check signature_check clause_checks date_check amount_check format_check,
    field_check = _check_required_fields (default [] (rule_set !! "required_fields")) data /\
    signature_check = _check_signatures (default [] (rule_set !! "required_signatures"))
                        (get_default data "signatures" (VList [])) /\
    match rule_set !! "required_clauses" with
    | Some required_clauses =>
        exists clause_check,
          _check_required_clauses required_clauses
            (get_default data "clauses" (VList [])) = Ok clause_check /\
          clause_checks = [clause_check]
    | None => clause_checks = []
    end /\
    date_check = _check_dates now (default [] (rule_set !! "date_checks")) data /\
    _check_amounts (default [] (rule_set !! "amount_checks")) data = Ok amount_check /\
    _check_format (default [] (rule_set !! "format_checks")) data = Ok format_check /\
    checks r = [field_check; signature_check] ++ clause_checks
               ++ [date_check; amount_check; format_check] /\
    critical_issues r =
      bump field_check FAIL + bump signature_check FAIL
      + fold_left Nat.add (map (fun c => bump c FAIL) clause_checks) 0
      + bump date_check FAIL /\
    warnings r = bump date_check WARNING + bump amount_check WARNING /\
    suggestions r = bump format_check WARNING /\
    overall_status r = status_for (critical_issues r) (warnings r) /\
    requires_review r = (0 <? critical_issues r)%nat || (2 <? warnings r)%nat /\
    missing_fields r = details field_check /\
    missing_signatures r = details signature_check /\
    date_inconsistencies r = details date_check /\
    format_issues r = details format_check.
Proof.
  intros H rule_set. unfold check_compliance in H.
  change (default ∅ (rules !! category)) with rule_set in H. clearbody rule_set.
  pose proof (check_required_fields_shape
                (default [] (rule_set !! "required_fields")) data) as [_ Hf].
  remember (_check_required_fields (default [] (rule_set !! "required_fields")) data)
    as field_check eqn:Hfield.
  remember (_check_signatures (default [] (rule_set !! "required_signatures"))
              (get_default data "signatures" (VList [])))
    as signature_check eqn:Hsignature.
  remember (_check_dates now (default [] (rule_set !! "date_checks")) data)
    as date_check eqn:Hdate.
  apply bind_ok in H as ([checks0 critical0] & Hclause & H).
  apply bind_ok in H as (amount_check & Hamount & H).
  apply bind_ok in H as (format_check & Hformat & H).
  injection H as <-.
  assert (Hc : exists clause_checks,
             match rule_set !! "required_clauses" with
             | Some required_clauses =>
                 exists clause_check,
                   _check_required_clauses required_clauses
                     (get_default data "clauses" (VList [])) = Ok clause_check /\
                   clause_checks = [clause_check]
             | None => clause_checks = []
             end /\
             checks0 = [field_check; signature_check] ++ clause_checks /\
             critical0 = bump field_check FAIL + bump signature_check FAIL
                         + fold_left Nat.add (map (fun c => bump c FAIL) clause_checks) 0).
  { destruct (rule_set !! "required_clauses") as [required_clauses|].
    - apply bind_ok in Hclause as (clause_check & Hcl & Hret).
      injection Hret as <- <-. exists [clause_check].
      split; [eauto|]. split; [reflexivity|]. unfold bump. simpl.
      repeat case_decide; lia.
    - injection Hclause as <- <-. exists [].
      split; [reflexivity|]. split; [reflexivity|]. unfold bump. simpl.
      repeat case_decide; lia. }
  destruct Hc as (clause_checks & Hcl & -> & ->).
  exists field_check, signature_check, clause_checks, date_check, amount_check, format_check.
  simpl. repeat split; try done.
  - by rewrite <- !app_assoc.
  - unfold bump. repeat case_decide; try congruence; lia.
  - unfold bump. destruct Hf as [Hf|Hf]; rewrite Hf.
    all: repeat case_decide; try congruence; lia.
Qed.


(** *** Data on which the checks raise nothing *)

Lemma join_clauses_returns clauses :
  joinable clauses = true -> exists joined, join_clauses clauses = Ok joined.
Proof.
  intros Hj. unfold join_clauses.
  assert (Hitems : exists items, iterate clauses = Ok items /\ forallb is_string items = true).
  { destruct clauses; simpl in *; try discriminate; eexists; split; try reflexivity.
    - induction (str_chars s); simpl; auto.
    - exact Hj.
    - induction d; simpl; auto. }
  destruct Hitems as (items & -> & Hall).
  assert (Hfold : forall acc, exists strs,
             fold_left
               (fun acc item =>
                  strs ← acc;
                  match item with
                  | VStr s => Ok (strs ++ [s])
                  | _ => Raise (TypeError
                                  ("sequence item " +:+ pretty (length strs)
                                   +:+ ": expected str instance, "
                                   +:+ type_name item +:+ " found"))
                  end)
               items (Ok acc) = Ok strs).
  { induction items as [|item items IH]; intros acc; simpl; [eauto|].
    simpl in Hall. apply andb_true_iff in Hall as [Hitem Hall].
    destruct item; try discriminate. simpl. apply IH, Hall. }
  destruct (Hfold []) as [strs ->]. simpl. eauto.
Qed.

Lemma total_of_fees_returns fees :
  summable fees = true -> exists total, total_of_fees fees = Ok total.
Proof.
  intros Hs. unfold total_of_fees.
  assert (Hitems : exists items, iterate fees = Ok items /\ forallb fee_parses items = true).
  { destruct fees; simpl in *; try discriminate; eexists; split; try reflexivity.
    - induction (str_chars s); simpl; auto.
    - exact Hs.
    - induction d; simpl; auto. }
  destruct Hitems as (items & -> & Hall). simpl.
  assert (Hfold : forall acc, exists total,
             fold_left fee_step items (Ok acc) = Ok total).
  { induction items as [|f items IH]; intros acc; simpl; [eauto|].
    simpl in Hall. apply andb_true_iff in Hall as [Hf Hall].
    destruct acc as [total is_int].
    destruct f; simpl in *; try (apply IH, Hall).
    destruct (_parse_amount (get_default d "amount" (VInt 0))); [|discriminate].
    apply IH, Hall. }
  destruct (Hfold (0%Q, true)) as [[total is_int] ->]. simpl. eauto.
Qed.

Lemma amount_step_returns data issues check :
  summable (get_default data "fees" (VList [])) = true ->
  exists issues', amount_step data issues check = Ok issues'.
Proof.
  intros Hs. unfold amount_step.
  destruct (total_of_fees_returns _ Hs) as [total ->]. simpl.
  repeat match goal with
         | |- context [if ?b then _ else _] => destruct b
         | |- context [match nonzero ?x with _ => _ end] => destruct (nonzero x)
         end; eauto.
Qed.

Lemma check_amounts_returns checks data :
  summable (get_default data "fees" (VList [])) = true ->
  exists c, _check_amounts checks data = Ok c.
Proof.
  intros Hs. unfold _check_amounts.
  assert (Hfold : forall acc, exists issues,
             fold_left (fun acc check => issues ← acc; amount_step data issues check)
                       checks (Ok acc) = Ok issues).
  { induction checks as [|check checks IH]; intros acc; simpl; [eauto|].
    destruct (amount_step_returns data acc check Hs) as [issues' ->]. apply IH. }
  destruct (Hfold []) as [issues ->]. simpl. eauto.
Qed.

Lemma as_string_returns v :
  text_or_empty v = true -> truthy v = true -> exists text, as_string v = Ok text.
Proof.
  unfold text_or_empty. intros H Ht. rewrite Ht in H. simpl in H.
  destruct v; try discriminate. simpl. eauto.
Qed.

Lemma format_step_returns data issues check :
  text_or_empty (py_or (get data "email") (get data "applicant_email")) = true ->
  text_or_empty (py_or (get data "phone") (get data "applicant_phone")) = true ->
  text_or_empty (get data "ssn") = true ->
  sized_or_empty (get data "legal_description") = true ->
  exists issues', format_step data issues check = Ok issues'.
Proof.
  intros He Hp Hs Hl. unfold format_step.
  destruct (String.eqb check "email_format").
  { destruct (truthy _) eqn:Ht; [|eauto].
    destruct (as_string_returns _ He Ht) as [text ->]. simpl.
    destruct (negb _); eauto. }
  destruct (String.eqb check "phone_format").
  { destruct (truthy _) eqn:Ht; [|eauto].
    destruct (as_string_returns _ Hp Ht) as [text ->]. simpl.
    destruct (negb _); eauto. }
  destruct (String.eqb check "ssn_format").
  { destruct (truthy _) eqn:Ht; [|eauto].
    destruct (as_string_returns _ Hs Ht) as [text ->]. simpl.
    destruct (negb _); eauto. }
  destruct (String.eqb check "legal_description_format"); [|eauto].
  destruct (truthy _) eqn:Ht; [|eauto].
  unfold sized_or_empty in Hl. rewrite Ht in Hl. simpl in Hl.
  destruct (get data "legal_description"); try discriminate; simpl;
    match goal with |- context [if ?b then _ else _] => destruct b end; eauto.
Qed.

Lemma check_format_returns checks data :
  text_or_empty (py_or (get data "email") (get data "applicant_email")) = true ->
  text_or_empty (py_or (get data "phone") (get data "applicant_phone")) = true ->
  text_or_empty (get data "ssn") = true ->
  sized_or_empty (get data "legal_description") = true ->
  exists c, _check_format checks data = Ok c.
Proof.
  intros He Hp Hs Hl. unfold _check_format.
  assert (Hfold : forall acc, exists issues,
             fold_left (fun acc check => issues ← acc; format_step data issues check)
                       checks (Ok acc) = Ok issues).
  { induction checks as [|check checks IH]; intros acc; simpl; [eauto|].
    destruct (format_step_returns data acc check He Hp Hs Hl) as [issues' ->].
    apply IH. }
  destruct (Hfold []) as [issues ->]. simpl. eauto.
Qed.

(** On data the checks can read, [check_compliance] raises nothing. *)
Lemma check_compliance_returns now category data :
  readable data = true ->
  exists r, check_compliance now category data = Ok r.
Proof.
  unfold readable. rewrite !andb_true_iff.
  intros [[[[[Hj Hsum] He] Hp] Hs] Hl].
  unfold check_compliance.
  generalize (default ∅ (rules !! category)). intros rule_set.
  destruct (check_amounts_returns (default [] (rule_set !! "amount_checks")) data Hsum)
    as [ac Hac].
  destruct (check_format_returns (default [] (rule_set !! "format_checks")) data
              He Hp Hs Hl) as [fc Hfc].
  destruct (rule_set !! "required_clauses") as [required_clauses|].
  - unfold _check_required_clauses.
    destruct (join_clauses_returns _ Hj) as [joined ->]. simpl.
    rewrite Hac. simpl. rewrite Hfc. simpl. eauto.
  - simpl. rewrite Hac. simpl. rewrite Hfc. simpl. eauto.
Qed.

Lemma count_status_cons types st c cs :
  count_status types st (c :: cs) =
  (if bool_decide (check_type c ∈ types) && bool_decide (status c = st)
   then 1 else 0) + count_status types st cs.
Proof.
  unfold count_status. simpl.
  destruct (bool_decide (check_type c ∈ types) && bool_decide (status c = st));
    reflexivity.
Qed.

Lemma count_status_nil types st : count_status types st [] = 0.
Proof. reflexivity. Qed.

Lemma status_for_cases critical warnings :
  (0 < critical -> status_for critical warnings = NON_COMPLIANT) /\
  (critical = 0 -> 2 < warnings -> status_for critical warnings = PARTIALLY_COMPLIANT) /\
  (critical = 0 -> 0 < warnings <= 2 -> status_for critical warnings = NEEDS_REVIEW) /\
  (critical = 0 -> warnings = 0 -> status_for critical warnings = COMPLIANT).
Proof.
  unfold status_for. repeat split.
  - intros H. apply Nat.ltb_lt in H. by rewrite H.
  - intros -> H. apply Nat.ltb_lt in H. by rewrite H.
  - intros -> [H1 H2]. apply Nat.ltb_lt in H1. apply Nat.ltb_ge in H2.
    simpl. by rewrite H2, H1.
  - by intros -> ->.
Qed.




(** C2. A category that the rule catalog does not have gives an empty set of
    rules; [check_compliance] then raises nothing and returns a report whose
    checks all have status PASS, whose [overall_status] is COMPLIANT and
    whose [critical_issues], [warnings] and [suggestions] are 0. *)
Theorem unknown_category_compliant now category data :
  rules !! category = None ->
  default ∅ (rules !! category) = ∅ /\
  exists r,
    check_compliance now category data = Ok r /\
    Forall (fun c => status c = PASS) (checks r) /\
    overall_status r = COMPLIANT /\
    critical_issues r = 0 /\ warnings r = 0 /\ suggestions r = 0 /\
    requires_review r = false.
Proof.
  intros Hnone. unfold check_compliance. rewrite Hnone. simpl.
  split; [reflexivity|].
  rewrite !lookup_empty. simpl. eexists. split; [reflexivity|]. simpl.
  repeat split; repeat constructor.
Qed.

(** C9, at a lower-case spelling. [check_compliance] looks the category up
    as it is given: for ["purchase_agreement"] it finds no rules and reports
    COMPLIANT with five passing checks, where for ["PURCHASE_AGREEMENT"] and
    the same data it reports NON_COMPLIANT. *)
Theorem lower_case_category_unknown :
  rules !! "purchase_agreement" = None /\
  exists r r',
    check_compliance example_now "purchase_agreement" [] = Ok r /\
    check_compliance example_now "PURCHASE_AGREEMENT" [] = Ok r' /\
    overall_status r = COMPLIANT /\ length (checks r) = 5 /\
    overall_status r' = NON_COMPLIANT /\ critical_issues r' = 3 /\
    r <> r'.
Proof.
  split; [by vm_compute|].
  eexists. eexists.
  split; [vm_compute; reflexivity|]. split; [vm_compute; reflexivity|].
  repeat split. discriminate.
Qed.

Lemma nonzero_zero (x : option Q) (q : Q) :
  x = Some q -> (q == 0)%Q -> nonzero x = None.
Proof.
  intros -> Hq. unfold nonzero. apply Qeq_bool_iff in Hq. by rewrite Hq.
Qed.

Lemma check_amounts_steps checks data issues :
  fold_left (fun acc check => issues ← acc; amount_step data issues check)
            checks (Ok []) = Ok issues ->
  _check_amounts checks data =
  Ok {| check_name := "Amount Validation";
        check_type := AMOUNT_CHECK;
        status := if is_nil issues then PASS else WARNING;
        details := issues;
        message := if is_nil issues then "All amounts are reasonable"
                   else str_join "; " issues;
        severity := if is_nil issues then None else Some MEDIUM |}.
Proof. unfold _check_amounts. by intros ->. Qed.



(** *** Examples *)





Lemma unknown_category_compliant_witness :
  rules !! "XYZ" = None /\
  exists r,
    check_compliance example_now "XYZ" example_late_agreement = Ok r /\
    Forall (fun c => status c = PASS) (checks r) /\
    overall_status r = COMPLIANT /\
    critical_issues r = 0 /\ warnings r = 0 /\ suggestions r = 0 /\
    requires_review r = false.
Proof.
  assert (H : rules !! "XYZ" = None) by (vm_compute; reflexivity).
  split; [exact H|].
  exact (proj2 (unknown_category_compliant example_now "XYZ" example_late_agreement H)).
Defined.


End ComplianceCheckerFacts.

(** ** The pairing, the tiers and the renderings of [detect_text_changes] *)

Module ChangeReportFacts.
Import Py ChangeDetector.

Lemma round_of_zero (q : Q) (ndigits : nat) : (q == 0)%Q -> round q ndigits = 0%Q.
Proof.
  intros Hq. unfold round.
  set (scale := (10 ^ Z.of_nat ndigits)%Z).
  assert (Hx : (q * inject_Z scale == 0)%Q) by (rewrite Hq; ring).
  assert (Hf : Qfloor (q * inject_Z scale) = 0%Z)
    by (rewrite (Qfloor_comp _ _ Hx); reflexivity).
  rewrite Hf.
  assert (Hr : Qltb (q * inject_Z scale - inject_Z 0) (1 # 2) = true).
  { apply PyFacts.Qltb_lt. rewrite Hx. reflexivity. }
  rewrite Hr.
  assert (Hs : (0 < scale)%Z) by (apply Z.pow_pos_nonneg; lia).
  destruct scale as [|p|p]; try lia.
  reflexivity.
Qed.

Lemma str_rstrip_idem (s : string) : str_rstrip (str_rstrip s) = str_rstrip s.
Proof.
  induction s as [|c s IH]; [reflexivity|].
  simpl. destruct (str_rstrip s) as [|d r] eqn:E.
  - destruct (isspace c) eqn:Ec; simpl; [reflexivity|]. rewrite Ec. reflexivity.
  - simpl in IH |- *. rewrite IH. reflexivity.
Qed.

Lemma str_lstrip_head (s : string) :
  match str_lstrip s with
  | EmptyString => True
  | String c _ => isspace c = false
  end.
Proof.
  induction s as [|c s IH]; simpl; [exact I|].
  destruct (isspace c) eqn:Ec; [exact IH|]. simpl. exact Ec.
Qed.

Lemma str_strip_idem (s : string) : str_strip (str_strip s) = str_strip s.
Proof.
  unfold str_strip.
  pose proof (str_lstrip_head s) as Hh.
  destruct (str_lstrip s) as [|c t]; [reflexivity|].
  assert (Hr : exists u, str_rstrip (String c t) = String c u).
  { simpl. destruct (str_rstrip t); [rewrite Hh|]; eauto. }
  destruct Hr as [u Hu].
  assert (Hl : str_lstrip (str_rstrip (String c t)) = str_rstrip (String c t)).
  { rewrite Hu. simpl. rewrite Hh. reflexivity. }
  rewrite Hl. apply str_rstrip_idem.
Qed.

Lemma parse_diff_loop (P : string -> Prop) (diff : list string) (adds dels : list string) :
  (forall line, P (str_strip (str_drop 2 line))) ->
  Forall P adds -> Forall P dels ->
  Forall P (fold_left parse_step diff (adds, dels)).1 /\
  Forall P (fold_left parse_step diff (adds, dels)).2.
Proof.
  intros HP. revert adds dels.
  induction diff as [|line diff IH]; intros adds dels Ha Hd;
    [simpl; split; assumption|].
  simpl. destruct (str_startswith "+ " line).
  - apply IH; [|done]. apply Forall_app; split; [done|]. constructor; [apply HP|constructor].
  - destruct (str_startswith "- " line).
    + apply IH; [done|]. apply Forall_app; split; [done|]. constructor; [apply HP|constructor].
    + by apply IH.
Qed.

Lemma parse_diff_unchanged (diff : list string) (st : list string * list string) :
  Forall (fun line => str_startswith "+ " line = false
                      /\ str_startswith "- " line = false) diff ->
  fold_left parse_step diff st = st.
Proof.
  revert st. induction diff as [|line diff IH]; intros st H; [reflexivity|].
  inversion H as [|? ? [Hp Hm] Hrest]; subst.
  simpl. destruct st as [adds dels]. simpl. rewrite Hp, Hm. by apply IH.
Qed.

Lemma significance_by_count
    (additions deletions : list string) (modifications : list Modification) :
  _determine_significance additions deletions modifications =
  let critical := critical_occurrences additions deletions modifications in
  let total := length additions + length deletions + length modifications in
  if (3 <=? critical)%nat then CRITICAL
  else if (1 <=? critical)%nat then HIGH
  else if (20 <? total)%nat then MEDIUM
  else LOW.
Proof.
  unfold _determine_significance, critical_occurrences.
  rewrite !ChangeDetectorFacts.count_loop. simpl. reflexivity.
Qed.

Lemma filter_sublist_length {A : Type} (p : A -> bool) (l1 l2 : list A) :
  l1 `sublist_of` l2 -> length (List.filter p l1) <= length (List.filter p l2).
Proof.
  induction 1 as [|x l1 l2 _ IH|x l1 l2 _ IH]; simpl.
  - lia.
  - destruct (p x); simpl; lia.
  - destruct (p x); simpl; lia.
Qed.

Lemma collect_loop {A B : Type} (p : A -> bool) (f : A -> B) (l : list A) (acc : list B) :
  fold_left (fun acc x => if p x then acc ++ [f x] else acc) l acc
  = acc ++ map f (List.filter p l).
Proof.
  revert acc. induction l as [|x l IH]; intros acc; simpl.
  - by rewrite app_nil_r.
  - rewrite IH. destruct (p x); simpl; [|done]. by rewrite <- app_assoc.
Qed.

Lemma identify_critical_changes_filters
    (additions deletions : list string) (modifications : list Modification) :
  _identify_critical_changes additions deletions modifications =
  map addition_entry (List.filter _contains_critical_keyword additions)
  ++ map deletion_entry (List.filter _contains_critical_keyword deletions)
  ++ map modification_entry
       (List.filter (fun m => _contains_critical_keyword (old m)
                              || _contains_critical_keyword (new m))
                    modifications).
Proof.
  unfold _identify_critical_changes.
  rewrite (collect_loop _contains_critical_keyword addition_entry).
  rewrite (collect_loop _contains_critical_keyword deletion_entry).
  rewrite (collect_loop (fun m => _contains_critical_keyword (old m)
                                  || _contains_critical_keyword (new m))
                        modification_entry).
  simpl. by rewrite <- app_assoc.
Qed.

Lemma extract_nonempty (text : string) :
  _contains_critical_keyword text = true -> _extract_critical_keywords text <> [].
Proof.
  unfold _contains_critical_keyword, _extract_critical_keywords.
  intros H Hnil. apply existsb_exists in H as (k & Hin & Hk).
  assert (Hf : In k (List.filter (fun keyword => str_in keyword (str_lower text))
                                 critical_keywords))
    by (apply filter_In; split; assumption).
  rewrite Hnil in Hf. destruct Hf.
Qed.

Lemma extract_spec (text keyword : string) :
  keyword ∈ _extract_critical_keywords text <->
  keyword ∈ critical_keywords /\ str_in keyword (str_lower text) = true.
Proof.
  unfold _extract_critical_keywords.
  rewrite !list_elem_of_In, filter_In. reflexivity.
Qed.

Section DifflibMore.

Variable compare : list string -> list string -> list string.
Variable ratio : string -> string -> Q.

Local Abbreviation _detect_modifications := (ChangeDetector._detect_modifications ratio).
Local Abbreviation detect_text_changes :=
  (ChangeDetector.detect_text_changes compare ratio).
Local Abbreviation raw_changes := (ChangeDetector.raw_changes compare).

Lemma pairing_similarity additions used ds ms :
  pairing ratio additions used ds ms ->
  Forall (fun m => similarity m = round (ratio (old m) (new m)) 3) ms.
Proof.
  induction 1; [constructor| |assumption].
  constructor; [reflexivity|assumption].
Qed.

(** X1: no line is paired twice. The old sides of the modifications are
    deletions, in their order, each taken at most once; the new sides are
    additions, each taken at most once; so there are at most as many
    modifications as deletions and as additions; and the similarity kept
    with a pair is the ratio of its two sides, rounded to three places. *)
Theorem modifications_pair_once (deletions additions : list string) :
  let ms := _detect_modifications deletions additions in
  map old ms `sublist_of` deletions /\
  map new ms ⊆+ additions /\
  length ms <= Nat.min (length deletions) (length additions) /\
  Forall (fun m => similarity m = round (ratio (old m) (new m)) 3) ms.
Proof.
  intros ms.
  pose proof (ChangeDetectorFacts.detect_modifications_pairing ratio deletions additions)
    as Hp.
  fold ms in Hp.
  pose proof (ChangeDetectorFacts.pairing_olds ratio _ _ _ _ Hp) as Ho.
  pose proof (ChangeDetectorFacts.pairing_news compare ratio _ _ _ _ Hp) as Hn.
  rewrite ChangeDetectorFacts.unmatched_from_empty in Hn.
  repeat split; try assumption.
  - apply sublist_length in Ho. apply submseteq_length in Hn.
    rewrite length_map in Ho, Hn. lia.
  - exact (pairing_similarity _ _ _ _ Hp).
Qed.

(** X2: a delta without a line tagged ["+ "] or ["- "] gives the empty
    result: no addition, deletion or modification, 0 percent, LOW. *)
Theorem unchanged_delta_empty_result (old_text new_text : string) :
  Forall (fun line => str_startswith "+ " line = false
                      /\ str_startswith "- " line = false)
         (compare (str_splitlines true old_text) (str_splitlines true new_text)) ->
  detect_text_changes old_text new_text =
  {| additions := []; deletions := []; modifications := [];
     change_percentage := 0; significance := LOW |}.
Proof.
  intros H.
  unfold ChangeDetector.detect_text_changes, ChangeDetector.raw_changes, parse_diff.
  rewrite (parse_diff_unchanged _ _ H). simpl.
  f_equal. apply round_of_zero.
  destruct (0 <? length (str_splitlines false new_text))%nat; [|reflexivity].
  unfold Qdiv. simpl. ring.
Qed.

(** X3: every line reported is stripped: an addition, a deletion and both
    sides of a modification have no white space at either end. *)
Theorem reported_lines_stripped (old_text new_text : string) :
  let r := detect_text_changes old_text new_text in
  Forall (fun line => str_strip line = line) (additions r) /\
  Forall (fun line => str_strip line = line) (deletions r) /\
  Forall (fun m => str_strip (old m) = old m /\ str_strip (new m) = new m)
         (modifications r).
Proof.
  intros r.
  set (raw := raw_changes old_text new_text).
  assert (Hraw : Forall (fun line => str_strip line = line) raw.1
                 /\ Forall (fun line => str_strip line = line) raw.2).
  { apply parse_diff_loop; [|constructor|constructor].
    intros line. apply str_strip_idem. }
  destruct Hraw as [Hadds Hdels].
  assert (Hr : r = detect_text_changes old_text new_text) by reflexivity.
  unfold ChangeDetector.detect_text_changes in Hr.
  fold raw in Hr. destruct raw as [adds dels] eqn:Eraw. simpl in Hadds, Hdels.
  set (ms := _detect_modifications dels adds) in *.
  pose proof (ChangeDetectorFacts.remove_matched_sublist ms dels adds) as [Hd Ha].
  destruct (fold_left remove_matched ms (dels, adds)) as [dels' adds'] eqn:Est.
  simpl in Hd, Ha. clearbody r. subst r. simpl.
  pose proof (ChangeDetectorFacts.detect_modifications_pairing ratio dels adds) as Hp.
  fold ms in Hp.
  pose proof (ChangeDetectorFacts.pairing_olds ratio _ _ _ _ Hp) as Ho.
  pose proof (ChangeDetectorFacts.pairing_news compare ratio _ _ _ _ Hp) as Hn.
  rewrite ChangeDetectorFacts.unmatched_from_empty in Hn.
  split; [|split].
  - rewrite Forall_forall in Hadds |- *. intros x Hx. apply Hadds.
    eapply elem_of_sublist; eassumption.
  - rewrite Forall_forall in Hdels |- *. intros x Hx. apply Hdels.
    eapply elem_of_sublist; eassumption.
  - rewrite Forall_forall in Hadds. rewrite Forall_forall in Hdels.
    rewrite Forall_forall. intros m Hm. split.
    + apply Hdels. eapply elem_of_sublist; [|exact Ho].
      apply list_elem_of_fmap. by exists m.
    + apply Hadds. eapply elem_of_submseteq; [|exact Hn].
      apply list_elem_of_fmap. by exists m.
Qed.

End DifflibMore.

(** X4: more changes never lower the tier: if every list of a second
    result contains the corresponding list of the first as a sublist, the
    second tier is at least the first. *)
Theorem significance_monotone
    (a a' d d' : list string) (m m' : list Modification) :
  a `sublist_of` a' -> d `sublist_of` d' -> m `sublist_of` m' ->
  tier_rank (_determine_significance a d m)
  <= tier_rank (_determine_significance a' d' m').
Proof.
  intros Ha Hd Hm. rewrite !significance_by_count. cbv zeta.
  assert (Hc : critical_occurrences a d m <= critical_occurrences a' d' m').
  { unfold critical_occurrences.
    pose proof (filter_sublist_length _contains_critical_keyword _ _ Ha).
    pose proof (filter_sublist_length _contains_critical_keyword _ _ Hd).
    pose proof (filter_sublist_length
                  (fun m => _contains_critical_keyword (old m)
                            || _contains_critical_keyword (new m)) _ _ Hm).
    lia. }
  apply sublist_length in Ha, Hd, Hm.
  generalize dependent (critical_occurrences a d m).
  generalize dependent (critical_occurrences a' d' m').
  intros c' c Hc.
  destruct (Nat.leb_spec 3 c), (Nat.leb_spec 3 c'), (Nat.leb_spec 1 c),
    (Nat.leb_spec 1 c'),
    (Nat.ltb_spec 20 (length a + length d + length m)),
    (Nat.ltb_spec 20 (length a' + length d' + length m')); simpl; lia.
Qed.

(** X5: ['critical_changes'] lists the critical additions, then the
    critical deletions, then the modifications with a critical side, each in
    the order of its list; its length decides between the tiers CRITICAL,
    HIGH and the two lower ones. *)
Theorem critical_changes_decide_tier
    (additions deletions : list string) (modifications : list Modification) :
  let critical := _identify_critical_changes additions deletions modifications in
  let tier := _determine_significance additions deletions modifications in
  critical =
    map addition_entry (List.filter _contains_critical_keyword additions)
    ++ map deletion_entry (List.filter _contains_critical_keyword deletions)
    ++ map modification_entry
         (List.filter (fun m => _contains_critical_keyword (old m)
                                || _contains_critical_keyword (new m))
                      modifications) /\
  (tier = CRITICAL <-> 3 <= length critical) /\
  (tier = HIGH <-> 1 <= length critical < 3) /\
  (tier = MEDIUM \/ tier = LOW <-> critical = []).
Proof.
  intros critical tier.
  assert (Hc : critical = _identify_critical_changes additions deletions modifications)
    by reflexivity.
  rewrite identify_critical_changes_filters in Hc.
  assert (Hlen : length critical
                 = critical_occurrences additions deletions modifications).
  { rewrite Hc. unfold critical_occurrences. rewrite !length_app, !length_map. lia. }
  split; [exact Hc|].
  assert (Ht : tier = _determine_significance additions deletions modifications)
    by reflexivity.
  rewrite significance_by_count in Ht. cbv zeta in Ht. rewrite <- Hlen in Ht.
  clear Hc Hlen. clearbody critical tier.
  assert (Hnil : critical = [] <-> length critical = 0)
    by (destruct critical; simpl; split; (lia || discriminate || reflexivity)).
  rewrite Hnil.
  destruct (Nat.leb_spec 3 (length critical)) as [H3|H3];
    [|destruct (Nat.leb_spec 1 (length critical)) as [H1|H1];
      [|destruct (20 <? _)%nat]];
    subst tier; (split; [|split]); split; intros Hx;
    try lia; try discriminate; try reflexivity;
    try (destruct Hx; discriminate); auto.
Qed.

(** X6: the keywords given with a critical change are not empty and are
    exactly the critical keywords that its text contains once lower-cased;
    for a modification, those that either side contains. *)
Theorem critical_change_keywords
    (additions deletions : list string) (modifications : list Modification) :
  Forall (fun c =>
            match c with
            | CriticalAddition content keywords
            | CriticalDeletion content keywords =>
                keywords <> [] /\
                forall k, k ∈ keywords <->
                          k ∈ critical_keywords
                          /\ str_in k (str_lower content) = true
            | CriticalModification old_content new_content keywords =>
                keywords <> ∅ /\
                forall k, k ∈ keywords <->
                          k ∈ critical_keywords
                          /\ (str_in k (str_lower old_content) = true
                              \/ str_in k (str_lower new_content) = true)
            end)
         (_identify_critical_changes additions deletions modifications).
Proof.
  rewrite identify_critical_changes_filters.
  rewrite !Forall_app, !Forall_fmap, !Forall_forall.
  split; [|split].
  - intros add Hadd. apply list_elem_of_In, filter_In in Hadd as [_ Hc]. simpl.
    split; [by apply extract_nonempty|]. intros k. apply extract_spec.
  - intros del Hdel. apply list_elem_of_In, filter_In in Hdel as [_ Hc]. simpl.
    split; [by apply extract_nonempty|]. intros k. apply extract_spec.
  - intros m Hm. apply list_elem_of_In, filter_In in Hm as [_ Hc]. simpl.
    split.
    + intros Hempty.
      apply orb_true_iff in Hc as [Hc|Hc]; apply extract_nonempty in Hc;
        destruct (_extract_critical_keywords (old m)) as [|k1 l1] eqn:E1;
        destruct (_extract_critical_keywords (new m)) as [|k2 l2] eqn:E2;
        try congruence; simpl in Hempty; set_solver.
    + intros k. rewrite elem_of_list_to_set, elem_of_app, !extract_spec. tauto.
Qed.

Lemma nil_by_length {A B : Type} (l : list A) (l' : list B) :
  length l = length l' -> is_nil_list l = is_nil_list l'.
Proof. destruct l, l'; simpl; congruence. Qed.

(** X7: the summary shows the three counts and the first three additions
    and deletions, nothing else: two results with the same counts and the
    same first three additions and deletions have the same summary. *)
Theorem summary_reads_counts_and_first_three
    (a a' d d' : list string) (m m' : list Modification) :
  length a = length a' -> take 3 a = take 3 a' ->
  length d = length d' -> take 3 d = take 3 d' ->
  length m = length m' ->
  _generate_changes_summary a d m = _generate_changes_summary a' d' m'.
Proof.
  intros Hla Hta Hld Htd Hlm. unfold _generate_changes_summary.
  rewrite (nil_by_length a a' Hla), (nil_by_length d d' Hld),
    (nil_by_length m m' Hlm), Hla, Hld, Hlm, Hta, Htd.
  reflexivity.
Qed.

Lemma append_nonempty (a b : string) : a <> EmptyString -> a +:+ b <> EmptyString.
Proof. destruct a; [done|]. intros _. rewrite PyFacts.append_cons. discriminate. Qed.

Lemma join_head (sep x y : string) (l : list string) :
  str_join sep (x :: y :: l) = x +:+ sep +:+ str_join sep (y :: l).
Proof. reflexivity. Qed.

Lemma summary_of_changes (a d : list string) (m : list Modification) :
  is_nil_list a && is_nil_list d && is_nil_list m = false ->
  exists rest, _generate_changes_summary a d m = String "D" rest.
Proof.
  intros H. unfold _generate_changes_summary.
  match goal with
  | |- context [if is_nil_list ?parts then "No changes detected" else _] =>
      assert (Hp : is_nil_list parts = false)
  end.
  { destruct a, d, m; try discriminate H; reflexivity. }
  rewrite Hp.
  match goal with
  | |- context [if ?c then _ else _] => destruct c
  end; rewrite ?PyFacts.append_cons; eauto.
Qed.

Lemma format_of_changes (a d : list string) (m : list Modification) :
  is_nil_list a && is_nil_list d && is_nil_list m = false ->
  exists c rest, _format_diff a d m = String c rest.
Proof.
  intros H. unfold _format_diff.
  destruct a as [|x a].
  - destruct d as [|y d].
    + destruct m as [|z m]; [discriminate H|].
      cbn [is_nil_list app flat_map]. rewrite join_head, PyFacts.append_cons. eauto.
    + cbn [is_nil_list app map].
      destruct (is_nil_list m); cbn [app]; rewrite join_head, PyFacts.append_cons; eauto.
  - cbn [is_nil_list app map].
    destruct (is_nil_list d), (is_nil_list m); cbn [app];
      rewrite join_head, PyFacts.append_cons; eauto.
Qed.

Lemma no_change_nil (a d : list string) (m : list Modification) :
  is_nil_list a && is_nil_list d && is_nil_list m = true
  <-> a = [] /\ d = [] /\ m = [].
Proof.
  destruct a, d, m; simpl; split; try discriminate; try tauto;
    intros (? & ? & ?); discriminate.
Qed.

(** X8: the summary is ["No changes detected"], and the formatted diff is
    empty, exactly when there is no addition, deletion or modification. *)
Theorem nothing_reported_iff_no_change
    (a d : list string) (m : list Modification) :
  (_generate_changes_summary a d m = "No changes detected"
   <-> a = [] /\ d = [] /\ m = []) /\
  (_format_diff a d m = "" <-> a = [] /\ d = [] /\ m = []).
Proof.
  rewrite <- no_change_nil.
  destruct (is_nil_list a && is_nil_list d && is_nil_list m) eqn:E.
  - apply no_change_nil in E as (-> & -> & ->). by repeat split.
  - destruct (summary_of_changes a d m E) as [rest ->].
    destruct (format_of_changes a d m E) as (c & rest' & ->).
    repeat split; discriminate.
Qed.

(** *** Examples *)

(** A text compared with itself. *)
Lemma unchanged_delta_empty_result_witness :
  detect_text_changes lines_compare lcs_ratio example_two_lines example_two_lines =
  {| additions := []; deletions := []; modifications := [];
     change_percentage := 0; significance := LOW |}.
Proof.
  apply (unchanged_delta_empty_result lines_compare lcs_ratio
           example_two_lines example_two_lines).
  vm_compute. repeat constructor.
Defined.

(** A change of layout alone is LOW; with a price added and a closing date
    deleted besides, the tier is HIGH. *)
Lemma significance_monotone_witness :
  tier_rank (_determine_significance ["The font is now bold."] [] [])
  <= tier_rank (_determine_significance
                  ["The font is now bold."; "Purchase Price: $500,000"]
                  ["Closing Date: Jan 15"] []).
Proof.
  apply (significance_monotone
           ["The font is now bold."]
           ["The font is now bold."; "Purchase Price: $500,000"]
           [] ["Closing Date: Jan 15"] [] []).
  - apply sublist_skip, sublist_cons, sublist_nil.
  - apply sublist_cons, sublist_nil.
  - apply sublist_nil.
Defined.

(** A critical fourth addition does not show in the summary. *)
Lemma summary_reads_counts_and_first_three_witness :
  _generate_changes_summary
    ["Page 2 of 7"; "Page 3 of 7"; "Page 4 of 7"; "Closing Date: Jan 16"] [] []
  = _generate_changes_summary
      ["Page 2 of 7"; "Page 3 of 7"; "Page 4 of 7"; "Page 5 of 7"] [] [].
Proof.
  apply (summary_reads_counts_and_first_three
           ["Page 2 of 7"; "Page 3 of 7"; "Page 4 of 7"; "Closing Date: Jan 16"]
           ["Page 2 of 7"; "Page 3 of 7"; "Page 4 of 7"; "Page 5 of 7"]
           [] [] [] []); reflexivity.
Defined.

End ChangeReportFacts.

(** ** Warnings and failures of [detect_visual_changes] *)

Module VisualReportFacts.
Import Py ChangeDetector ChangeDetector.Visual.

(** Case analysis on membership in a list that is written out. *)
Ltac list_cases H :=
  simpl in H;
  repeat match type of H with
         | _ ∈ _ :: _ => apply elem_of_cons in H as [H|H]; [subst|]
         | _ ∈ [] => by apply elem_of_nil in H
         end.

Section ImagingMore.

Variable Image : Type.
Variable PDF_AVAILABLE : bool.
Variable convert_from_path : string -> result (list Image).
Variable _compare_images : Image -> Image -> nat -> result (Image * PageChanges).
Variable save : list Image -> string -> result unit.

Local Abbreviation compare_pages := (compare_pages Image _compare_images).
Local Abbreviation report_pages := (report_pages Image _compare_images save).
Local Abbreviation try_detect :=
  (try_detect Image convert_from_path _compare_images save).
Local Abbreviation detect_visual_changes :=
  (detect_visual_changes Image PDF_AVAILABLE convert_from_path _compare_images save).

(** [report_pages] adds nothing to the log but the line on the saved file. *)
Lemma report_pages_log old_images new_images output_path log :
  exists extra,
    (report_pages old_images new_images output_path log).1 = log ++ extra /\
    Forall (fun entry => entry.1 = INFO) extra.
Proof.
  unfold ChangeDetector.Visual.report_pages.
  destruct (compare_pages 0 old_images new_images) as [[hs cs]|e];
    [|exists []; by rewrite app_nil_r].
  destruct output_path as [path|], hs as [|h hs];
    try case_decide; try destruct (save _ _); simpl;
    try (exists []; by rewrite app_nil_r).
  eexists. split; [reflexivity|]. by repeat constructor.
Qed.

(** The loop raises what the first failing page raises. *)
Lemma compare_pages_first_failure i old_images new_images k o nw e :
  old_images !! k = Some o -> new_images !! k = Some nw ->
  (forall j o' nw', j < k ->
     old_images !! j = Some o' -> new_images !! j = Some nw' ->
     exists res, _compare_images o' nw' (i + j + 1) = Ok res) ->
  _compare_images o nw (i + k + 1) = Raise e ->
  compare_pages i old_images new_images = Raise e.
Proof.
  revert i k new_images.
  induction old_images as [|o0 olds IH]; intros i k [|n0 news] Ho Hn Hbefore He;
    try discriminate.
  destruct k as [|k]; simpl in Ho, Hn.
  - injection Ho as ->. injection Hn as ->. simpl.
    replace (i + 0 + 1) with (i + 1) in He by lia. by rewrite He.
  - simpl.
    destruct (Hbefore 0 o0 n0) as [res Hres]; [lia|reflexivity|reflexivity|].
    replace (i + 0 + 1) with (i + 1) in Hres by lia. rewrite Hres. simpl.
    rewrite (IH (S i) k news Ho Hn); [reflexivity| |].
    + intros j o' nw' Hj Ho' Hn'.
      destruct (Hbefore (S j) o' nw') as [res' Hres']; [lia|done|done|].
      exists res'. rewrite <- Hres'. f_equal. lia.
    + rewrite <- He. f_equal. lia.
Qed.

(** X9: the page-count warning is logged exactly when both documents could
    be read and differ in their number of pages, whatever happens to the
    comparison afterwards. *)
Theorem warning_iff_page_counts_differ old_pdf_path new_pdf_path output_path :
  (exists entry, entry ∈ (detect_visual_changes old_pdf_path new_pdf_path
                            output_path).1
                 /\ entry.1 = WARNING)
  <->
  PDF_AVAILABLE = true /\
  exists old_images new_images,
    convert_from_path old_pdf_path = Ok old_images /\
    convert_from_path new_pdf_path = Ok new_images /\
    length old_images <> length new_images.
Proof.
  unfold ChangeDetector.Visual.detect_visual_changes,
    ChangeDetector.Visual.try_detect.
  destruct PDF_AVAILABLE; simpl.
  2: { split; [|intros [? _]; discriminate].
       intros (entry & Hin & Hw). list_cases Hin. discriminate. }
  destruct (convert_from_path old_pdf_path) as [old_images|e1].
  2: { split; [|intros (_ & ? & ? & ? & _); discriminate].
       intros (entry & Hin & Hw). list_cases Hin; discriminate. }
  destruct (convert_from_path new_pdf_path) as [new_images|e2].
  2: { split; [|intros (_ & ? & ? & _ & ? & _); discriminate].
       intros (entry & Hin & Hw). list_cases Hin; discriminate. }
  match goal with
  | |- context [ChangeDetector.Visual.report_pages _ _ _ _ _ _ ?l] => set (log0 := l)
  end.
  destruct (report_pages_log old_images new_images output_path log0)
    as (extra & Hlog & Hextra).
  assert (Hout : forall entry,
             entry.1 = WARNING ->
             entry ∈ (match report_pages old_images new_images output_path log0 with
                      | (log, Ok changes) => (log, Success changes)
                      | (log, Raise e) =>
                          (log ++ [(ERROR, "Visual change detection failed: "
                                           +:+ exn_str e)],
                           Failure (exn_str e))
                      end).1
             <-> entry ∈ log0).
  { intros entry Hw.
    destruct (report_pages old_images new_images output_path log0) as [log [changes|e]];
      simpl in Hlog |- *; subst log.
    - rewrite elem_of_app. split; [|by left]. intros [H|H]; [done|].
      rewrite Forall_forall in Hextra. apply Hextra in H. congruence.
    - rewrite !elem_of_app. split; [|by left; left]. intros [[H|H]|H]; [done| |].
      + rewrite Forall_forall in Hextra. apply Hextra in H. congruence.
      + apply list_elem_of_singleton in H. subst entry. discriminate. }
  split.
  - intros (entry & Hin & Hw). split; [reflexivity|].
    exists old_images, new_images. split; [reflexivity|]. split; [reflexivity|].
    apply (Hout entry Hw) in Hin. unfold log0 in Hin.
    destruct (decide (length old_images ≠ length new_images)) as [Hne|Heq]; [done|].
    apply list_elem_of_singleton in Hin. subst entry. discriminate.
  - intros (_ & old_images' & new_images' & [= <-] & [= <-] & Hne).
    eexists. split; [apply Hout; [|unfold log0]|]; cycle 1.
    + destruct (decide (length old_images ≠ length new_images)); [|done].
      apply list_elem_of_further, list_elem_of_here.
    + reflexivity.
    + reflexivity.
Qed.

(** X10: a page that cannot be compared fails the whole call: when the
    first page whose comparison raises is page [k + 1], the report is the
    failure with that exception's text, logged as an error, and no page's
    result is returned. *)
Theorem failing_page_fails_report
    old_pdf_path new_pdf_path output_path old_images new_images k o nw e :
  PDF_AVAILABLE = true ->
  convert_from_path old_pdf_path = Ok old_images ->
  convert_from_path new_pdf_path = Ok new_images ->
  old_images !! k = Some o -> new_images !! k = Some nw ->
  (forall j o' nw', j < k ->
     old_images !! j = Some o' -> new_images !! j = Some nw' ->
     exists res, _compare_images o' nw' (j + 1) = Ok res) ->
  _compare_images o nw (k + 1) = Raise e ->
  let out := detect_visual_changes old_pdf_path new_pdf_path output_path in
  out.2 = Failure (exn_str e) /\
  last out.1 = Some (ERROR, "Visual change detection failed: " +:+ exn_str e).
Proof.
  intros Havail Hold Hnew Ho Hn Hbefore He out.
  unfold out, ChangeDetector.Visual.detect_visual_changes,
    ChangeDetector.Visual.try_detect, ChangeDetector.Visual.report_pages.
  rewrite Havail, Hold, Hnew. simpl.
  rewrite (compare_pages_first_failure 0 old_images new_images k o nw e Ho Hn Hbefore He).
  simpl. split; [reflexivity|]. apply last_snoc.
Qed.

(** X11: when either document has no page, the call succeeds with no page
    compared: zero pages, zero changes, no file written, and the average of
    no percentage, which is NaN. *)
Theorem empty_document_report
    old_pdf_path new_pdf_path output_path old_images new_images :
  PDF_AVAILABLE = true ->
  convert_from_path old_pdf_path = Ok old_images ->
  convert_from_path new_pdf_path = Ok new_images ->
  old_images = [] \/ new_images = [] ->
  (detect_visual_changes old_pdf_path new_pdf_path output_path).2 =
  Success {| visual_diff_url := None;
             page_count := 0;
             total_changes := 0;
             average_change_percentage := None;
             page_changes := [] |}.
Proof.
  intros Havail Hold Hnew Hempty.
  unfold ChangeDetector.Visual.detect_visual_changes,
    ChangeDetector.Visual.try_detect, ChangeDetector.Visual.report_pages.
  rewrite Havail, Hold, Hnew. simpl.
  assert (Hc : compare_pages 0 old_images new_images = Ok ([], [])).
  { destruct Hempty as [-> | ->]; [reflexivity|]. by destruct old_images. }
  rewrite Hc. by destruct output_path.
Qed.

(** X12: every failure is logged, and only failures are: the last line of
    the log is an error exactly when the report is a failure, and it then
    ends with the report's error text, except where [pdf2image] is missing. *)
Theorem failure_iff_error_logged old_pdf_path new_pdf_path output_path :
  let out := detect_visual_changes old_pdf_path new_pdf_path output_path in
  match out.2 with
  | Failure error =>
      exists text, last out.1 = Some (ERROR, text) /\
                   (PDF_AVAILABLE = true ->
                    text = "Visual change detection failed: " +:+ error)
  | Success _ => Forall (fun entry => entry.1 <> ERROR) out.1
  end.
Proof.
  intros out. unfold out, ChangeDetector.Visual.detect_visual_changes.
  destruct PDF_AVAILABLE; simpl; [|eexists; split; [reflexivity|discriminate]].
  destruct (try_detect old_pdf_path new_pdf_path output_path) as [log [changes|e]] eqn:E;
    simpl.
  - revert E. unfold ChangeDetector.Visual.try_detect.
    destruct (convert_from_path old_pdf_path) as [old_images|e1]; [|discriminate].
    destruct (convert_from_path new_pdf_path) as [new_images|e2]; [|discriminate].
    match goal with
    | |- context [ChangeDetector.Visual.report_pages _ _ _ _ _ _ ?l] => set (log0 := l)
    end.
    destruct (report_pages_log old_images new_images output_path log0)
      as (extra & Hlog & Hextra).
    intros E. rewrite E in Hlog. simpl in Hlog. subst log.
    apply Forall_app. split.
    + unfold log0. destruct (decide (length old_images ≠ length new_images));
        repeat constructor; discriminate.
    + eapply Forall_impl; [exact Hextra|]. intros entry ->. discriminate.
  - eexists. split; [apply last_snoc|]. reflexivity.
Qed.

End ImagingMore.

Lemma failing_page_fails_report_witness :
  let out := detect_visual_changes nat true example_convert example_compare_failing
               example_save "old.pdf" "new.pdf" None in
  out.2 = Failure "OpenCV: bad image" /\
  last out.1 = Some (ERROR, "Visual change detection failed: OpenCV: bad image").
Proof.
  apply (failing_page_fails_report nat true example_convert example_compare_failing
           example_save "old.pdf" "new.pdf" None [1; 2] [1; 7; 3] 1 2 7
           (Exception "error" "OpenCV: bad image")); try reflexivity.
  intros j o' nw' Hj Ho' Hn'.
  destruct j as [|j]; [|lia].
  injection Ho' as <-. injection Hn' as <-. eexists. reflexivity.
Defined.

Lemma empty_document_report_witness :
  (detect_visual_changes nat true
     (fun path => if decide (path = "empty.pdf") then Ok [] else Ok [1; 2])
     example_compare example_save "empty.pdf" "new.pdf" (Some "diff.pdf")).2 =
  Success {| visual_diff_url := None;
             page_count := 0;
             total_changes := 0;
             average_change_percentage := None;
             page_changes := [] |}.
Proof.
  apply (empty_document_report nat true
           (fun path => if decide (path = "empty.pdf") then Ok [] else Ok [1; 2])
           example_compare example_save "empty.pdf" "new.pdf" (Some "diff.pdf")
           [] [1; 2]); try reflexivity.
  by left.
Defined.

End VisualReportFacts.

(** ** The report of [check_compliance], check by check *)

Module ComplianceReportFacts.
Import Py ComplianceChecker.

(** Case analysis on membership in a list that is written out. *)
Ltac list_cases H :=
  simpl in H;
  repeat match type of H with
         | _ ∈ _ :: _ => apply elem_of_cons in H as [H|H]; [subst|]
         | _ ∈ [] => by apply elem_of_nil in H
         end.

Lemma bump_le (c : Check) (st : Status) : bump c st <= 1.
Proof. unfold bump. case_decide; lia. Qed.

Lemma bump_one (c : Check) (st : Status) : bump c st = 1 <-> status c = st.
Proof. unfold bump. case_decide; split; (done || lia). Qed.

Lemma status_for_non_compliant (critical warnings : nat) :
  status_for critical warnings = NON_COMPLIANT <-> 0 < critical.
Proof.
  unfold status_for.
  destruct (Nat.ltb_spec 0 critical); [by split|].
  destruct (2 <? warnings)%nat, (0 <? warnings)%nat; split; (discriminate || lia).
Qed.

(** The rule sets of the catalog. *)
Lemma rules_lookup (category : string) (rule_set : gmap string (list string)) :
  rules !! category = Some rule_set ->
  (category, rule_set) ∈
    map (fun name => (name, default ∅ (rules !! name)))
        ["SETTLEMENT_STATEMENT"; "PURCHASE_AGREEMENT"; "LOAN_APPLICATION";
         "TITLE_INSURANCE"; "DEED"].
Proof.
  intros H. unfold rules in H. apply elem_of_list_to_map_2 in H.
  list_cases H; injection H as -> ->; simpl.
  - apply list_elem_of_here.
  - do 1 apply list_elem_of_further. apply list_elem_of_here.
  - do 2 apply list_elem_of_further. apply list_elem_of_here.
  - do 3 apply list_elem_of_further. apply list_elem_of_here.
  - do 4 apply list_elem_of_further. apply list_elem_of_here.
Qed.

(** A loop that collects the elements with a property is a filter. *)
Lemma collect_filter {A : Type} (p : A -> bool) (l acc : list A) :
  fold_left (fun missing x => if p x then missing ++ [x] else missing) l acc
  = acc ++ List.filter p l.
Proof.
  revert acc. induction l as [|x l IH]; intros acc; simpl.
  - by rewrite app_nil_r.
  - rewrite IH. destruct (p x); simpl; [|done]. by rewrite <- app_assoc.
Qed.

Lemma is_nil_true {A : Type} (l : list A) : is_nil l = true <-> l = [].
Proof. destruct l; simpl; split; (done || discriminate). Qed.

(** X13: the overall status is never PARTIALLY_COMPLIANT, since only the
    date check and the amount check can warn; a report asks for review
    exactly when it is NON_COMPLIANT, which is exactly when it has a
    critical issue. *)
Theorem never_partially_compliant now category data r :
  check_compliance now category data = Ok r ->
  warnings r <= 2 /\
  suggestions r <= 1 /\
  overall_status r <> PARTIALLY_COMPLIANT /\
  (requires_review r = true <-> overall_status r = NON_COMPLIANT) /\
  (overall_status r = NON_COMPLIANT <-> 0 < critical_issues r).
Proof.
  intros H. apply ComplianceCheckerFacts.check_compliance_inv in H.
  destruct H as (fc & sc & cls & dc & ac & fmc & _ & _ & _ & _ & _ & _ & _ & _
                 & Hwarn & Hsugg & Hover & Hrev & _).
  assert (Hw : warnings r <= 2).
  { rewrite Hwarn. pose proof (bump_le dc WARNING). pose proof (bump_le ac WARNING). lia. }
  split; [exact Hw|]. split; [rewrite Hsugg; apply bump_le|].
  rewrite Hrev, Hover. clear Hwarn Hsugg Hover Hrev.
  pose proof (status_for_non_compliant (critical_issues r) (warnings r)) as Hnc.
  assert (H2 : (2 <? warnings r)%nat = false) by (apply Nat.ltb_ge; lia).
  split; [|split; [|exact Hnc]].
  - unfold status_for. rewrite H2.
    destruct (0 <? critical_issues r)%nat, (0 <? warnings r)%nat; discriminate.
  - rewrite Hnc, H2, orb_false_r. apply Nat.ltb_lt.
Qed.

(** X14: [missing_fields] lists, in the order of the rules, the required
    fields whose value is [None] or a blank string; one such field makes the
    report NON_COMPLIANT. *)
Theorem missing_fields_listed now category data r :
  check_compliance now category data = Ok r ->
  let required := default [] (default ∅ (rules !! category) !! "required_fields") in
  missing_fields r
    = List.filter (fun field => is_blank (_get_nested_value data field)) required /\
  (forall field,
     field ∈ required -> is_blank (_get_nested_value data field) = true ->
     overall_status r = NON_COMPLIANT /\ requires_review r = true).
Proof.
  intros H required. apply ComplianceCheckerFacts.check_compliance_inv in H.
  fold required in H.
  destruct H as (fc & sc & cls & dc & ac & fmc & Hfc & _ & _ & _ & _ & _ & _ & Hcrit
                 & _ & _ & Hover & Hrev & Hmiss & _).
  assert (Hd : details fc
               = List.filter (fun field => is_blank (_get_nested_value data field))
                             required).
  { rewrite Hfc. unfold _check_required_fields. simpl.
    by rewrite (collect_filter (fun field => is_blank (_get_nested_value data field))). }
  split; [by rewrite Hmiss|].
  intros field Hin Hblank.
  assert (Hfail : status fc = FAIL).
  { assert (Hne : details fc <> []).
    { rewrite Hd. intros Hnil.
      assert (Hf : In field (List.filter
                               (fun field => is_blank (_get_nested_value data field))
                               required))
        by (apply filter_In; split; [by apply list_elem_of_In|done]).
      by rewrite Hnil in Hf. }
    rewrite Hfc in Hne |- *. unfold _check_required_fields in Hne |- *. simpl in *.
    destruct (is_nil _) eqn:E; [|done]. by apply is_nil_true in E. }
  assert (Hpos : 0 < critical_issues r).
  { rewrite Hcrit. apply bump_one in Hfail. lia. }
  rewrite Hrev, Hover. split.
  - by apply status_for_non_compliant.
  - apply orb_true_iff. left. by apply Nat.ltb_lt.
Qed.

Lemma signature_types_spec (role : string) (l : list value) :
  existsb (str_equals role)
    (flat_map (fun sig => match sig with
                          | VDict d => [py_or (get d "type") (get d "signer_role")]
                          | _ => []
                          end) l) = true
  <-> exists d, VDict d ∈ l /\ py_or (get d "type") (get d "signer_role") = VStr role.
Proof.
  rewrite existsb_exists. split.
  - intros (v & Hin & Heq). apply in_flat_map in Hin as (sig & Hsig & Hv).
    destruct sig as [| | | | | |d|]; try (by destruct Hv). destruct Hv as [<-|[]].
    exists d. split; [by apply list_elem_of_In|].
    destruct (py_or _ _); try discriminate. simpl in Heq.
    apply String.eqb_eq in Heq. by subst.
  - intros (d & Hin & Heq). exists (VStr role). split.
    + apply in_flat_map. exists (VDict d). split; [by apply list_elem_of_In|].
      rewrite Heq. by left.
    + simpl. apply String.eqb_refl.
Qed.

(** X15: [missing_signatures] lists the required roles that no dict of
    ['signatures'] gives as its ['type'] or, failing that, its
    ['signer_role']; a value of ['signatures'] that is not a list signs for
    nobody; one missing role makes the report NON_COMPLIANT. *)
Theorem missing_signatures_listed now category data r :
  check_compliance now category data = Ok r ->
  let required :=
    default [] (default ∅ (rules !! category) !! "required_signatures") in
  let signatures := get_default data "signatures" (VList []) in
  (forall role, role ∈ missing_signatures r
                <-> role ∈ required /\ ~ signed_as role signatures) /\
  (forall role, role ∈ required -> ~ signed_as role signatures ->
                overall_status r = NON_COMPLIANT /\ requires_review r = true).
Proof.
  intros H required signatures. apply ComplianceCheckerFacts.check_compliance_inv in H.
  fold required signatures in H.
  destruct H as (fc & sc & cls & dc & ac & fmc & _ & Hsc & _ & _ & _ & _ & _ & Hcrit
                 & _ & _ & Hover & Hrev & _ & Hmiss & _).
  assert (Hd : forall role, role ∈ details sc
                            <-> role ∈ required /\ ~ signed_as role signatures).
  { intros role. rewrite Hsc. unfold _check_signatures. simpl.
    rewrite list_elem_of_In, filter_In, <- list_elem_of_In, negb_true_iff.
    apply and_iff_compat_l. rewrite <- not_true_iff_false.
    apply not_iff_compat. unfold signed_as.
    destruct signatures as [| | | | |l| |].
    6: { rewrite signature_types_spec. split.
         - intros (d & Hin & Heq). by exists l, d.
         - intros (l' & d & [= <-] & Hin & Heq). by exists d. }
    all: simpl; split; [discriminate|]; intros (l' & d' & Hl & _); discriminate. }
  split; [intros role; by rewrite Hmiss|].
  intros role Hin Hnot.
  assert (Hfail : status sc = FAIL).
  { assert (Hne : details sc <> []).
    { intros Hnil. assert (Hr : role ∈ details sc) by (by apply Hd).
      rewrite Hnil in Hr. by apply elem_of_nil in Hr. }
    rewrite Hsc in Hne |- *. unfold _check_signatures in Hne |- *. simpl in *.
    destruct (is_nil _) eqn:E; [|done]. by apply is_nil_true in E. }
  assert (Hpos : 0 < critical_issues r).
  { rewrite Hcrit. apply bump_one in Hfail. lia. }
  rewrite Hrev, Hover. split.
  - by apply status_for_non_compliant.
  - apply orb_true_iff. left. by apply Nat.ltb_lt.
Qed.

(** *** Examples of the missing fields and signatures *)

Lemma never_partially_compliant_witness :
  exists r,
    check_compliance example_now "PURCHASE_AGREEMENT" example_late_agreement = Ok r /\
    warnings r <= 2 /\
    suggestions r <= 1 /\
    overall_status r <> PARTIALLY_COMPLIANT /\
    (requires_review r = true <-> overall_status r = NON_COMPLIANT) /\
    (overall_status r = NON_COMPLIANT <-> 0 < critical_issues r).
Proof.
  eexists. split; [vm_compute; reflexivity|].
  apply (never_partially_compliant example_now "PURCHASE_AGREEMENT"
           example_late_agreement).
  vm_compute. reflexivity.
Defined.

(** A settlement statement with the buyer's name alone. *)
Lemma missing_fields_listed_witness :
  exists r,
    check_compliance example_now "SETTLEMENT_STATEMENT" example_bad_contacts = Ok r /\
    missing_fields r
      = ["seller_name"; "property_address"; "sale_price"; "closing_date";
         "loan_amount"] /\
    overall_status r = NON_COMPLIANT /\ requires_review r = true.
Proof.
  assert (Hr : exists r, check_compliance example_now "SETTLEMENT_STATEMENT"
                           example_bad_contacts = Ok r)
    by (eexists; vm_compute; reflexivity).
  destruct Hr as [r Hr]. exists r. split; [exact Hr|].
  destruct (missing_fields_listed example_now "SETTLEMENT_STATEMENT"
              example_bad_contacts r Hr) as [Hlist Hfail].
  split; [rewrite Hlist; vm_compute; reflexivity|].
  apply (Hfail "seller_name"); vm_compute; [|reflexivity].
  apply list_elem_of_further, list_elem_of_here.
Defined.

(** The agreement of the examples, read as a settlement statement: the
    closing agent has not signed. *)
Lemma missing_signatures_listed_witness :
  exists r,
    check_compliance example_now "SETTLEMENT_STATEMENT" example_late_agreement = Ok r /\
    ("closing_agent" ∈ missing_signatures r) /\
    overall_status r = NON_COMPLIANT /\ requires_review r = true.
Proof.
  assert (Hr : exists r, check_compliance example_now "SETTLEMENT_STATEMENT"
                           example_late_agreement = Ok r)
    by (eexists; vm_compute; reflexivity).
  destruct Hr as [r Hr]. exists r. split; [exact Hr|].
  destruct (missing_signatures_listed example_now "SETTLEMENT_STATEMENT"
              example_late_agreement r Hr) as [Hlist Hfail].
  assert (Hreq : "closing_agent"
                 ∈ default [] (default ∅ (rules !! "SETTLEMENT_STATEMENT")
                               !! "required_signatures")).
  { vm_compute. do 2 apply list_elem_of_further. apply list_elem_of_here. }
  assert (Hnot : ~ signed_as "closing_agent"
                     (get_default example_late_agreement "signatures" (VList []))).
  { intros (l & d & Hl & Hin & Heq). vm_compute in Hl. injection Hl as <-.
    list_cases Hin; injection Hin as ->; vm_compute in Heq; discriminate. }
  split; [by apply Hlist|]. by apply (Hfail "closing_agent").
Defined.

(** *** Dates *)

Lemma date_step_grows now data issues check :
  exists extra, date_step now data issues check = issues ++ extra /\ length extra <= 1.
Proof.
  assert (Hsame : exists extra, issues = issues ++ extra /\ length extra <= 1)
    by (exists []; rewrite app_nil_r; simpl; split; [done|lia]).
  assert (Hone : forall msg, exists extra,
               issues ++ [msg] = issues ++ extra /\ length extra <= 1)
    by (intros msg; exists [msg]; simpl; split; [done|lia]).
  unfold date_step.
  repeat match goal with
         | |- context [if ?b then _ else _] => destruct b
         | |- context [match ?o with Some _ => _ | None => _ end] => destruct o
         end; auto.
Qed.

Lemma date_issues_bounded now data checks issues :
  length (fold_left (date_step now data) checks issues) <= length issues + length checks.
Proof.
  revert issues. induction checks as [|check checks IH]; intros issues; simpl; [lia|].
  destruct (date_step_grows now data issues check) as (extra & -> & Hle).
  etrans; [apply IH|]. rewrite length_app. lia.
Qed.

Lemma date_checks_at_most_two (category : string) :
  length (default [] (default ∅ (rules !! category) !! "date_checks")) <= 2 /\
  (category <> "SETTLEMENT_STATEMENT" -> category <> "PURCHASE_AGREEMENT" ->
   length (default [] (default ∅ (rules !! category) !! "date_checks")) <= 1).
Proof.
  destruct (rules !! category) as [rule_set|] eqn:E.
  - apply rules_lookup in E. list_cases E; injection E as -> ->;
      (split; [vm_compute; lia|]); intros H1 H2; try done; vm_compute; lia.
  - simpl. rewrite lookup_empty. simpl. split; intros; lia.
Qed.

(** X16: the date check reports at most one issue for each of its checks,
    and no category has more than two; it fails only with two issues. So
    outside SETTLEMENT_STATEMENT and PURCHASE_AGREEMENT the date check never
    fails, and the critical issues are the failures of the fields,
    signatures and clauses checks. *)
Theorem date_check_fails_on_two_issues now category data r :
  check_compliance now category data = Ok r ->
  let date_checks := default [] (default ∅ (rules !! category) !! "date_checks") in
  length (date_inconsistencies r) <= length date_checks /\
  length date_checks <= 2 /\
  (forall c, c ∈ checks r -> check_type c = DATE_CHECK ->
             (status c = FAIL <-> length (date_inconsistencies r) = 2)) /\
  (category <> "SETTLEMENT_STATEMENT" -> category <> "PURCHASE_AGREEMENT" ->
   critical_issues r
   = count_status [REQUIRED_FIELD; SIGNATURE; CLAUSE_CHECK] FAIL (checks r)).
Proof.
  intros H date_checks.
  apply ComplianceCheckerFacts.check_compliance_inv in H.
  fold date_checks in H.
  destruct H as (fc & sc & cls & dc & ac & fmc & Hfc & Hsc & Hcls & Hdc & Hac
                 & Hfmc & Hchecks & Hcrit & _ & _ & _ & _ & _ & _ & Hdates & _).
  destruct (date_checks_at_most_two category) as [Htwo Hone].
  fold date_checks in Htwo, Hone.
  assert (Hlen : length (details dc) <= length date_checks).
  { rewrite Hdc. unfold _check_dates. simpl.
    etrans; [apply date_issues_bounded|]. simpl. lia. }
  assert (Hstatus : status dc = FAIL <-> length (details dc) = 2).
  { rewrite Hdc in Hlen |- *. unfold _check_dates in Hlen |- *. simpl in *.
    destruct (fold_left (date_step now data) date_checks []) as [|i1 [|i2 [|i3 l]]];
      simpl in *; split; try discriminate; try lia; done. }
  destruct (ComplianceCheckerFacts.check_required_fields_shape
              (default [] (default ∅ (rules !! category) !! "required_fields")) data)
    as [Tf Sf]. rewrite <- Hfc in Tf, Sf.
  destruct (ComplianceCheckerFacts.check_signatures_shape
              (default [] (default ∅ (rules !! category) !! "required_signatures"))
              (get_default data "signatures" (VList [])))
    as [Ts Ss]. rewrite <- Hsc in Ts, Ss.
  assert (Td : check_type dc = DATE_CHECK) by (by rewrite Hdc).
  destruct (ComplianceCheckerFacts.check_amounts_shape _ _ _ Hac) as (Ta & Sa & _).
  destruct (ComplianceCheckerFacts.check_format_shape _ _ _ Hfmc) as (Tfm & Sfm & _).
  assert (Hcl : cls = [] \/ exists c, cls = [c] /\ check_type c = CLAUSE_CHECK
                                      /\ (status c = PASS \/ status c = FAIL)).
  { destruct (default ∅ (rules !! category) !! "required_clauses").
    - destruct Hcls as (c & Hc & ->). right. exists c.
      split; [done|]. by eapply ComplianceCheckerFacts.check_required_clauses_shape.
    - by left. }
  rewrite Hdates. split; [exact Hlen|]. split; [exact Htwo|]. split.
  - intros c Hc Tc. rewrite Hchecks in Hc.
    assert (c = dc) as ->; [|exact Hstatus].
    destruct Hcl as [->|(c' & -> & Tc' & _)]; list_cases Hc; congruence.
  - intros H1 H2. specialize (Hone H1 H2).
    assert (Hnf : status dc <> FAIL) by (rewrite Hstatus; lia).
    rewrite Hcrit, Hchecks. clear Hcrit Hchecks Hfc Hsc Hcls Hdc Hac Hfmc.
    destruct Hcl as [->|(c & -> & Tc & Sc)]; simpl.
    all: rewrite ?ComplianceCheckerFacts.count_status_cons,
           ?ComplianceCheckerFacts.count_status_nil, ?Tf, ?Ts, ?Td, ?Ta, ?Tfm, ?Tc.
    all: unfold bump.
    all: destruct Sf as [Sf|Sf], Ss as [Ss|Ss], Sa as [Sa|Sa], Sfm as [Sfm|Sfm];
      rewrite ?Sf, ?Ss, ?Sa, ?Sfm.
    all: try (destruct Sc as [Sc|Sc]; rewrite ?Sc).
    all: destruct (status dc); try reflexivity; done.
Qed.

(** X17: a date that cannot be read is no issue. When none of the dates
    that the checks look at parses, the date check passes, whatever its
    checks and whatever the day. *)
Theorem unparsed_dates_pass now checks data :
  (forall key,
     key ∈ ["closing_date"; "contract_date"; "inspection_deadline";
            "application_date"; "effective_date"; "execution_date"] ->
     _parse_date (get data key) = None) ->
  _check_dates now checks data =
  {| check_name := "Date Consistency";
     check_type := DATE_CHECK;
     status := PASS;
     details := [];
     message := "All dates are consistent";
     severity := None |}.
Proof.
  intros Hnone.
  assert (Hstep : forall issues check, date_step now data issues check = issues).
  { intros issues check. unfold date_step.
    rewrite !(Hnone "closing_date"), !(Hnone "contract_date"),
      !(Hnone "inspection_deadline"), !(Hnone "application_date"),
      !(Hnone "effective_date"), !(Hnone "execution_date");
      try (repeat (apply list_elem_of_here || apply list_elem_of_further)).
    repeat match goal with
           | |- context [if ?b then _ else _] => destruct b
           end; reflexivity. }
  assert (Hfold : forall issues, fold_left (date_step now data) checks issues = issues).
  { induction checks as [|check checks IH]; intros issues; simpl; [done|].
    by rewrite Hstep. }
  unfold _check_dates. rewrite Hfold. reflexivity.
Qed.

(** *** Examples of the date check *)

(** A deed without data. *)
Lemma date_check_fails_on_two_issues_witness :
  exists r,
    check_compliance example_now "DEED" [] = Ok r /\
    length (date_inconsistencies r) <= 1 /\
    critical_issues r
    = count_status [REQUIRED_FIELD; SIGNATURE; CLAUSE_CHECK] FAIL (checks r).
Proof.
  assert (Hr : exists r, check_compliance example_now "DEED" [] = Ok r)
    by (eexists; vm_compute; reflexivity).
  destruct Hr as [r Hr]. exists r. split; [exact Hr|].
  destruct (date_check_fails_on_two_issues example_now "DEED" [] r Hr)
    as (Hlen & _ & _ & Hcrit).
  split; [exact Hlen|]. apply Hcrit; discriminate.
Defined.

Lemma unparsed_dates_pass_witness :
  status (_check_dates example_now
            ["closing_date_in_future"; "closing_date_reasonable"]
            [("closing_date", VStr "next week")]) = PASS.
Proof.
  rewrite (unparsed_dates_pass example_now
             ["closing_date_in_future"; "closing_date_reasonable"]
             [("closing_date", VStr "next week")]); [reflexivity|].
  intros key Hkey. list_cases Hkey; vm_compute; reflexivity.
Defined.

(** *** Loops that may raise *)

Section Steps.

Variable step : list string -> string -> result (list string).

Local Abbreviation loop :=
  (fold_left (fun acc check => issues ← acc; step issues check)).

Lemma loop_raise checks e : loop checks (Raise e) = Raise e.
Proof. induction checks as [|check checks IH]; simpl; [done|exact IH]. Qed.

Lemma loop_cons check checks init final :
  loop (check :: checks) (Ok init) = Ok final ->
  exists mid, step init check = Ok mid /\ loop checks (Ok mid) = Ok final.
Proof.
  simpl. destruct (step init check) as [mid|e]; simpl; [eauto|].
  by rewrite loop_raise.
Qed.

(** A loop whose steps only append keeps what it has and what a step adds. *)
Lemma loop_keeps checks init final msg :
  (forall issues check issues',
     step issues check = Ok issues' -> exists extra, issues' = issues ++ extra) ->
  loop checks (Ok init) = Ok final -> msg ∈ init -> msg ∈ final.
Proof.
  intros Hgrow. revert init.
  induction checks as [|check checks IH]; intros init H Hin.
  - by injection H as <-.
  - apply loop_cons in H as (mid & Hmid & H).
    apply (IH mid H). destruct (Hgrow _ _ _ Hmid) as [extra ->].
    apply elem_of_app. by left.
Qed.

Lemma loop_adds checks init final check msg :
  (forall issues check issues',
     step issues check = Ok issues' -> exists extra, issues' = issues ++ extra) ->
  (forall issues issues', step issues check = Ok issues' -> msg ∈ issues') ->
  check ∈ checks ->
  loop checks (Ok init) = Ok final -> msg ∈ final.
Proof.
  intros Hgrow Hadd. revert init.
  induction checks as [|c checks IH]; intros init Hin H; [by apply elem_of_nil in Hin|].
  apply loop_cons in H as (mid & Hmid & H).
  apply elem_of_cons in Hin as [<-|Hin].
  - eapply loop_keeps; [exact Hgrow|exact H|]. by eapply Hadd.
  - by eapply IH.
Qed.

(** The loop returns exactly when every step can read what it reads. *)
Lemma loop_returns_iff (reads : string -> bool) checks init :
  (forall issues check,
     (exists issues', step issues check = Ok issues') <-> reads check = true) ->
  (exists final, loop checks (Ok init) = Ok final) <-> forallb reads checks = true.
Proof.
  intros Hreads. revert init.
  induction checks as [|check checks IH]; intros init; simpl.
  - split; eauto.
  - rewrite andb_true_iff, <- (Hreads init check). split.
    + intros [final H].
      destruct (step init check) as [mid|e]; simpl in H.
      * split; [eauto|]. apply (IH mid). eauto.
      * by rewrite loop_raise in H.
    + intros [[mid Hmid] Hrest]. rewrite Hmid. simpl. by apply (IH mid).
Qed.

End Steps.

Lemma forallb_unless (name : string) (b : bool) (checks : list string) :
  forallb (fun check => negb (String.eqb check name) || b) checks
  = negb (bool_decide (name ∈ checks)) || b.
Proof.
  induction checks as [|check checks IH]; simpl; [done|].
  rewrite IH. clear IH.
  destruct (String.eqb_spec check name) as [->|Hne]; simpl.
  - rewrite (bool_decide_eq_true_2 (name ∈ name :: checks))
      by apply list_elem_of_here.
    simpl. by destruct b, (bool_decide (name ∈ checks)).
  - destruct (decide (name ∈ checks)) as [Hin|Hnin].
    + rewrite (bool_decide_eq_true_2 (name ∈ checks)) by done.
      rewrite (bool_decide_eq_true_2 (name ∈ check :: checks))
        by (by apply list_elem_of_further).
      done.
    + rewrite (bool_decide_eq_false_2 (name ∈ checks)) by done.
      rewrite (bool_decide_eq_false_2 (name ∈ check :: checks)); [done|].
      intros Hin. apply elem_of_cons in Hin as [?|?]; [congruence|done].
Qed.

(** *** Amounts *)

Lemma amount_step_grows data issues check issues' :
  amount_step data issues check = Ok issues' -> exists extra, issues' = issues ++ extra.
Proof.
  assert (Hsame : exists extra, issues = issues ++ extra)
    by (exists []; by rewrite app_nil_r).
  unfold amount_step.
  destruct (total_of_fees _) as [total|e]; simpl.
  all: repeat match goal with
              | |- context [if ?b then _ else _] => destruct b
              | |- context [match nonzero ?o with Some _ => _ | None => _ end] =>
                  destruct (nonzero o)
              end.
  all: intros [= <-]; eauto.
Qed.

Lemma nonzero_negative (q : Q) : (q < 0)%Q -> nonzero (Some q) = Some q.
Proof.
  intros H. simpl. destruct (Qeq_bool q 0) eqn:E; [|done].
  apply Qeq_bool_iff in E. lra.
Qed.

Lemma nonzero_some (q : Q) : ~ (q == 0)%Q -> nonzero (Some q) = Some q.
Proof.
  intros H. simpl. destruct (Qeq_bool q 0) eqn:E; [|done].
  by apply Qeq_bool_iff in E.
Qed.

Lemma amount_check_of_report now category data r :
  check_compliance now category data = Ok r ->
  exists issues,
    fold_left (fun acc check => issues ← acc; amount_step data issues check)
      (default [] (default ∅ (rules !! category) !! "amount_checks")) (Ok [])
    = Ok issues /\
    (exists c, c ∈ checks r /\ check_type c = AMOUNT_CHECK /\ details c = issues /\
               status c = if is_nil issues then PASS else WARNING) /\
    (forall c, c ∈ checks r -> check_type c = AMOUNT_CHECK -> details c = issues) /\
    (issues <> [] -> 1 <= warnings r /\ overall_status r <> COMPLIANT).
Proof.
  intros H. apply ComplianceCheckerFacts.check_compliance_inv in H.
  destruct H as (fc & sc & cls & dc & ac & fmc & Hfc & Hsc & Hcls & Hdc & Hac
                 & Hfmc & Hchecks & _ & Hwarn & _ & Hover & _).
  pose proof Hac as Hac'.
  unfold _check_amounts in Hac'.
  apply ComplianceCheckerFacts.bind_ok in Hac' as (issues & Hloop & Hret).
  injection Hret as Hret. exists issues. split; [exact Hloop|].
  assert (Tac : check_type ac = AMOUNT_CHECK) by (by subst ac).
  assert (Dac : details ac = issues) by (by subst ac).
  assert (Sac : status ac = if is_nil issues then PASS else WARNING) by (by subst ac).
  split; [|split].
  - exists ac. split; [|done]. rewrite Hchecks.
    rewrite !elem_of_app, !elem_of_cons. right. right. right. left. done.
  - intros c Hc Tc. assert (c = ac) as ->; [|done].
    destruct (ComplianceCheckerFacts.check_required_fields_shape
                (default [] (default ∅ (rules !! category) !! "required_fields")) data)
      as [Tf _]. rewrite <- Hfc in Tf.
    destruct (ComplianceCheckerFacts.check_signatures_shape
                (default [] (default ∅ (rules !! category) !! "required_signatures"))
                (get_default data "signatures" (VList [])))
      as [Ts _]. rewrite <- Hsc in Ts.
    assert (Td : check_type dc = DATE_CHECK) by (by rewrite Hdc).
    destruct (ComplianceCheckerFacts.check_format_shape _ _ _ Hfmc) as (Tfm & _).
    rewrite Hchecks in Hc.
    destruct (default ∅ (rules !! category) !! "required_clauses").
    + destruct Hcls as (c' & Hc' & ->).
      destruct (ComplianceCheckerFacts.check_required_clauses_shape _ _ _ Hc')
        as [Tc' _].
      list_cases Hc; congruence.
    + subst cls. list_cases Hc; congruence.
  - intros Hne.
    assert (Hw : status ac = WARNING) by (rewrite Sac; by destruct issues).
    assert (Hpos : 1 <= warnings r).
    { rewrite Hwarn. apply bump_one in Hw. lia. }
    split; [exact Hpos|]. rewrite Hover. unfold status_for.
    destruct (0 <? critical_issues r)%nat; [discriminate|].
    destruct (2 <? warnings r)%nat; [discriminate|].
    destruct (Nat.ltb_spec 0 (warnings r)); [discriminate|lia].
Qed.



(** *** When [check_compliance] raises *)

Lemma join_loop_strings (l : list value) (acc strs : list string) :
  fold_left
    (fun acc item =>
       strs ← acc;
       match item with
       | VStr s => Ok (strs ++ [s])
       | _ => Raise (TypeError
                       ("sequence item " +:+ pretty (length strs)
                        +:+ ": expected str instance, "
                        +:+ type_name item +:+ " found"))
       end)
    l (Ok acc) = Ok strs ->
  forallb is_string l = true.
Proof.
  revert acc. induction l as [|item l IH]; intros acc H; [done|].
  simpl in H.
  destruct item as [| | | |s| | |];
    try (exfalso; revert H;
         match goal with
         | |- fold_left ?f l (Raise ?e) = _ -> _ =>
             assert (Hr : fold_left f l (Raise e) = Raise e)
               by (clear; induction l; simpl; auto);
             rewrite Hr; discriminate
         end).
  simpl. by eapply IH.
Qed.

Lemma join_clauses_returns_iff clauses :
  (exists joined, join_clauses clauses = Ok joined) <-> joinable clauses = true.
Proof.
  split; [|apply ComplianceCheckerFacts.join_clauses_returns].
  intros [joined H]. unfold join_clauses in H.
  destruct clauses as [| | | | |l| |]; try discriminate H; try reflexivity.
  simpl in H |- *.
  apply ComplianceCheckerFacts.bind_ok in H as (strs & H & _).
  by eapply join_loop_strings.
Qed.

Lemma fee_loop_raise items e : fold_left fee_step items (Raise e) = Raise e.
Proof. induction items as [|f items IH]; simpl; [done|exact IH]. Qed.

Lemma total_of_fees_returns_iff fees :
  (exists total, total_of_fees fees = Ok total) <-> summable fees = true.
Proof.
  split; [|apply ComplianceCheckerFacts.total_of_fees_returns].
  intros [total H]. unfold total_of_fees in H.
  destruct fees as [| | | | |l| |]; try discriminate H; try reflexivity.
  simpl in H |- *.
  apply ComplianceCheckerFacts.bind_ok in H as ([t b] & H & _).
  revert H. generalize (0%Q, true) as acc.
  induction l as [|f l IH]; intros acc H; simpl in *; [done|].
  destruct acc as [t0 b0]. simpl in H.
  unfold fee_parses at 1.
  destruct f; simpl in *; try (by eapply IH).
  destruct (_parse_amount (get_default d "amount" (VInt 0))); simpl in *.
  - by eapply IH.
  - by rewrite fee_loop_raise in H.
Qed.

Lemma amount_step_returns_iff data issues check :
  (exists issues', amount_step data issues check = Ok issues')
  <-> amount_reads data check = true.
Proof.
  unfold amount_reads.
  destruct (String.eqb_spec check "fees_reasonable") as [->|Hne]; simpl.
  - rewrite <- total_of_fees_returns_iff.
    unfold amount_step. simpl.
    destruct (total_of_fees _) as [total|e]; simpl.
    + split; [eauto|]. intros _.
      repeat match goal with
             | |- context [if ?b then _ else _] => destruct b
             | |- context [match nonzero ?o with Some _ => _ | None => _ end] =>
                 destruct (nonzero o)
             end; eauto.
    + split; intros [? ?]; discriminate.
  - split; [done|]. intros _. unfold amount_step.
    destruct (String.eqb_spec check "fees_reasonable") as [->|_]; [done|].
    repeat match goal with
           | |- context [if ?b then _ else _] => destruct b
           | |- context [match nonzero ?o with Some _ => _ | None => _ end] =>
               destruct (nonzero o)
           end; eauto.
Qed.

Lemma as_string_returns_iff v :
  truthy v = true ->
  (exists issues' : list string,
     (text ← as_string v; (fun _ => Ok issues') text) = Ok issues')
  <-> text_or_empty v = true.
Proof.
  intros Ht. unfold text_or_empty. rewrite Ht. simpl.
  destruct v; simpl; split; try done; try (intros [? ?]; discriminate).
  intros _. by exists [].
Qed.

Lemma format_step_returns_iff data issues check :
  (exists issues', format_step data issues check = Ok issues')
  <-> format_reads data check = true.
Proof.
  unfold format_reads, format_step, text_or_empty, sized_or_empty.
  destruct (String.eqb_spec check "email_format") as [->|H1]; simpl.
  { destruct (truthy (py_or _ _)) eqn:Et; simpl; [|split; eauto].
    destruct (py_or (get data "email") (get data "applicant_email")); simpl;
      split; try done; try (intros [? ?]; discriminate).
    intros _. destruct (negb _); eauto. }
  destruct (String.eqb_spec check "phone_format") as [->|H2]; simpl.
  { destruct (truthy (py_or _ _)) eqn:Et; simpl; [|split; eauto].
    destruct (py_or (get data "phone") (get data "applicant_phone")); simpl;
      split; try done; try (intros [? ?]; discriminate).
    intros _. destruct (negb _); eauto. }
  destruct (String.eqb_spec check "ssn_format") as [->|H3]; simpl.
  { destruct (truthy (get data "ssn")) eqn:Et; simpl; [|split; eauto].
    destruct (get data "ssn"); simpl;
      split; try done; try (intros [? ?]; discriminate).
    intros _. destruct (negb _); eauto. }
  destruct (String.eqb_spec check "legal_description_format") as [->|H4]; simpl.
  { destruct (truthy (get data "legal_description")) eqn:Et; simpl; [|split; eauto].
    destruct (get data "legal_description"); simpl;
      split; try done; try (intros [? ?]; discriminate);
      intros _; destruct (_ <? _)%nat; eauto. }
  split; eauto.
Qed.

Lemma forallb_and {A : Type} (p q : A -> bool) (l : list A) :
  forallb (fun x => p x && q x) l = forallb p l && forallb q l.
Proof.
  induction l as [|x l IH]; simpl; [done|]. rewrite IH.
  destruct (p x), (q x), (forallb p l); simpl; try done.
Qed.

Lemma check_compliance_returns_iff now category data :
  (exists r, check_compliance now category data = Ok r)
  <-> readable_for (default ∅ (rules !! category)) data = true.
Proof.
  unfold check_compliance, readable_for.
  generalize (default ∅ (rules !! category)). intros rule_set.
  set (amount_checks := default [] (rule_set !! "amount_checks")).
  set (format_checks := default [] (rule_set !! "format_checks")).
  remember (_check_required_fields (default [] (rule_set !! "required_fields")) data)
    as field_check eqn:Hfield.
  remember (_check_signatures (default [] (rule_set !! "required_signatures"))
              (get_default data "signatures" (VList [])))
    as signature_check eqn:Hsignature.
  remember (_check_dates now (default [] (rule_set !! "date_checks")) data)
    as date_check eqn:Hdate.
  clear Hfield Hsignature Hdate.
  assert (Ha : (exists c, _check_amounts amount_checks data = Ok c)
               <-> negb (bool_decide ("fees_reasonable" ∈ amount_checks))
                   || summable (get_default data "fees" (VList [])) = true).
  { rewrite <- forallb_unless. fold (amount_reads data).
    rewrite <- (loop_returns_iff (amount_step data) (amount_reads data)
                  amount_checks [] (amount_step_returns_iff data)).
    unfold _check_amounts. split.
    - intros [c H]. apply ComplianceCheckerFacts.bind_ok in H as (issues & H & _).
      eauto.
    - intros [issues H]. rewrite H. simpl. eauto. }
  assert (Hf : (exists c, _check_format format_checks data = Ok c)
               <-> (negb (bool_decide ("email_format" ∈ format_checks))
                    || text_or_empty (py_or (get data "email")
                                            (get data "applicant_email")))
                   && (negb (bool_decide ("phone_format" ∈ format_checks))
                       || text_or_empty (py_or (get data "phone")
                                               (get data "applicant_phone")))
                   && (negb (bool_decide ("ssn_format" ∈ format_checks))
                       || text_or_empty (get data "ssn"))
                   && (negb (bool_decide ("legal_description_format" ∈ format_checks))
                       || sized_or_empty (get data "legal_description")) = true).
  { rewrite <- !forallb_unless, <- !forallb_and. fold (format_reads data).
    rewrite <- (loop_returns_iff (format_step data) (format_reads data)
                  format_checks [] (format_step_returns_iff data)).
    unfold _check_format. split.
    - intros [c H]. apply ComplianceCheckerFacts.bind_ok in H as (issues & H & _).
      eauto.
    - intros [issues H]. rewrite H. simpl. eauto. }
  rewrite !andb_true_iff in Hf. rewrite !andb_true_iff.
  assert (Hj : match rule_set !! "required_clauses" with
               | Some required_clauses =>
                   (exists c, _check_required_clauses required_clauses
                                (get_default data "clauses" (VList [])) = Ok c)
                   <-> joinable (get_default data "clauses" (VList [])) = true
               | None => True
               end).
  { destruct (rule_set !! "required_clauses") as [required_clauses|]; [|done].
    rewrite <- join_clauses_returns_iff. unfold _check_required_clauses.
    destruct (join_clauses _) as [joined|e]; simpl; split; eauto;
      intros [? ?]; discriminate. }
  destruct (rule_set !! "required_clauses") as [required_clauses|].
  - destruct (_check_required_clauses _ _) as [cc|e]; simpl.
    + assert (joinable (get_default data "clauses" (VList [])) = true)
        by (apply Hj; eauto).
      destruct (_check_amounts amount_checks data) as [ac|e]; simpl.
      * assert (negb (bool_decide ("fees_reasonable" ∈ amount_checks))
                || summable (get_default data "fees" (VList [])) = true)
          by (apply Ha; eauto).
        destruct (_check_format format_checks data) as [fmc|e]; simpl.
        -- split; [intros _|eauto].
           assert (Hall : exists c : Check, Ok fmc = Ok c) by eauto.
           apply Hf in Hall. tauto.
        -- split; [intros [? ?]; discriminate|]. intros Hall.
           assert (Hex : exists c : Check, Raise e = Ok c) by (apply Hf; tauto).
           destruct Hex. discriminate.
      * split; [intros [? ?]; discriminate|]. intros Hall.
        assert (Hex : exists c : Check, Raise e = Ok c) by (apply Ha; tauto).
        destruct Hex. discriminate.
    + split; [intros [? ?]; discriminate|]. intros Hall.
      assert (Hex : exists c : Check, Raise e = Ok c) by (apply Hj; tauto).
      destruct Hex. discriminate.
  - simpl.
    destruct (_check_amounts amount_checks data) as [ac|e]; simpl.
    + assert (negb (bool_decide ("fees_reasonable" ∈ amount_checks))
              || summable (get_default data "fees" (VList [])) = true)
        by (apply Ha; eauto).
      destruct (_check_format format_checks data) as [fmc|e]; simpl.
      * split; [intros _|eauto].
        assert (Hall : exists c : Check, Ok fmc = Ok c) by eauto.
        apply Hf in Hall. tauto.
      * split; [intros [? ?]; discriminate|]. intros Hall.
        assert (Hex : exists c : Check, Raise e = Ok c) by (apply Hf; tauto).
        destruct Hex. discriminate.
    + split; [intros [? ?]; discriminate|]. intros Hall.
      assert (Hex : exists c : Check, Raise e = Ok c) by (apply Ha; tauto).
      destruct Hex. discriminate.
Qed.


(** *** Examples of the amount check and of unreadable data *)




End ComplianceReportFacts.

(** ** Nested values, clauses, amounts and the three validators *)

Module ValidatorFacts.
Import Py ComplianceChecker.
Import ComplianceReportFacts.

(** *** Strings *)

Lemma append_nil_r (s : string) : s +:+ EmptyString = s.
Proof. induction s as [|c s IH]; [done|]. by rewrite PyFacts.append_cons, IH. Qed.

Lemma append_assoc (a b c : string) : (a +:+ b) +:+ c = a +:+ (b +:+ c).
Proof. induction a as [|x a IH]; [done|]. by rewrite !PyFacts.append_cons, IH. Qed.

Lemma append_length (a b : string) :
  String.length (a +:+ b) = String.length a + String.length b.
Proof. induction a as [|x a IH]; [done|]. rewrite PyFacts.append_cons. simpl. lia. Qed.

Lemma append_empty (a b : string) :
  a +:+ b = EmptyString -> a = EmptyString /\ b = EmptyString.
Proof. destruct a; [done|]. rewrite PyFacts.append_cons. discriminate. Qed.

Lemma str_lower_app (a b : string) :
  str_lower (a +:+ b) = str_lower a +:+ str_lower b.
Proof.
  induction a as [|x a IH]; [done|].
  rewrite PyFacts.append_cons. simpl. by rewrite IH, PyFacts.append_cons.
Qed.

Lemma re_sub_class_app (cls : ascii -> bool) (a b : string) :
  re_sub_class cls (a +:+ b) = re_sub_class cls a +:+ re_sub_class cls b.
Proof.
  induction a as [|x a IH]; [done|].
  rewrite PyFacts.append_cons. simpl. rewrite IH.
  destruct (cls x); [done|]. by rewrite PyFacts.append_cons.
Qed.

Lemma all_chars_app (cls : ascii -> bool) (a b : string) :
  all_chars cls (a +:+ b) = all_chars cls a && all_chars cls b.
Proof.
  induction a as [|x a IH]; [done|].
  rewrite PyFacts.append_cons. simpl. rewrite IH. by rewrite andb_assoc.
Qed.

Lemma join_contains (sep x : string) (l : list string) :
  x ∈ l -> exists pre post, str_join sep l = pre +:+ x +:+ post.
Proof.
  induction l as [|y l IH]; intros Hin; [by apply elem_of_nil in Hin|].
  apply elem_of_cons in Hin as [->|Hin].
  - exists EmptyString. destruct l as [|z l].
    + exists EmptyString. simpl. by rewrite append_nil_r.
    + exists (sep +:+ str_join sep (z :: l)). reflexivity.
  - destruct (IH Hin) as (pre & post & Heq). destruct l as [|z l].
    + by apply elem_of_nil in Hin.
    + exists (y +:+ sep +:+ pre), post.
      change (str_join sep (y :: z :: l)) with (y +:+ sep +:+ str_join sep (z :: l)).
      rewrite Heq. by rewrite !append_assoc.
Qed.

(** *** Nested values *)

Lemma str_split_aux_key (sep : ascii) (cur key s : string) :
  all_chars (fun c => negb (Ascii.eqb c sep)) key = true ->
  str_split_aux sep cur (key +:+ s) = str_split_aux sep (cur +:+ key) s.
Proof.
  revert cur. induction key as [|c key IH]; intros cur H.
  - by rewrite append_nil_r.
  - simpl in H. apply andb_true_iff in H as [Hc Hkey].
    rewrite PyFacts.append_cons. simpl.
    apply negb_true_iff in Hc. rewrite Hc. rewrite (IH _ Hkey).
    f_equal. rewrite append_assoc. by rewrite PyFacts.append_cons.
Qed.

Lemma str_split_aux_nonempty (sep : ascii) (cur s : string) :
  str_split_aux sep cur s <> [].
Proof.
  revert cur. induction s as [|c s IH]; intros cur; simpl; [done|].
  destruct (Ascii.eqb c sep); [done|apply IH].
Qed.

(** X21: a required field is looked up by its dotted path. A key without
    a dot is the key of the data itself; [key.rest] is [rest] looked up in
    the dict under [key], and is [None] where [key] is missing or holds
    anything but a dict. *)
Theorem nested_value_by_path (data : list (string * value)) (key rest : string) :
  no_dot key = true ->
  _get_nested_value data key = get data key /\
  _get_nested_value data (key +:+ "." +:+ rest) =
    match get data key with
    | VDict d => _get_nested_value d rest
    | _ => VNone
    end.
Proof.
  intros Hkey. unfold _get_nested_value, str_split. split.
  - rewrite <- (append_nil_r key) at 1.
    rewrite (str_split_aux_key "." EmptyString key EmptyString Hkey). reflexivity.
  - rewrite (str_split_aux_key "." EmptyString key _ Hkey).
    change (EmptyString +:+ key) with key.
    change ("." +:+ rest) with (String "." rest).
    cbn [str_split_aux Ascii.eqb Bool.eqb]. cbn [get_nested].
    destruct (get data key); try reflexivity.
    all: destruct (str_split_aux "." EmptyString rest) eqn:E;
      [by apply str_split_aux_nonempty in E|reflexivity].
Qed.

(** *** Clauses *)

Lemma join_clauses_strings (strs : list string) :
  join_clauses (VList (map VStr strs)) = Ok (str_join " " strs).
Proof.
  unfold join_clauses. simpl.
  assert (H : forall acc,
             fold_left
               (fun acc item =>
                  strs ← acc;
                  match item with
                  | VStr s => Ok (strs ++ [s])
                  | _ => Raise (TypeError
                                  ("sequence item " +:+ pretty (length strs)
                                   +:+ ": expected str instance, "
                                   +:+ type_name item +:+ " found"))
                  end)
               (map VStr strs) (Ok acc) = Ok (acc ++ strs)).
  { induction strs as [|s strs IH]; intros acc; simpl.
    - by rewrite app_nil_r.
    - rewrite IH. by rewrite <- app_assoc. }
  rewrite H. reflexivity.
Qed.

(** X22: a required clause is found when any of the clause strings
    contains its name, with underscores read as spaces and case ignored; the
    clauses reported missing are among the required ones. *)
Theorem clause_found_in_any_string
    (required strs : list string) (clause s : string) :
  s ∈ strs ->
  str_in (str_replace "_" " " (str_lower clause)) (str_lower s) = true ->
  exists c,
    _check_required_clauses required (VList (map VStr strs)) = Ok c /\
    (clause ∉ details c) /\
    (forall x, x ∈ details c -> x ∈ required).
Proof.
  intros Hin Hfound. unfold _check_required_clauses.
  rewrite join_clauses_strings. simpl. eexists. split; [reflexivity|]. simpl.
  rewrite (collect_filter
             (fun clause => negb (str_in (str_replace "_" " " (str_lower clause))
                                         (str_lower (str_join " " strs))))).
  simpl.
  assert (Hjoined : str_in (str_replace "_" " " (str_lower clause))
                           (str_lower (str_join " " strs)) = true).
  { apply PyFacts.str_in_app in Hfound as (pre & post & Hs).
    destruct (join_contains " " s strs Hin) as (pre' & post' & Hj).
    apply PyFacts.str_in_app.
    exists (str_lower pre' +:+ pre), (post +:+ str_lower post').
    rewrite Hj, !str_lower_app, Hs. by rewrite !append_assoc. }
  split.
  - rewrite list_elem_of_In, filter_In. intros [_ H].
    rewrite Hjoined in H. discriminate.
  - intros x. rewrite !list_elem_of_In, filter_In. tauto.
Qed.

(** *** Amounts *)

(** X23: dollar signs and commas are dropped wherever they stand before an
    amount is read. *)
Theorem parse_amount_ignores_separators (a b : string) :
  _parse_amount (VStr (a +:+ "$" +:+ b)) = _parse_amount (VStr (a +:+ b)) /\
  _parse_amount (VStr (a +:+ "," +:+ b)) = _parse_amount (VStr (a +:+ b)).
Proof.
  unfold _parse_amount. rewrite !re_sub_class_app. simpl. done.
Qed.

(** *** Regular expressions *)

Lemma match_rep_spec (cls : ascii -> bool) (k : string -> bool) (s : string) :
  forall lo hi,
    match_rep cls lo hi k s = true <->
    exists pre rest,
      s = pre +:+ rest /\ all_chars cls pre = true /\
      lo <= String.length pre /\
      (forall h, hi = Some h -> String.length pre <= h) /\
      k rest = true.
Proof.
  induction s as [|c s IH]; intros lo hi.
  - simpl. split.
    + destruct lo; [|discriminate]. intros Hk.
      exists EmptyString, EmptyString. repeat split; try done; simpl; lia.
    + intros (pre & rest & Hs & _ & Hlo & _ & Hk).
      symmetry in Hs. apply append_empty in Hs as [-> ->].
      simpl in Hlo. by destruct lo; [|lia].
  - cbn [match_rep].
    assert (Hstop : (match lo with O => k (String c s) | S _ => false end) = true
                    <-> lo = 0 /\ k (String c s) = true)
      by (destruct lo; split; (discriminate || tauto || intros [? ?]; done)).
    split.
    + intros H.
      destruct (cls c && match hi with Some 0 => false | _ => true end) eqn:Ec.
      * apply orb_true_iff in H as [H|H].
        -- apply IH in H as (pre & rest & -> & Hall & Hlo & Hhi & Hk).
           apply andb_true_iff in Ec as [Ec Eh].
           exists (String c pre), rest. rewrite PyFacts.append_cons. simpl.
           rewrite Ec, Hall. repeat split; try done; [lia|].
           intros h ->. destruct h as [|h]; [discriminate|].
           specialize (Hhi h eq_refl). lia.
        -- apply Hstop in H as [-> Hk].
           exists EmptyString, (String c s). repeat split; try done; simpl; lia.
      * apply Hstop in H as [-> Hk].
        exists EmptyString, (String c s). repeat split; try done; simpl; lia.
    + intros (pre & rest & Hs & Hall & Hlo & Hhi & Hk).
      destruct pre as [|c' pre].
      * change (EmptyString +:+ rest) with rest in Hs. simpl in Hlo. subst rest.
        assert (Hs' : (match lo with O => k (String c s) | S _ => false end) = true)
          by (apply Hstop; split; [lia|done]).
        rewrite Hs'. destruct (cls c && _); [apply orb_true_r|done].
      * rewrite PyFacts.append_cons in Hs. injection Hs as <- ->.
        simpl in Hall, Hlo, Hhi. apply andb_true_iff in Hall as [Ec Hall].
        assert (Eh : match hi with Some 0 => false | _ => true end = true).
        { destruct hi as [[|h]|]; try done. specialize (Hhi 0 eq_refl). lia. }
        rewrite Ec, Eh. simpl. apply orb_true_iff. left.
        apply IH. exists pre, rest. repeat split; try done; [lia|].
        intros h Hh. destruct hi as [h'|]; [|discriminate].
        simpl in Hh. injection Hh as <-. specialize (Hhi h' eq_refl). lia.
Qed.

Lemma eol_spec (s : string) : re_match [Eol] s = true <-> ends_line s.
Proof.
  simpl. rewrite andb_true_r, orb_true_iff, !String.eqb_eq. reflexivity.
Qed.

(** X24: a social security number is valid exactly when, its hyphens
    dropped, it is nine digits; a phone number exactly when, without
    hyphens, white space, brackets and dots, it is ten or eleven digits. In
    both cases one line feed may follow the digits. *)
Theorem ssn_and_phone_digits (text : string) :
  (_is_valid_ssn text = true <->
   exists digits tail,
     re_sub_class (is_char "-") text = digits +:+ tail /\
     all_chars isdigit digits = true /\ String.length digits = 9 /\
     ends_line tail) /\
  (_is_valid_phone text = true <->
   exists digits tail,
     re_sub_class phone_separator text = digits +:+ tail /\
     all_chars isdigit digits = true /\
     10 <= String.length digits <= 11 /\
     ends_line tail).
Proof.
  split.
  - unfold _is_valid_ssn. cbn [re_match].
    rewrite (match_rep_spec isdigit (re_match [Eol])). split.
    + intros (digits & tail & Hs & Hall & Hlo & Hhi & Hk). exists digits, tail.
      apply eol_spec in Hk. specialize (Hhi 9 eq_refl).
      repeat split; try done. lia.
    + intros (digits & tail & Hs & Hall & Hlen & Hk). exists digits, tail.
      repeat split; try done; [lia| |by apply eol_spec].
      intros h [= <-]. lia.
  - unfold _is_valid_phone. cbn [re_match].
    rewrite (match_rep_spec isdigit (re_match [Eol])). split.
    + intros (digits & tail & Hs & Hall & Hlo & Hhi & Hk). exists digits, tail.
      apply eol_spec in Hk. specialize (Hhi 11 eq_refl).
      repeat split; try done.
    + intros (digits & tail & Hs & Hall & Hlen & Hk). exists digits, tail.
      repeat split; try done; [lia| |by apply eol_spec].
      intros h [= <-]. lia.
Qed.

Lemma one_spec (c : ascii) (k : string -> bool) (s : string) :
  match_rep (is_char c) 1 (Some 1) k s = true <->
  exists rest, s = String c rest /\ k rest = true.
Proof.
  rewrite match_rep_spec. split.
  - intros (pre & rest & -> & Hall & Hlo & Hhi & Hk).
    specialize (Hhi 1 eq_refl).
    destruct pre as [|c' [|c'' pre]]; simpl in *; try lia.
    rewrite andb_true_r in Hall. unfold is_char in Hall.
    apply Ascii.eqb_eq in Hall as ->. exists rest. by rewrite PyFacts.append_cons.
  - intros (rest & -> & Hk). exists (String c EmptyString), rest.
    simpl. unfold is_char. rewrite Ascii.eqb_refl.
    repeat split; try done. intros h [= <-]. lia.
Qed.

(** X25: an e-mail address is valid exactly when it is a local part, an
    at sign, a domain, a dot and at least two letters, possibly followed by
    one line feed; the local part and the domain are not empty and are made
    of the characters of their classes. *)
Theorem valid_email_shape (email : string) :
  _is_valid_email email = true <->
  exists local_part domain letters tail,
    email = local_part +:+ "@" +:+ domain +:+ "." +:+ letters +:+ tail /\
    all_chars email_local_char local_part = true /\ 1 <= String.length local_part /\
    all_chars email_domain_char domain = true /\ 1 <= String.length domain /\
    all_chars isalpha letters = true /\ 2 <= String.length letters /\
    ends_line tail.
Proof.
  unfold _is_valid_email, one. cbn [re_match].
  fold email_local_char. fold email_domain_char.
  rewrite match_rep_spec. split.
  - intros (local_part & rest & -> & Hl & Hll & _ & Hk).
    apply one_spec in Hk as (rest1 & -> & Hk).
    apply match_rep_spec in Hk as (domain & rest2 & -> & Hd & Hdl & _ & Hk).
    apply one_spec in Hk as (rest3 & -> & Hk).
    apply match_rep_spec in Hk as (letters & tail & -> & Ha & Hal & _ & Hk).
    apply eol_spec in Hk.
    exists local_part, domain, letters, tail. by rewrite !PyFacts.append_cons.
  - intros (local_part & domain & letters & tail & -> & Hl & Hll & Hd & Hdl
            & Ha & Hal & Hk).
    exists local_part, ("@" +:+ domain +:+ "." +:+ letters +:+ tail).
    repeat split; try done.
    rewrite PyFacts.append_cons. apply one_spec. eexists. split; [reflexivity|].
    apply match_rep_spec. exists domain, ("." +:+ letters +:+ tail).
    repeat split; try done.
    rewrite PyFacts.append_cons. apply one_spec. eexists. split; [reflexivity|].
    apply match_rep_spec. exists letters, tail.
    repeat split; try done. by apply eol_spec.
Qed.

(** *** Examples *)

Lemma nested_value_by_path_witness :
  _get_nested_value [("buyer", VDict [("name", VStr "John Doe")])] "buyer.name"
  = VStr "John Doe" /\
  _get_nested_value [("buyer", VStr "John Doe")] "buyer.name" = VNone.
Proof.
  destruct (nested_value_by_path [("buyer", VDict [("name", VStr "John Doe")])]
              "buyer" "name") as [_ H1]; [reflexivity|].
  destruct (nested_value_by_path [("buyer", VStr "John Doe")]
              "buyer" "name") as [_ H2]; [reflexivity|].
  split; [exact H1|exact H2].
Defined.

Lemma clause_found_in_any_string_witness :
  exists c,
    _check_required_clauses
      ["contingencies"; "inspection_period"; "financing_terms"]
      (VList (map VStr ["Contingencies: none"; "Inspection Period of 14 days"]))
    = Ok c /\
    ("inspection_period" ∉ details c) /\
    (forall x, x ∈ details c ->
               x ∈ ["contingencies"; "inspection_period"; "financing_terms"]).
Proof.
  apply (clause_found_in_any_string
           ["contingencies"; "inspection_period"; "financing_terms"]
           ["Contingencies: none"; "Inspection Period of 14 days"]
           "inspection_period" "Inspection Period of 14 days").
  - apply list_elem_of_further, list_elem_of_here.
  - vm_compute. reflexivity.
Defined.

End ValidatorFacts.

(** ** [_parse_date] on dates written out *)

Module DateFacts.
Import Py ComplianceChecker.
Import ValidatorFacts.

Local Open Scope Z_scope.

(** *** Digits *)

Lemma digit_char_spec (a : Z) :
  0 <= a <= 9 ->
  isdigit (digit_char a) = true /\ Z.of_N (code (digit_char a) - 48) = a.
Proof.
  intros H.
  assert (Ha : a = 0 \/ a = 1 \/ a = 2 \/ a = 3 \/ a = 4 \/ a = 5 \/ a = 6
               \/ a = 7 \/ a = 8 \/ a = 9) by lia.
  repeat destruct Ha as [->|Ha]; try subst a; by vm_compute.
Qed.

Lemma zero_padded_four (y : Z) :
  zero_padded 4 y =
  String (digit_char (y / 1000 mod 10))
    (String (digit_char (y / 100 mod 10))
       (String (digit_char (y / 10 mod 10))
          (String (digit_char (y mod 10)) EmptyString))).
Proof.
  unfold zero_padded.
  change (10 ^ Z.of_nat 3) with 1000. change (10 ^ Z.of_nat 2) with 100.
  change (10 ^ Z.of_nat 1) with 10. change (10 ^ Z.of_nat 0) with 1.
  by rewrite Z.div_1_r.
Qed.

Lemma year_digits (y : Z) :
  0 <= y <= 9999 ->
  exists c1 c2 c3 c4,
    zero_padded 4 y = String c1 (String c2 (String c3 (String c4 EmptyString))) /\
    isdigit c1 = true /\ isdigit c2 = true /\ isdigit c3 = true /\ isdigit c4 = true /\
    int_of_digits (String c1 (String c2 (String c3 (String c4 EmptyString)))) = y.
Proof.
  intros Hy. rewrite zero_padded_four.
  destruct (digit_char_spec (y / 1000 mod 10)) as [H1 V1];
    [pose proof (Z.mod_pos_bound (y / 1000) 10 ltac:(lia)); lia|].
  destruct (digit_char_spec (y / 100 mod 10)) as [H2 V2];
    [pose proof (Z.mod_pos_bound (y / 100) 10 ltac:(lia)); lia|].
  destruct (digit_char_spec (y / 10 mod 10)) as [H3 V3];
    [pose proof (Z.mod_pos_bound (y / 10) 10 ltac:(lia)); lia|].
  destruct (digit_char_spec (y mod 10)) as [H4 V4];
    [pose proof (Z.mod_pos_bound y 10 ltac:(lia)); lia|].
  do 4 eexists. split; [reflexivity|]. repeat split; try done.
  unfold int_of_digits. cbn [list_ascii_of_string fold_left].
  rewrite H1, H2, H3, H4, V1, V2, V3, V4.
  clear -Hy. Z.div_mod_to_equations. lia.
Qed.

(** *** One directive at a time *)

(** The year, four digits, is read whatever follows. *)
Lemma year_first (y : Z) (fmt : list directive) (rest : string) (g : groups) :
  0 <= y <= 9999 ->
  match_format (DirY :: fmt) (zero_padded 4 y +:+ rest) g
  = match_format fmt rest (set_group DirY y g).
Proof.
  intros Hy. destruct (year_digits y Hy) as (c1 & c2 & c3 & c4 & -> & H1 & H2 & H3 & H4 & Hv).
  rewrite !PyFacts.append_cons. change (EmptyString +:+ rest) with rest.
  cbn [match_format alternatives fold_left match_classes].
  rewrite H1, H2, H3, H4. by rewrite Hv.
Qed.

Lemma year_last (y : Z) (g : groups) :
  0 <= y <= 9999 ->
  match_format [DirY] (zero_padded 4 y) g = Some (set_group DirY y g, EmptyString).
Proof.
  intros Hy. rewrite <- (append_nil_r (zero_padded 4 y)).
  by rewrite year_first.
Qed.

(** A string whose third character is a slash does not start with a year. *)
Lemma year_not_before_slash (c1 c2 : ascii) (fmt : list directive) (rest : string)
    (g : groups) :
  match_format (DirY :: fmt) (String c1 (String c2 (String "/" rest))) g = None.
Proof.
  cbn [match_format alternatives fold_left match_classes].
  destruct (isdigit c1); [|done]. destruct (isdigit c2); [|done]. reflexivity.
Qed.

(** Writes out the padded numbers of the goal. *)
Ltac write_out_padded :=
  repeat match goal with
         | |- context [zero_padded ?w ?n] =>
             let s := eval vm_compute in (zero_padded w n) in
             change (zero_padded w n) with s
         end;
  rewrite ?PyFacts.append_cons;
  repeat match goal with
         | |- context [EmptyString +:+ ?rest] => change (EmptyString +:+ rest) with rest
         end.

(** Evaluates the tests on characters that are written out. *)
Ltac run_classes :=
  repeat (cbn [match_format alternatives fold_left match_classes set_group];
          repeat match goal with
                 | |- context [char_range ?a ?b ?c] =>
                     let v := eval vm_compute in (char_range a b c) in
                     change (char_range a b c) with v
                 | |- context [is_char ?a ?c] =>
                     let v := eval vm_compute in (is_char a c) in
                     change (is_char a c) with v
                 | |- context [isdigit ?c] =>
                     let v := eval vm_compute in (isdigit c) in
                     progress change (isdigit c) with v
                 | |- context [Ascii.eqb (lower_char ?a) (lower_char ?c)] =>
                     let v := eval vm_compute in (Ascii.eqb (lower_char a) (lower_char c)) in
                     change (Ascii.eqb (lower_char a) (lower_char c)) with v
                 | |- context [int_of_digits ?t] =>
                     let v := eval vm_compute in (int_of_digits t) in
                     progress change (int_of_digits t) with v
                 end;
          cbn iota beta).

Ltac month_cases m H :=
  let Hm := fresh in
  assert (Hm : m = 1 \/ m = 2 \/ m = 3 \/ m = 4 \/ m = 5 \/ m = 6 \/ m = 7
               \/ m = 8 \/ m = 9 \/ m = 10 \/ m = 11 \/ m = 12) by lia;
  clear H; repeat destruct Hm as [->|Hm]; try subst m.

Ltac day_cases d H :=
  let Hd := fresh in
  assert (Hd : d = 1 \/ d = 2 \/ d = 3 \/ d = 4 \/ d = 5 \/ d = 6 \/ d = 7
               \/ d = 8 \/ d = 9 \/ d = 10 \/ d = 11 \/ d = 12 \/ d = 13
               \/ d = 14 \/ d = 15 \/ d = 16 \/ d = 17 \/ d = 18 \/ d = 19
               \/ d = 20 \/ d = 21 \/ d = 22 \/ d = 23 \/ d = 24 \/ d = 25
               \/ d = 26 \/ d = 27 \/ d = 28 \/ d = 29 \/ d = 30 \/ d = 31) by lia;
  clear H; repeat destruct Hd as [->|Hd]; try subst d.

(** A literal is read, whatever its case. *)
Lemma literal_first (c : ascii) (fmt : list directive) (rest : string) (g : groups) :
  match_format (DirLit c :: fmt) (String c rest) g = match_format fmt rest g.
Proof.
  cbn [match_format alternatives fold_left match_classes].
  rewrite Ascii.eqb_refl. cbn [set_group].
  by destruct (match_format fmt rest g).
Qed.

(** A month, and a day, of two digits is read as such when what follows can
    be read. *)
Lemma month_first (m : Z) (fmt : list directive) (rest : string)
    (g : groups) (r : groups * string) :
  1 <= m <= 12 ->
  match_format fmt rest (set_group Dirm m g) = Some r ->
  match_format (Dirm :: fmt) (zero_padded 2 m +:+ rest) g = Some r.
Proof.
  intros Hm Hrest. month_cases m Hm.
  all: write_out_padded; run_classes; cbn [set_group] in Hrest; by rewrite Hrest.
Qed.

Lemma day_first (d : Z) (fmt : list directive) (rest : string)
    (g : groups) (r : groups * string) :
  1 <= d <= 31 ->
  match_format fmt rest (set_group Dird d g) = Some r ->
  match_format (Dird :: fmt) (zero_padded 2 d +:+ rest) g = Some r.
Proof.
  intros Hd Hrest. day_cases d Hd.
  all: write_out_padded; run_classes; cbn [set_group] in Hrest; by rewrite Hrest.
Qed.

(** Two digits from 13 on are not a month followed by a slash. *)
Lemma month_not_over_twelve (a : Z) (fmt : list directive) (rest : string)
    (g : groups) :
  13 <= a <= 31 ->
  match_format (Dirm :: DirLit "/" :: fmt) (zero_padded 2 a +:+ rest) g = None.
Proof.
  intros Ha.
  assert (Hc : a = 13 \/ a = 14 \/ a = 15 \/ a = 16 \/ a = 17 \/ a = 18 \/ a = 19
               \/ a = 20 \/ a = 21 \/ a = 22 \/ a = 23 \/ a = 24 \/ a = 25
               \/ a = 26 \/ a = 27 \/ a = 28 \/ a = 29 \/ a = 30 \/ a = 31) by lia.
  clear Ha. repeat destruct Hc as [->|Hc]; try subst a.
  all: write_out_padded; run_classes; reflexivity.
Qed.

(** *** [strptime] and [_parse_date] *)

Lemma strptime_date (fmt : list directive) (s : string) (y m d : Z) :
  match_format fmt s no_groups
  = Some (set_group Dird d (set_group Dirm m (set_group DirY y no_groups)),
          EmptyString) ->
  1 <= y -> d <= days_in_month y m ->
  strptime s fmt = Some (midnight y m d).
Proof.
  intros Hmatch Hy Hd. unfold strptime. fold no_groups. rewrite Hmatch.
  cbn [set_group no_groups gY gm gd gH gM gS].
  assert (H1 : (1 <=? y) = true) by (apply Z.leb_le; lia).
  assert (H2 : (d <=? days_in_month y m) = true) by (apply Z.leb_le; lia).
  rewrite H1, H2. reflexivity.
Qed.

Lemma strptime_no_match (fmt : list directive) (s : string) :
  match_format fmt s no_groups = None -> strptime s fmt = None.
Proof. intros H. unfold strptime. fold no_groups. by rewrite H. Qed.

Lemma parse_date_first (s : string) (t : datetime) :
  strptime s [DirY; DirLit "-"; Dirm; DirLit "-"; Dird] = Some t ->
  _parse_date (VStr s) = Some t.
Proof.
  intros H. unfold _parse_date, formats. cbn [fold_left]. by rewrite H.
Qed.

Lemma parse_date_second (s : string) (t : datetime) :
  strptime s [DirY; DirLit "-"; Dirm; DirLit "-"; Dird] = None ->
  strptime s [Dirm; DirLit "/"; Dird; DirLit "/"; DirY] = Some t ->
  _parse_date (VStr s) = Some t.
Proof.
  intros H1 H2. unfold _parse_date, formats. cbn [fold_left]. by rewrite H1, H2.
Qed.

Lemma parse_date_third (s : string) (t : datetime) :
  strptime s [DirY; DirLit "-"; Dirm; DirLit "-"; Dird] = None ->
  strptime s [Dirm; DirLit "/"; Dird; DirLit "/"; DirY] = None ->
  strptime s [Dird; DirLit "/"; Dirm; DirLit "/"; DirY] = Some t ->
  _parse_date (VStr s) = Some t.
Proof.
  intros H1 H2 H3. unfold _parse_date, formats. cbn [fold_left].
  by rewrite H1, H2, H3.
Qed.

Lemma days_in_month_bounds (y m : Z) : 28 <= days_in_month y m <= 31.
Proof.
  unfold days_in_month.
  destruct (m =? 2); [destruct (is_leap y); lia|].
  destruct ((m =? 4) || (m =? 6) || (m =? 9) || (m =? 11))%bool; lia.
Qed.

(** X26: every date of the years 1 to 9999, written in the ISO form
    [YYYY-MM-DD], is read back as that date, at midnight. *)
Theorem parse_date_reads_iso (y m d : Z) :
  1 <= y <= 9999 -> 1 <= m <= 12 -> 1 <= d <= days_in_month y m ->
  _parse_date (VStr (iso_format y m d)) = Some (midnight y m d).
Proof.
  intros Hy Hm Hd. pose proof (days_in_month_bounds y m) as Hb.
  apply parse_date_first, strptime_date; [|lia|lia].
  unfold iso_format. rewrite year_first by lia.
  rewrite PyFacts.append_cons. change (EmptyString +:+ ?x) with x.
  rewrite literal_first.
  apply month_first; [lia|].
  rewrite PyFacts.append_cons. change (EmptyString +:+ ?x) with x.
  rewrite literal_first.
  rewrite <- (append_nil_r (zero_padded 2 d)).
  apply day_first; [lia|]. reflexivity.
Qed.

Lemma slash_format_head (a b y : Z) :
  exists c1 c2 rest,
    slash_format a b y = String c1 (String c2 (String "/" rest)).
Proof.
  unfold slash_format. cbn [zero_padded].
  rewrite !PyFacts.append_cons. change (EmptyString +:+ ?x) with x.
  rewrite ?PyFacts.append_cons. eauto.
Qed.

(** X27: a date written with slashes is read month first whenever its
    first number can be a month, also where it was meant day first; it is
    read day first only when the first number is 13 or more. *)
Theorem parse_date_reads_slashes_month_first (a b y : Z) :
  1 <= y <= 9999 ->
  (1 <= a <= 12 -> 1 <= b <= days_in_month y a ->
   _parse_date (VStr (slash_format a b y)) = Some (midnight y a b)) /\
  (13 <= a <= days_in_month y b -> 1 <= b <= 12 ->
   _parse_date (VStr (slash_format a b y)) = Some (midnight y b a)).
Proof.
  intros Hy.
  assert (Hiso : strptime (slash_format a b y)
                   [DirY; DirLit "-"; Dirm; DirLit "-"; Dird] = None).
  { destruct (slash_format_head a b y) as (c1 & c2 & rest & ->).
    apply strptime_no_match, year_not_before_slash. }
  split.
  - intros Ha Hb. pose proof (days_in_month_bounds y a) as Hbound.
    apply parse_date_second; [exact Hiso|].
    apply (strptime_date _ _ y a b); [|lia|lia].
    unfold slash_format.
    apply month_first; [lia|].
    rewrite PyFacts.append_cons. change (EmptyString +:+ ?x) with x.
    rewrite literal_first.
    apply day_first; [lia|].
    rewrite PyFacts.append_cons. change (EmptyString +:+ ?x) with x.
    rewrite literal_first.
    rewrite year_last by lia. reflexivity.
  - intros Ha Hb. pose proof (days_in_month_bounds y b) as Hbound.
    apply parse_date_third; [exact Hiso| |].
    + apply strptime_no_match. unfold slash_format.
      apply month_not_over_twelve. lia.
    + apply (strptime_date _ _ y b a); [|lia|lia].
      unfold slash_format.
      apply day_first; [lia|].
      rewrite PyFacts.append_cons. change (EmptyString +:+ ?x) with x.
      rewrite literal_first.
      apply month_first; [lia|].
      rewrite PyFacts.append_cons. change (EmptyString +:+ ?x) with x.
      rewrite literal_first.
      rewrite year_last by lia. reflexivity.
Qed.

(** *** Examples *)

Lemma parse_date_reads_iso_witness :
  _parse_date (VStr "2024-02-29") = Some (midnight 2024 2 29).
Proof.
  apply (parse_date_reads_iso 2024 2 29); [lia|lia|].
  split; [lia|]. vm_compute. discriminate.
Defined.

(** The fifth of April, written day first, is read as the fourth of May. *)
Lemma parse_date_reads_slashes_month_first_witness :
  _parse_date (VStr "05/04/2024") = Some (midnight 2024 5 4) /\
  _parse_date (VStr "13/02/2024") = Some (midnight 2024 2 13).
Proof.
  destruct (parse_date_reads_slashes_month_first 5 4 2024) as [H1 _]; [lia|].
  destruct (parse_date_reads_slashes_month_first 13 2 2024) as [_ H2]; [lia|].
  split.
  - apply H1; [lia|]. split; [lia|]. vm_compute. discriminate.
  - apply H2; [|lia]. split; [lia|]. vm_compute. discriminate.
Defined.

End DateFacts.
